(** * CameraService: connection arbitration and client lifecycle

    A shallow embedding of
    [services/camera/libcameraservice/CameraService.cpp].

    The service object and the client objects it allocates are kept in one
    explicit store.  Every member function of the source becomes a
    computation in a small state-and-trace monad: it reads and writes the
    store and appends the externally visible calls it makes (HAL, binder,
    media player, app-ops) to an event trace, in program order. *)

From Stdlib Require Import ZArith List Bool String Lia.
From stdpp Require Import base list.
Import ListNotations.

Local Open Scope Z_scope.

(** ** Plain data *)

(** Identity of a remote binder endpoint ([IBinder] compared by address). *)
Abbreviation remote := nat.

(** Address of a client object on the heap. *)
Abbreviation cid := nat.

(** [status_t]; [FAILED rc] stands for any code this file does not name. *)
Inductive status_t :=
| OK | NO_INIT | BAD_VALUE | PERMISSION_DENIED | INVALID_OPERATION
| FAILED (rc : Z).

Definition is_OK (r : status_t) : bool :=
  match r with OK => true | _ => false end.

(** Result of [AppOpsManager::checkOp] / [startOp]. *)
Inductive op_mode := MODE_ALLOWED | MODE_IGNORED | MODE_ERRORED | MODE_UNKNOWN (m : Z).

Definition is_MODE_ALLOWED (m : op_mode) : bool :=
  match m with MODE_ALLOWED => true | _ => false end.

(** [enum sound_kind]; [NUM_SOUNDS] is the number of constructors. *)
Inductive sound_kind := SOUND_SHUTTER | SOUND_RECORDING.

Definition all_sounds : list sound_kind := [SOUND_SHUTTER; SOUND_RECORDING].

Definition sound_kind_eqb (a b : sound_kind) : bool :=
  match a, b with
  | SOUND_SHUTTER, SOUND_SHUTTER | SOUND_RECORDING, SOUND_RECORDING => true
  | _, _ => false
  end.

(** The concrete classes [connect] instantiates. *)
Inductive ClientKind := CameraClient | Camera2Client | ProCamera2Client.

(** [true] for the subclasses of [CameraService::Client]. *)
Definition is_exclusive (k : ClientKind) : bool :=
  match k with ProCamera2Client => false | _ => true end.

(** [RefBase] life of an object: strong count positive; strong count zero
    with the destructor still due or running; destructor finished. *)
Inductive RefState := Alive | Dying | Dead.

(** [struct camera_info] as filled in by the HAL. *)
Record camera_info := {
  facing : Z;
  orientation : Z;
  device_version : Z
}.

(** [struct CameraInfo] handed back to callers. *)
Record CameraInfo := {
  ci_facing : Z;
  ci_orientation : Z
}.

(** [camera_module_t]: the part of the HAL module the service uses.
    [get_camera_info id] yields the return code and the contents of the
    out-parameter after the call. *)
Record camera_module := {
  module_api_version : Z;
  get_number_of_cameras : Z;
  get_camera_info : Z -> status_t * camera_info
}.

(** A binder that [unlinkToDeath] is called on. *)
Inductive binder :=
| RemoteBinder (r : remote)
| ClientBinder (c : cid).

(** [BasicClient] with the [RefBase] state of the object. *)
Record BasicClient := {
  kind : ClientKind;
  mRemoteCallback : remote;
  mClientPackageName : string;
  mCameraId : Z;
  mCameraFacing : Z;
  mClientPid : Z;
  mClientUid : Z;
  mServicePid : Z;
  mOpsActive : bool;
  mOpsCallback : bool;
  mDestructionStarted : bool;
  refs : RefState
}.

(** [Client::getCameraClient()->asBinder()].  [mCameraClient] is the
    [ICameraClient] whose binder the constructor passes on to
    [BasicClient] as [mRemoteCallback]. *)
Definition getCameraClient (o : BasicClient) : remote := mRemoteCallback o.

Definition set_mClientPid (p : Z) (o : BasicClient) : BasicClient :=
  {| kind := kind o; mRemoteCallback := mRemoteCallback o;
     mClientPackageName := mClientPackageName o; mCameraId := mCameraId o;
     mCameraFacing := mCameraFacing o; mClientPid := p;
     mClientUid := mClientUid o; mServicePid := mServicePid o;
     mOpsActive := mOpsActive o; mOpsCallback := mOpsCallback o;
     mDestructionStarted := mDestructionStarted o; refs := refs o |}.

Definition set_mOpsActive (b : bool) (o : BasicClient) : BasicClient :=
  {| kind := kind o; mRemoteCallback := mRemoteCallback o;
     mClientPackageName := mClientPackageName o; mCameraId := mCameraId o;
     mCameraFacing := mCameraFacing o; mClientPid := mClientPid o;
     mClientUid := mClientUid o; mServicePid := mServicePid o;
     mOpsActive := b; mOpsCallback := mOpsCallback o;
     mDestructionStarted := mDestructionStarted o; refs := refs o |}.

Definition set_mOpsCallback (b : bool) (o : BasicClient) : BasicClient :=
  {| kind := kind o; mRemoteCallback := mRemoteCallback o;
     mClientPackageName := mClientPackageName o; mCameraId := mCameraId o;
     mCameraFacing := mCameraFacing o; mClientPid := mClientPid o;
     mClientUid := mClientUid o; mServicePid := mServicePid o;
     mOpsActive := mOpsActive o; mOpsCallback := b;
     mDestructionStarted := mDestructionStarted o; refs := refs o |}.

Definition set_mDestructionStarted (b : bool) (o : BasicClient) : BasicClient :=
  {| kind := kind o; mRemoteCallback := mRemoteCallback o;
     mClientPackageName := mClientPackageName o; mCameraId := mCameraId o;
     mCameraFacing := mCameraFacing o; mClientPid := mClientPid o;
     mClientUid := mClientUid o; mServicePid := mServicePid o;
     mOpsActive := mOpsActive o; mOpsCallback := mOpsCallback o;
     mDestructionStarted := b; refs := refs o |}.

Definition set_refs (r : RefState) (o : BasicClient) : BasicClient :=
  {| kind := kind o; mRemoteCallback := mRemoteCallback o;
     mClientPackageName := mClientPackageName o; mCameraId := mCameraId o;
     mCameraFacing := mCameraFacing o; mClientPid := mClientPid o;
     mClientUid := mClientUid o; mServicePid := mServicePid o;
     mOpsActive := mOpsActive o; mOpsCallback := mOpsCallback o;
     mDestructionStarted := mDestructionStarted o; refs := r |}.

(** ** The service object and the heap *)

(** The members of [CameraService] this file touches, and the client
    objects allocated so far.  The arrays of [MAX_CAMERAS] entries are
    indexed by the [int] the code indexes them with.  [mClient i = None] is
    the null weak pointer; [Some c] may be stale.  [mSoundRef] is an [int]
    that counts client objects, far from the range where it could
    overflow. *)
Record CameraService := {
  mModule : option camera_module;
  mNumberOfCameras : Z;
  mClient : Z -> option cid;
  mBusy : Z -> Z;
  mProClientList : Z -> list cid;
  mSoundRef : Z;
  mSoundPlayer : sound_kind -> option string;
  heap : list BasicClient
}.

Definition upd {V} (f : Z -> V) (i : Z) (v : V) : Z -> V :=
  fun j => if j =? i then v else f j.

Definition set_mModule (m : option camera_module) (s : CameraService) :=
  {| mModule := m; mNumberOfCameras := mNumberOfCameras s;
     mClient := mClient s; mBusy := mBusy s;
     mProClientList := mProClientList s; mSoundRef := mSoundRef s;
     mSoundPlayer := mSoundPlayer s; heap := heap s |}.

Definition set_mNumberOfCameras (n : Z) (s : CameraService) :=
  {| mModule := mModule s; mNumberOfCameras := n;
     mClient := mClient s; mBusy := mBusy s;
     mProClientList := mProClientList s; mSoundRef := mSoundRef s;
     mSoundPlayer := mSoundPlayer s; heap := heap s |}.

Definition set_mClient (i : Z) (w : option cid) (s : CameraService) :=
  {| mModule := mModule s; mNumberOfCameras := mNumberOfCameras s;
     mClient := upd (mClient s) i w; mBusy := mBusy s;
     mProClientList := mProClientList s; mSoundRef := mSoundRef s;
     mSoundPlayer := mSoundPlayer s; heap := heap s |}.

Definition set_mBusy (i : Z) (v : Z) (s : CameraService) :=
  {| mModule := mModule s; mNumberOfCameras := mNumberOfCameras s;
     mClient := mClient s; mBusy := upd (mBusy s) i v;
     mProClientList := mProClientList s; mSoundRef := mSoundRef s;
     mSoundPlayer := mSoundPlayer s; heap := heap s |}.

Definition set_mProClientList (i : Z) (l : list cid) (s : CameraService) :=
  {| mModule := mModule s; mNumberOfCameras := mNumberOfCameras s;
     mClient := mClient s; mBusy := mBusy s;
     mProClientList := upd (mProClientList s) i l; mSoundRef := mSoundRef s;
     mSoundPlayer := mSoundPlayer s; heap := heap s |}.

Definition set_mSoundRef (n : Z) (s : CameraService) :=
  {| mModule := mModule s; mNumberOfCameras := mNumberOfCameras s;
     mClient := mClient s; mBusy := mBusy s;
     mProClientList := mProClientList s; mSoundRef := n;
     mSoundPlayer := mSoundPlayer s; heap := heap s |}.

Definition set_mSoundPlayer (k : sound_kind) (p : option string) (s : CameraService) :=
  {| mModule := mModule s; mNumberOfCameras := mNumberOfCameras s;
     mClient := mClient s; mBusy := mBusy s;
     mProClientList := mProClientList s; mSoundRef := mSoundRef s;
     mSoundPlayer := fun j => if sound_kind_eqb j k then p else mSoundPlayer s j;
     heap := heap s |}.

Definition set_heap (h : list BasicClient) (s : CameraService) :=
  {| mModule := mModule s; mNumberOfCameras := mNumberOfCameras s;
     mClient := mClient s; mBusy := mBusy s;
     mProClientList := mProClientList s; mSoundRef := mSoundRef s;
     mSoundPlayer := mSoundPlayer s; heap := h |}.

(** [wp<T>::promote()]: the object when its strong count is positive. *)
Definition promote (s : CameraService) (c : cid) : option BasicClient :=
  match heap s !! c with
  | Some o => match refs o with Alive => Some o | _ => None end
  | None => None
  end.

(** ** What a call reads from outside the service *)

(** The answers of the environment during one incoming call: binder
    calling identity, own pid, the system property, the outcome of the
    subclass [initialize], app-ops answers and whether a sound file can be
    opened. *)
Record Env := {
  getCallingPid : Z;
  getCallingUid : Z;
  getpid : Z;
  camera_disabled_property : string;
  initialize_result : status_t;
  startOp_result : op_mode;
  checkOp_result : op_mode;
  setDataSource : string -> status_t
}.

(** ** Events *)

Inductive Event :=
| EvSetCameraBusy (cameraId : Z)
| EvSetCameraFree (cameraId : Z)
| EvLoadSound
| EvReleaseSound
| EvPlayerDisconnect (k : sound_kind)
| EvPlayerStart (k : sound_kind)
| EvNew (k : ClientKind) (c : cid)
| EvInitialize (c : cid)
| EvLinkToDeath (r : remote)
| EvUnlinkToDeath (b : binder)
| EvDestructionStarted (c : cid)
| EvFinishCameraOps (c : cid)
| EvStartWatchingMode (c : cid)
| EvStartOp (c : cid)
| EvFinishOp (c : cid)
| EvStopWatchingMode (c : cid)
| EvSetClientPid (c : cid) (p : Z)
| EvNotifyError (r : remote)
| EvClientDisconnect (c : cid) (cameraId : Z)
| EvProClientDisconnect (c : cid)
| EvRemoveClientByRemote (r : remote)
| EvNotImplemented.

(** ** The monad *)

Definition M (A : Type) : Type := CameraService -> A * CameraService * list Event.

Definition ret {A} (a : A) : M A := fun s => (a, s, []).

Definition bind {A B} (m : M A) (k : A -> M B) : M B :=
  fun s =>
    let '(a, s1, t1) := m s in
    let '(b, s2, t2) := k a s1 in
    (b, s2, t1 ++ t2).

Definition get : M CameraService := fun s => (s, s, []).

Definition modify (f : CameraService -> CameraService) : M unit :=
  fun s => (tt, f s, []).

Definition emit (e : Event) : M unit := fun s => (tt, s, [e]).

Declare Scope cam_scope.
Delimit Scope cam_scope with cam.
Notation "x <- m ;; k" := (bind m (fun x => k))
  (at level 100, m at next level, right associativity) : cam_scope.
Notation "m ;;; k" := (bind m (fun _ => k))
  (at level 100, right associativity) : cam_scope.
Local Open Scope cam_scope.

Definition result {A} (r : A * CameraService * list Event) : A := fst (fst r).
Definition state {A} (r : A * CameraService * list Event) : CameraService := snd (fst r).
Definition trace {A} (r : A * CameraService * list Event) : list Event := snd r.

(** Write through a pointer to a client object. *)
Definition update_obj (c : cid) (f : BasicClient -> BasicClient) : M unit :=
  modify (fun s => set_heap (alter f c (heap s)) s).

Definition with_obj {A} (c : cid) (dflt : A) (k : BasicClient -> M A) : M A :=
  s <- get ;;
  match heap s !! c with
  | Some o => k o
  | None => ret dflt
  end.

(** [for (int i = start; ...; i++) body(i)], [n] iterations. *)
Fixpoint for_each_index (n : nat) (i : Z) (body : Z -> M unit) : M unit :=
  match n with
  | O => ret tt
  | S k => body i ;;; for_each_index k (i + 1) body
  end.

(** Constants the source takes from headers that are not part of this
    translation unit ([CameraService.h], [ICameraService.h],
    [hardware/camera_common.h], [binder/AppOpsManager.h]).  The code is
    modelled for any values of them. *)
Class Constants := {
  MAX_CAMERAS : Z;
  USE_CALLING_UID : Z;
  CAMERA_DEVICE_API_VERSION_1_0 : Z;
  CAMERA_DEVICE_API_VERSION_2_0 : Z;
  CAMERA_DEVICE_API_VERSION_2_1 : Z;
  CAMERA_MODULE_API_VERSION_2_0 : Z;
  OP_CAMERA : Z
}.

Section Service.

Context {K : Constants}.

(** ** Construction and start-up *)

(** [CameraService::CameraService()]: [mSoundRef(0), mModule(0)]; members
    of class type are default-constructed; [mNumberOfCameras] and [mBusy]
    are left with whatever the allocation holds. *)
Definition CameraService_ctor (indeterminate_n : Z) (indeterminate_busy : Z -> Z)
  : CameraService :=
  {| mModule := None;
     mNumberOfCameras := indeterminate_n;
     mClient := fun _ => None;
     mBusy := indeterminate_busy;
     mProClientList := fun _ => [];
     mSoundRef := 0;
     mSoundPlayer := fun _ => None;
     heap := [] |}.

Definition setCameraBusy (cameraId : Z) : M unit :=
  modify (set_mBusy cameraId 1) ;;;
  emit (EvSetCameraBusy cameraId).

Definition setCameraFree (cameraId : Z) : M unit :=
  modify (set_mBusy cameraId 0) ;;;
  emit (EvSetCameraFree cameraId).

(** [onFirstRef]; [hw_get_module] is [None] when [hw_get_module(...) < 0]. *)
Definition onFirstRef (hw_get_module : option camera_module) : M unit :=
  match hw_get_module with
  | None => modify (set_mNumberOfCameras 0)
  | Some module =>
      modify (set_mModule (Some module)) ;;;
      modify (set_mNumberOfCameras (get_number_of_cameras module)) ;;;
      s <- get ;;
      (if mNumberOfCameras s >? MAX_CAMERAS
       then modify (set_mNumberOfCameras MAX_CAMERAS)
       else ret tt) ;;;
      s <- get ;;
      for_each_index (Z.to_nat (mNumberOfCameras s)) 0 setCameraFree
  end.

Definition getNumberOfCameras : M Z :=
  s <- get ;; ret (mNumberOfCameras s).

(** [getCameraInfo]; the second component is what was stored through
    [cameraInfo], if anything. *)
Definition getCameraInfo (cameraId : Z) : M (status_t * option CameraInfo) :=
  s <- get ;;
  match mModule s with
  | None => ret (NO_INIT, None)
  | Some module =>
      if (cameraId <? 0) || (cameraId >=? mNumberOfCameras s)
      then ret (BAD_VALUE, None)
      else
        let rc_info := get_camera_info module cameraId in
        ret (fst rc_info,
             Some {| ci_facing := facing (snd rc_info);
                     ci_orientation := orientation (snd rc_info) |})
  end.

(** [getDeviceVersion(cameraId, &facing)] on a loaded module: the version
    and the value of [facing] afterwards. *)
Definition getDeviceVersion (module : camera_module) (cameraId : Z) (facing0 : Z)
  : Z * Z :=
  let rc_info := get_camera_info module cameraId in
  if negb (is_OK (fst rc_info)) then (-1, facing0)
  else
    let deviceVersion :=
      if module_api_version module >=? CAMERA_MODULE_API_VERSION_2_0
      then device_version (snd rc_info)
      else CAMERA_DEVICE_API_VERSION_1_0 in
    (deviceVersion, facing (snd rc_info)).

(** ** Shared sounds *)

Definition newMediaPlayer (e : Env) (file : string) : option string :=
  if is_OK (setDataSource e file) then Some file else None.

Definition loadSound (e : Env) : M unit :=
  emit EvLoadSound ;;;
  s <- get ;;
  modify (set_mSoundRef (mSoundRef s + 1)) ;;;
  if negb (mSoundRef s =? 0) then ret tt
  else
    modify (set_mSoundPlayer SOUND_SHUTTER
              (newMediaPlayer e "/system/media/audio/ui/camera_click.ogg")) ;;;
    modify (set_mSoundPlayer SOUND_RECORDING
              (newMediaPlayer e "/system/media/audio/ui/VideoRecord.ogg")).

Fixpoint releaseSound_players (ks : list sound_kind) : M unit :=
  match ks with
  | [] => ret tt
  | k :: rest =>
      s <- get ;;
      (match mSoundPlayer s k with
       | Some _ => emit (EvPlayerDisconnect k) ;;; modify (set_mSoundPlayer k None)
       | None => ret tt
       end) ;;;
      releaseSound_players rest
  end.

Definition releaseSound : M unit :=
  emit EvReleaseSound ;;;
  s <- get ;;
  modify (set_mSoundRef (mSoundRef s - 1)) ;;;
  if negb (mSoundRef s - 1 =? 0) then ret tt
  else releaseSound_players all_sounds.

Definition playSound (k : sound_kind) : M unit :=
  s <- get ;;
  match mSoundPlayer s k with
  | Some _ => emit (EvPlayerStart k)
  | None => ret tt
  end.

(** ** Looking clients up by their remote *)

(** Body of the loop of [findClientUnsafe], from index [i], [n] iterations
    left.  The result is the client and [outIndex]. *)
Fixpoint findClientUnsafe_loop (n : nat) (i : Z) (cameraClient : remote)
  : M (option cid * Z) :=
  match n with
  | O => ret (None, -1)
  | S k =>
      s <- get ;;
      match mClient s i with
      | None => findClientUnsafe_loop k (i + 1) cameraClient
      | Some c =>
          match promote s c with
          | None =>
              modify (set_mClient i None) ;;;
              findClientUnsafe_loop k (i + 1) cameraClient
          | Some o =>
              if Nat.eqb cameraClient (getCameraClient o)
              then ret (Some c, i)
              else findClientUnsafe_loop k (i + 1) cameraClient
          end
      end
  end.

Definition findClientUnsafe (cameraClient : remote) : M (option cid * Z) :=
  s <- get ;;
  findClientUnsafe_loop (Z.to_nat (mNumberOfCameras s)) 0 cameraClient.

(** Inner loop of [findProClientUnsafe] over one list, from position [j]:
    the match it stops at, and [removeIdx]. *)
Fixpoint findPro_scan (s : CameraService) (who : remote) (l : list cid) (j : nat)
  : option cid * list nat :=
  match l with
  | [] => (None, [])
  | cl :: rest =>
      match promote s cl with
      | Some o =>
          if Nat.eqb (mRemoteCallback o) who then (Some cl, [])
          else findPro_scan s who rest (S j)
      | None =>
          let r := findPro_scan s who rest (S j) in
          (fst r, j :: snd r)
      end
  end.

(** [removeAt] for the marked positions, last one first. *)
Definition remove_stale (removeIdx : list nat) (l : list cid) : list cid :=
  fold_left (fun acc j => delete j acc) (rev removeIdx) l.

Fixpoint findProClientUnsafe_loop (n : nat) (i : Z) (who : remote)
         (clientPro : option cid) : M (option cid) :=
  match n with
  | O => ret clientPro
  | S k =>
      s <- get ;;
      let r := findPro_scan s who (mProClientList s i) 0 in
      modify (set_mProClientList i (remove_stale (snd r) (mProClientList s i))) ;;;
      findProClientUnsafe_loop k (i + 1) who
        (match fst r with Some cl => Some cl | None => clientPro end)
  end.

Definition findProClientUnsafe (cameraCallbacksRemote : remote) : M (option cid) :=
  s <- get ;;
  findProClientUnsafe_loop (Z.to_nat (mNumberOfCameras s)) 0
    cameraCallbacksRemote None.

Definition removeClientByRemote (remoteBinder : remote) : M unit :=
  emit (EvRemoveClientByRemote remoteBinder) ;;;
  found <- findClientUnsafe remoteBinder ;;
  match fst found with
  | Some c =>
      modify (set_mClient (snd found) None) ;;;
      emit (EvUnlinkToDeath (ClientBinder c))
  | None =>
      clientPro <- findProClientUnsafe remoteBinder ;;
      match clientPro with
      | Some p =>
          with_obj p tt (fun o =>
            emit (EvUnlinkToDeath (RemoteBinder (mRemoteCallback o))))
      | None => ret tt
      end
  end.

Definition getClientByRemote (cameraClient : remote) : M (option cid) :=
  found <- findClientUnsafe cameraClient ;;
  ret (fst found).

(** ** Client objects *)

(** [BasicClient::BasicClient], for an object of dynamic type [k]. *)
Definition BasicClient_ctor (k : ClientKind) (remoteCallback : remote)
    (clientPackageName : string) (cameraId cameraFacing clientPid clientUid
     servicePid : Z) : BasicClient :=
  {| kind := k;
     mRemoteCallback := remoteCallback;
     mClientPackageName := clientPackageName;
     mCameraId := cameraId;
     mCameraFacing := cameraFacing;
     mClientPid := clientPid;
     mClientUid := clientUid;
     mServicePid := servicePid;
     mOpsActive := false;
     mOpsCallback := false;
     mDestructionStarted := false;
     refs := Alive |}.

(** [new]: the object is placed at the next free address. *)
Definition allocate (o : BasicClient) : M cid :=
  s <- get ;;
  modify (set_heap (heap s ++ [o])) ;;;
  ret (length (heap s)).

(** [new CameraClient(...)] / [new Camera2Client(...)] as far as
    [Client::Client] goes. *)
Definition Client_ctor (e : Env) (k : ClientKind) (cameraClient : remote)
    (clientPackageName : string) (cameraId cameraFacing clientPid clientUid
     servicePid : Z) : M cid :=
  c <- allocate (BasicClient_ctor k cameraClient clientPackageName cameraId
                   cameraFacing clientPid clientUid servicePid) ;;
  emit (EvNew k c) ;;;
  setCameraBusy cameraId ;;;
  loadSound e ;;;
  ret c.

(** [new ProCamera2Client(...)] as far as [ProClient::ProClient] goes. *)
Definition ProClient_ctor (k : ClientKind) (remoteCallback : remote)
    (clientPackageName : string) (cameraId cameraFacing clientPid clientUid
     servicePid : Z) : M cid :=
  c <- allocate (BasicClient_ctor k remoteCallback clientPackageName cameraId
                   cameraFacing clientPid clientUid servicePid) ;;
  emit (EvNew k c) ;;;
  ret c.

Definition BasicClient_disconnect (c : cid) : M unit :=
  with_obj c tt (fun o => removeClientByRemote (mRemoteCallback o)).

(** [Client::disconnect()].  The entry in the trace records the slot the
    object was created for. *)
Definition Client_disconnect (c : cid) : M unit :=
  with_obj c tt (fun o => emit (EvClientDisconnect c (mCameraId o))) ;;;
  BasicClient_disconnect c ;;;
  with_obj c tt (fun o => setCameraFree (mCameraId o)).

Definition ProClient_disconnect (c : cid) : M unit :=
  emit (EvProClientDisconnect c) ;;;
  BasicClient_disconnect c.

(** The virtual [disconnect()].  The per-version subclasses are outside
    this file; the call is resolved to the override this file defines for
    the object's branch of the hierarchy. *)
Definition disconnect (c : cid) : M unit :=
  with_obj c tt (fun o =>
    if is_exclusive (kind o) then Client_disconnect c
    else ProClient_disconnect c).

Definition Client_notifyError (c : cid) : M unit :=
  with_obj c tt (fun o => emit (EvNotifyError (getCameraClient o))).

Definition ProClient_notifyError (c : cid) : M unit :=
  emit EvNotImplemented.

(** The virtual [notifyError()]. *)
Definition notifyError (c : cid) : M unit :=
  with_obj c tt (fun o =>
    if is_exclusive (kind o) then Client_notifyError c
    else ProClient_notifyError c).

Definition startCameraOps (e : Env) (c : cid) : M status_t :=
  update_obj c (set_mOpsCallback true) ;;;
  emit (EvStartWatchingMode c) ;;;
  emit (EvStartOp c) ;;;
  if negb (is_MODE_ALLOWED (startOp_result e)) then ret PERMISSION_DENIED
  else
    update_obj c (set_mOpsActive true) ;;;
    ret OK.

Definition finishCameraOps (c : cid) : M status_t :=
  emit (EvFinishCameraOps c) ;;;
  with_obj c tt (fun o =>
    if mOpsActive o
    then emit (EvFinishOp c) ;;; update_obj c (set_mOpsActive false)
    else ret tt) ;;;
  emit (EvStopWatchingMode c) ;;;
  update_obj c (set_mOpsCallback false) ;;;
  ret OK.

Definition BasicClient_opChanged (e : Env) (c : cid) (op : Z)
    (packageName : string) : M unit :=
  if negb (op =? OP_CAMERA) then ret tt
  else
    if negb (is_MODE_ALLOWED (checkOp_result e)) then
      update_obj c (set_mClientPid (getCallingPid e)) ;;;
      emit (EvSetClientPid c (getCallingPid e)) ;;;
      notifyError c ;;;
      disconnect c
    else ret tt.

(** [OpsCallback::opChanged] of the callback object created for [c]. *)
Definition OpsCallback_opChanged (e : Env) (c : cid) (op : Z)
    (packageName : string) : M unit :=
  s <- get ;;
  match promote s c with
  | Some _ => BasicClient_opChanged e c op packageName
  | None => ret tt
  end.

(** [Client::~Client()]. *)
Definition Client_dtor (c : cid) : M unit :=
  update_obj c (set_mDestructionStarted true) ;;;
  emit (EvDestructionStarted c) ;;;
  releaseSound ;;;
  finishCameraOps c ;;;
  Client_disconnect c.

(** [ProClient::~ProClient()]. *)
Definition ProClient_dtor (c : cid) : M unit :=
  update_obj c (set_mDestructionStarted true) ;;;
  emit (EvDestructionStarted c) ;;;
  ProClient_disconnect c.

(** [BasicClient::~BasicClient()]. *)
Definition BasicClient_dtor (c : cid) : M unit :=
  update_obj c (set_mDestructionStarted true) ;;;
  emit (EvDestructionStarted c).

(** The last strong reference goes away: the destructors of this file run,
    derived class first, and the object is gone. *)
Definition destroy (c : cid) : M unit :=
  update_obj c (set_refs Dying) ;;;
  with_obj c tt (fun o =>
    (if is_exclusive (kind o) then Client_dtor c else ProClient_dtor c) ;;;
    BasicClient_dtor c) ;;;
  update_obj c (set_refs Dead).

(** ** connect *)

(** The labels of [switch(deviceVersion)]. *)
Inductive version_case := case_1_0 | case_2_0_2_1 | case_minus_1 | case_default.

Definition switch_deviceVersion (deviceVersion : Z) : version_case :=
  if deviceVersion =? CAMERA_DEVICE_API_VERSION_1_0 then case_1_0
  else if (deviceVersion =? CAMERA_DEVICE_API_VERSION_2_0)
          || (deviceVersion =? CAMERA_DEVICE_API_VERSION_2_1) then case_2_0_2_1
  else if deviceVersion =? -1 then case_minus_1
  else case_default.

(** The labels are pairwise different, as a [switch] requires. *)
Definition case_labels_distinct : Prop :=
  CAMERA_DEVICE_API_VERSION_1_0 <> CAMERA_DEVICE_API_VERSION_2_0 /\
  CAMERA_DEVICE_API_VERSION_1_0 <> CAMERA_DEVICE_API_VERSION_2_1 /\
  CAMERA_DEVICE_API_VERSION_2_0 <> CAMERA_DEVICE_API_VERSION_2_1 /\
  CAMERA_DEVICE_API_VERSION_1_0 <> -1 /\
  CAMERA_DEVICE_API_VERSION_2_0 <> -1 /\
  CAMERA_DEVICE_API_VERSION_2_1 <> -1.

(** From [client->initialize(mModule)] to the end of [connect]. *)
Definition connect_initialize (e : Env) (cameraClient : remote) (cameraId : Z)
    (c : cid) : M (option cid) :=
  emit (EvInitialize c) ;;;
  if negb (is_OK (initialize_result e)) then
    destroy c ;;;
    ret None
  else
    emit (EvLinkToDeath cameraClient) ;;;
    modify (set_mClient cameraId (Some c)) ;;;
    ret (Some c).

(** From the test of [mBusy] to the end of [connect]. *)
Definition connect_unowned (e : Env) (module : camera_module)
    (cameraClient : remote) (cameraId : Z) (clientPackageName : string)
    (callingPid clientUid : Z) : M (option cid) :=
  s <- get ;;
  if negb (mBusy s cameraId =? 0) then ret None
  else
    let dv := getDeviceVersion module cameraId (-1) in
    match switch_deviceVersion (fst dv) with
    | case_1_0 =>
        c <- Client_ctor e CameraClient cameraClient clientPackageName
               cameraId (snd dv) callingPid clientUid (getpid e) ;;
        connect_initialize e cameraClient cameraId c
    | case_2_0_2_1 =>
        c <- Client_ctor e Camera2Client cameraClient clientPackageName
               cameraId (snd dv) callingPid clientUid (getpid e) ;;
        connect_initialize e cameraClient cameraId c
    | case_minus_1 => ret None
    | case_default => ret None
    end.

(** [connect(cameraClient, cameraId, clientPackageName, clientUid)];
    [None] is the null handle. *)
Definition connect (e : Env) (cameraClient : remote) (cameraId : Z)
    (clientPackageName : string) (clientUid : Z) : M (option cid) :=
  let callingPid := getCallingPid e in
  if negb (clientUid =? USE_CALLING_UID) && negb (callingPid =? getpid e)
  then ret None
  else
    let clientUid :=
      if clientUid =? USE_CALLING_UID then getCallingUid e else clientUid in
    s <- get ;;
    match mModule s with
    | None => ret None
    | Some module =>
        if (cameraId <? 0) || (cameraId >=? mNumberOfCameras s) then ret None
        else if String.eqb (camera_disabled_property e) "1" then ret None
        else
          match mClient s cameraId with
          | Some w =>
              match promote s w with
              | Some o =>
                  if Nat.eqb cameraClient (getCameraClient o)
                  then ret (Some w)
                  else ret None
              | None =>
                  modify (set_mClient cameraId None) ;;;
                  connect_unowned e module cameraClient cameraId
                    clientPackageName callingPid clientUid
              end
          | None =>
              connect_unowned e module cameraClient cameraId
                clientPackageName callingPid clientUid
          end
    end.

(** The [IProCameraUser] overload of [connect]. *)
Definition connectPro (e : Env) (cameraCb : remote) (cameraId : Z)
  : M (option cid) :=
  let callingPid := getCallingPid e in
  s <- get ;;
  match mModule s with
  | None => ret None
  | Some module =>
      if (cameraId <? 0) || (cameraId >=? mNumberOfCameras s) then ret None
      else if String.eqb (camera_disabled_property e) "1" then ret None
      else
        let dv := getDeviceVersion module cameraId (-1) in
        match switch_deviceVersion (fst dv) with
        | case_1_0 => ret None
        | case_2_0_2_1 =>
            c <- ProClient_ctor ProCamera2Client cameraCb EmptyString cameraId
                   (snd dv) callingPid USE_CALLING_UID (getpid e) ;;
            emit (EvInitialize c) ;;;
            if negb (is_OK (initialize_result e)) then
              destroy c ;;;
              ret None
            else
              s1 <- get ;;
              modify (set_mProClientList cameraId
                        (mProClientList s1 cameraId ++ [c])) ;;;
              emit (EvLinkToDeath cameraCb) ;;;
              ret (Some c)
        | case_minus_1 => ret None
        | case_default => ret None
        end
  end.

(** [binderDied(who)]. *)
Definition binderDied (who : remote) : M unit :=
  cameraClient <- getClientByRemote who ;;
  match cameraClient with
  | None => ret tt
  | Some c => disconnect c
  end.

(** ** The service as a transition system *)

(** What can happen to the service: the calls of its binder interface, the
    callbacks it registered for, calls on a handle a caller holds, and the
    two sides of a client object going away: the last strong reference is
    dropped, and the destructor runs. *)
Inductive Action :=
| AConnect (e : Env) (cameraClient : remote) (cameraId : Z)
    (clientPackageName : string) (clientUid : Z)
| AConnectPro (e : Env) (cameraCb : remote) (cameraId : Z)
| AGetNumberOfCameras
| AGetCameraInfo (cameraId : Z)
| APlaySound (k : sound_kind)
| ARemoveClientByRemote (r : remote)
| ABinderDied (who : remote)
| ADisconnect (c : cid)
| AStartCameraOps (e : Env) (c : cid)
| AFinishCameraOps (c : cid)
| AOpChanged (e : Env) (c : cid) (op : Z) (packageName : string)
| ADropLastRef (c : cid)
| ADestroy (c : cid).

Definition run (a : Action) : M unit :=
  match a with
  | AConnect e cameraClient cameraId clientPackageName clientUid =>
      _ <- connect e cameraClient cameraId clientPackageName clientUid ;; ret tt
  | AConnectPro e cameraCb cameraId =>
      _ <- connectPro e cameraCb cameraId ;; ret tt
  | AGetNumberOfCameras => _ <- getNumberOfCameras ;; ret tt
  | AGetCameraInfo cameraId => _ <- getCameraInfo cameraId ;; ret tt
  | APlaySound k => playSound k
  | ARemoveClientByRemote r => removeClientByRemote r
  | ABinderDied who => binderDied who
  | ADisconnect c => disconnect c
  | AStartCameraOps e c => _ <- startCameraOps e c ;; ret tt
  | AFinishCameraOps c => _ <- finishCameraOps c ;; ret tt
  | AOpChanged e c op packageName => OpsCallback_opChanged e c op packageName
  | ADropLastRef c => update_obj c (set_refs Dying)
  | ADestroy c => destroy c
  end.

Definition is_Some_b {A} (o : option A) : bool :=
  match o with Some _ => true | None => false end.

Definition is_Dying (s : CameraService) (c : cid) : bool :=
  match heap s !! c with
  | Some o => match refs o with Dying => true | _ => false end
  | None => false
  end.

(** Calls through a handle need the object alive; a destructor runs once,
    after the last strong reference went away. *)
Definition enabled (a : Action) (s : CameraService) : bool :=
  match a with
  | ADisconnect c | AStartCameraOps _ c | AFinishCameraOps c | ADropLastRef c =>
      is_Some_b (promote s c)
  | ADestroy c => is_Dying s c
  | _ => true
  end.

(** The service once [onFirstRef] has run on the fresh object. *)
Definition start (hw_get_module : option camera_module)
    (indeterminate_n : Z) (indeterminate_busy : Z -> Z) : CameraService :=
  state (onFirstRef hw_get_module
           (CameraService_ctor indeterminate_n indeterminate_busy)).

Inductive reachable_from (s0 : CameraService) : CameraService -> Prop :=
| reachable_refl : reachable_from s0 s0
| reachable_step (s : CameraService) (a : Action) :
    reachable_from s0 s -> enabled a s = true ->
    reachable_from s0 (state (run a s)).

Definition reachable (s : CameraService) : Prop :=
  exists hw_get_module indeterminate_n indeterminate_busy,
    reachable_from (start hw_get_module indeterminate_n indeterminate_busy) s.

Fixpoint count_if {T} (p : T -> bool) (l : list T) : nat :=
  match l with
  | [] => O
  | x :: rest => ((if p x then 1 else 0) + count_if p rest)%nat
  end.

(** A [Client] object that was constructed and whose destructor has not
    run. *)
Definition live_exclusive (o : BasicClient) : bool :=
  is_exclusive (kind o) && match refs o with Dead => false | _ => true end.

Definition live_exclusive_clients (s : CameraService) : nat :=
  count_if live_exclusive (heap s).

(** By how much the reference count of the sounds exceeds the number of
    such objects. *)
Definition sound_balance (s : CameraService) : Z :=
  mSoundRef s - Z.of_nat (live_exclusive_clients s).

(** ** Specifications of computations *)

(** [m] leaves the observation [f] of the state as it was. *)
Definition keeps {A B} (f : CameraService -> B) (m : M A) : Prop :=
  forall s, f (state (m s)) = f s.

(** Every entry of every trace of [m] passes the test [p]. *)
Definition emits_only {A} (p : Event -> bool) (m : M A) : Prop :=
  forall s, forallb p (trace (m s)) = true.


Definition is_EvNew (ev : Event) : bool :=
  match ev with EvNew _ _ => true | _ => false end.

Definition is_EvUnlinkToDeath (ev : Event) : bool :=
  match ev with EvUnlinkToDeath _ => true | _ => false end.

Definition is_EvSetCameraFree (ev : Event) : bool :=
  match ev with EvSetCameraFree _ => true | _ => false end.

(** The entries by which a revoked client is told and re-stamped. *)
Definition is_revocation_notice (ev : Event) : bool :=
  match ev with
  | EvSetClientPid _ _ | EvNotifyError _ | EvNotImplemented => true
  | _ => false
  end.

(** What the lookups by remote never write. *)
Definition outside_registry (s : CameraService) :=
  (mModule s, mNumberOfCameras s, mBusy s, mSoundRef s, mSoundPlayer s, heap s).

(** What is fixed at start-up. *)
Definition hal_view (s : CameraService) := (mModule s, mNumberOfCameras s).

(** What stays of an object for its whole life. *)
Definition identity_of (o : BasicClient) :=
  (kind o, mRemoteCallback o, mCameraId o).

(** A field of the object at address [c], if there is one. *)
Definition field_at {B} (get_field : BasicClient -> B) (c : cid)
    (s : CameraService) : option B :=
  get_field <$> heap s !! c.

End Service.

(** ** Lookups for hardware callbacks *)

Section Callbacks.

Definition getClientByIdUnsafe (cameraId : Z) : M (option cid) :=
  s <- get ;;
  if (cameraId <? 0) || (cameraId >=? mNumberOfCameras s) then ret None
  else ret (mClient s cameraId).

(** [getClientLockById]: the index of the entry of [mClientLock] whose
    address is returned, [None] for the null pointer. *)
Definition getClientLockById (cameraId : Z) : M (option Z) :=
  s <- get ;;
  if (cameraId <? 0) || (cameraId >=? mNumberOfCameras s) then ret None
  else ret (Some cameraId).

(** [Client::getClientLockFromCookie], with [gCameraService] pointing at
    the service. *)
Definition getClientLockFromCookie (user : Z) : M (option Z) :=
  getClientLockById user.

(** [Client::getClientFromCookie], with [gCameraService] pointing at the
    service. *)
Definition getClientFromCookie (user : Z) : M (option cid) :=
  client <- getClientByIdUnsafe user ;;
  match client with
  | None => ret None
  | Some c =>
      with_obj c None (fun o =>
        if mDestructionStarted o then ret None else ret (Some c))
  end.

End Callbacks.

(** ** The diagnostic dump *)

(** [NO_ERROR] and [OK] are the same code. *)
Definition NO_ERROR : status_t := OK.

Definition kDumpLockRetries : nat := 50.
Definition kDumpLockSleep : Z := 60000.

(** The line feed that ends the lines of the report. *)
Definition LF : string := String (Ascii.ascii_of_nat 10) EmptyString.

(** An argument of a format string. *)
Inductive fmt_arg :=
| ArgInt (n : Z)
| ArgStr (t : string).

(** A [String8] as the report builds it: the text appended and the format
    strings applied, in order. *)
Inductive piece :=
| Text (t : string)
| Format (fmt : string) (args : list fmt_arg).

Definition String8 := list piece.

(** What [dump] does that can be seen from outside. *)
Inductive DumpEvent :=
| DWrite (text : String8)
| DUsleep (us : Z)
| DUnlock
| DMetadata (cameraId : Z)
| DClientDump (c : cid)
| DSetLogLevel (level : Z).

(** What [dump] reads from outside the service: the answer of
    [checkCallingPermission] for [android.permission.DUMP], the outcome of
    each successive [mServiceLock.tryLock()], the members of
    [mModule->common] the report prints, and libc's [atoi]. *)
Record DumpEnv := {
  has_DUMP_permission : bool;
  mutex_tryLock : nat -> status_t;
  hal_api_version : Z;
  module_name : string;
  module_author : string;
  atoi : string -> Z
}.

(** [CAMERA_FACING_BACK] of [system/camera.h]. *)
Class FacingConstants := {
  CAMERA_FACING_BACK : Z
}.

(** The loop of [tryLock], [n] attempts left, [i] made so far: whether the
    lock was taken, and the sleeps in between. *)
Fixpoint tryLock_loop (n i : nat) (attempt : nat -> status_t) : bool * list DumpEvent :=
  match n with
  | O => (false, [])
  | S k =>
      if is_OK (attempt i) then (true, [])
      else
        let r := tryLock_loop k (S i) attempt in
        (fst r, DUsleep kDumpLockSleep :: snd r)
  end.

Definition tryLock (attempt : nat -> status_t) : bool * list DumpEvent :=
  tryLock_loop kDumpLockRetries 0 attempt.

(** The loop at the end of [dump] that changes the logging level. *)
Fixpoint dump_log_level (d : DumpEnv) (args : list string) (gLogLevel : Z)
  : list DumpEvent * Z :=
  match args with
  | a :: ((b :: _) as rest) =>
      if String.eqb a "-v" then
        let level := atoi d b in
        let r := dump_log_level d rest level in
        (DSetLogLevel level
           :: DWrite [Format (LF ++ "Setting log level to %d." ++ LF)
                        [ArgInt level]]
           :: fst r,
         snd r)
      else dump_log_level d rest gLogLevel
  | _ => ([], gLogLevel)
  end.

Section Dump.

Context {K : Constants} {F : FacingConstants}.

(** One round of the loop over the cameras: what is written for camera
    [i], and whether it has a client. *)
Definition dump_camera (module : camera_module) (s : CameraService) (i : Z)
  : list DumpEvent * bool :=
  let title := Format ("Camera %d static information:" ++ LF) [ArgInt i] in
  let rc_info := get_camera_info module i in
  let info := snd rc_info in
  let static_info :=
    if negb (is_OK (fst rc_info)) then
      [DWrite [title; Format ("  Error reading static information!" ++ LF) []]]
    else
      let deviceVersion :=
        if module_api_version module <? CAMERA_MODULE_API_VERSION_2_0
        then CAMERA_DEVICE_API_VERSION_1_0
        else device_version info in
      let text :=
        [title;
         Format ("  Facing: %s" ++ LF)
           [ArgStr (if facing info =? CAMERA_FACING_BACK then "BACK" else "FRONT")];
         Format ("  Orientation: %d" ++ LF) [ArgInt (orientation info)];
         Format ("  Device version: 0x%x" ++ LF) [ArgInt deviceVersion]] in
      if deviceVersion >=? CAMERA_DEVICE_API_VERSION_2_0 then
        [DWrite (text ++ [Format ("  Device static metadata:" ++ LF) []]);
         DMetadata i]
      else [DWrite text] in
  let closed :=
    (static_info
       ++ [DWrite [Format ("  Device is closed, no client instance" ++ LF) []]],
     false) in
  match mClient s i with
  | Some c =>
      match promote s c with
      | Some _ =>
          (static_info
             ++ [DWrite [Format ("  Device is open. Client instance dump:" ++ LF) []];
                 DClientDump c],
           true)
      | None => closed
      end
  | None => closed
  end.

Fixpoint dump_cameras (module : camera_module) (s : CameraService) (n : nat)
    (i : Z) (hasClient : bool) : list DumpEvent * bool :=
  match n with
  | O => ([], hasClient)
  | S k =>
      let r := dump_camera module s i in
      let rest := dump_cameras module s k (i + 1) (hasClient || snd r) in
      (fst r ++ fst rest, snd rest)
  end.

(** [dump(fd, args)]: the status, what happens in order, and [gLogLevel]
    afterwards. *)
Definition dump (d : DumpEnv) (e : Env) (args : list string) (gLogLevel : Z)
    (s : CameraService) : status_t * list DumpEvent * Z :=
  if negb (has_DUMP_permission d) then
    (NO_ERROR,
     [DWrite [Format ("Permission Denial: can't dump CameraService from pid=%d, uid=%d" ++ LF)
                [ArgInt (getCallingPid e); ArgInt (getCallingUid e)]]],
     gLogLevel)
  else
    let lk := tryLock (mutex_tryLock d) in
    let locked := fst lk in
    let deadlocked :=
      if locked then []
      else [DWrite [Text ("CameraService may be deadlocked" ++ LF)]] in
    match mModule s with
    | None =>
        (NO_ERROR,
         snd lk ++ deadlocked
           ++ [DWrite [Format ("No camera module available!" ++ LF) []]],
         gLogLevel)
    | Some module =>
        let header :=
          DWrite
            [Format ("Camera module HAL API version: 0x%x" ++ LF)
               [ArgInt (hal_api_version d)];
             Format ("Camera module API version: 0x%x" ++ LF)
               [ArgInt (module_api_version module)];
             Format ("Camera module name: %s" ++ LF) [ArgStr (module_name d)];
             Format ("Camera module author: %s" ++ LF) [ArgStr (module_author d)];
             Format ("Number of camera devices: %d" ++ LF ++ LF)
               [ArgInt (mNumberOfCameras s)]] in
        let cams :=
          dump_cameras module s (Z.to_nat (mNumberOfCameras s)) 0 false in
        let no_clients :=
          if snd cams then []
          else [DWrite [Format (LF ++ "No active camera clients yet." ++ LF) []]] in
        let unlock := if locked then [DUnlock] else [] in
        let levels := dump_log_level d args gLogLevel in
        (NO_ERROR,
         snd lk ++ deadlocked ++ [header] ++ fst cams ++ no_clients ++ unlock
           ++ fst levels,
         snd levels)
    end.

End Dump.

(** ** What the searches amount to *)

(** A list of observers after the inner loop of [findProClientUnsafe] and
    the removal that follows it: the dead entries ahead of the first live
    observer with the remote [who] are gone, everything else stays. *)
Fixpoint prune_until_match (s : CameraService) (who : remote) (l : list cid)
  : list cid :=
  match l with
  | [] => []
  | cl :: rest =>
      match promote s cl with
      | Some o =>
          if Nat.eqb (mRemoteCallback o) who then cl :: rest
          else cl :: prune_until_match s who rest
      | None => prune_until_match s who rest
      end
  end.

(** Slot [i] holds a live exclusive client whose remote is [who]. *)
Definition owner_at (s : CameraService) (who : remote) (i : Z) : Prop :=
  exists c o,
    mClient s i = Some c /\ promote s c = Some o /\ getCameraClient o = who.

(** The list of camera [i] holds a live observer whose remote is [who]. *)
Definition observer_at (s : CameraService) (who : remote) (i : Z) : Prop :=
  exists p o,
    In p (mProClientList s i) /\ promote s p = Some o /\ mRemoteCallback o = who.

Definition in_range (s : CameraService) (i : Z) : Prop :=
  0 <= i < mNumberOfCameras s.

(** The class [connect] instantiates for a device version, if any. *)
Definition client_class {K : Constants} (deviceVersion : Z) : option ClientKind :=
  match switch_deviceVersion deviceVersion with
  | case_1_0 => Some CameraClient
  | case_2_0_2_1 => Some Camera2Client
  | case_minus_1 | case_default => None
  end.

(** The uid [connect] goes on with. *)
Definition resolved_uid {K : Constants} (e : Env) (clientUid : Z) : Z :=
  if clientUid =? USE_CALLING_UID then getCallingUid e else clientUid.

(** ** Well-formed registries *)

(** Class and camera id of an object: what the registry relies on. *)
Definition class_and_camera (o : BasicClient) : ClientKind * Z :=
  (kind o, mCameraId o).

(** Every registered owner is an exclusive client created for the slot it
    is registered in, every listed observer is an observer created for the
    camera whose list it is on, and every object was created for a camera
    that exists. *)
Definition registry_wf (s : CameraService) : Prop :=
  (forall i c, mClient s i = Some c ->
     in_range s i /\
     exists o, heap s !! c = Some o /\ is_exclusive (kind o) = true /\ mCameraId o = i) /\
  (forall i p, In p (mProClientList s i) ->
     in_range s i /\
     exists o, heap s !! p = Some o /\ is_exclusive (kind o) = false /\ mCameraId o = i) /\
  (forall c o, heap s !! c = Some o -> in_range s (mCameraId o)).

(** What [registry_wf] reads of a state. *)
Definition wf_view (s : CameraService) :=
  (mNumberOfCameras s, mClient s, mProClientList s, class_and_camera <$> heap s).

(** [m] keeps the property [P] of states. *)
Definition preserves {A} (P : CameraService -> Prop) (m : M A) : Prop :=
  forall s, P s -> P (state (m s)).

(** The line [dump] writes when no camera has a client. *)
Definition no_clients_notice : DumpEvent :=
  DWrite [Format (LF ++ "No active camera clients yet." ++ LF) []].

(** Camera [i] exists and its slot holds the live client [c]. *)
Definition live_owner (s : CameraService) (i : Z) (c : cid) : Prop :=
  in_range s i /\ mClient s i = Some c /\ promote s c <> None.

(** The sound file of each kind. *)
Definition sound_file (k : sound_kind) : string :=
  match k with
  | SOUND_SHUTTER => "/system/media/audio/ui/camera_click.ogg"
  | SOUND_RECORDING => "/system/media/audio/ui/VideoRecord.ogg"
  end.



(** ** Concrete inputs *)

Module Example.

(** One assignment of the constants, for running the model. *)
Definition constants : Constants :=
  {| MAX_CAMERAS := 2;
     USE_CALLING_UID := -1;
     CAMERA_DEVICE_API_VERSION_1_0 := 256;
     CAMERA_DEVICE_API_VERSION_2_0 := 512;
     CAMERA_DEVICE_API_VERSION_2_1 := 513;
     CAMERA_MODULE_API_VERSION_2_0 := 512;
     OP_CAMERA := 26 |}.

(** A HAL module that reports [n] cameras, all of device version [v]. *)
Definition hal (n v : Z) : camera_module :=
  {| module_api_version := 512;
     get_number_of_cameras := n;
     get_camera_info := fun _ =>
       (OK, {| facing := 0; orientation := 90; device_version := v |}) |}.

(** A call from process [p] with uid [u], while the policy property reads
    [prop] and app-ops answers [check]; the service runs as pid 100. *)
Definition env (p u : Z) (prop : string) (check : op_mode) : Env :=
  {| getCallingPid := p;
     getCallingUid := u;
     getpid := 100;
     camera_disabled_property := prop;
     initialize_result := OK;
     startOp_result := MODE_ALLOWED;
     checkOp_result := check;
     setDataSource := fun _ => OK |}.

(** The service after start-up. *)
Definition boot (hw_get_module : option camera_module) : CameraService :=
  start (K := constants) hw_get_module 7 (fun _ => 1).

(** Remote 5 connects to camera 0 from process 41. *)
Definition connect_5 : Action :=
  AConnect (env 41 1000 "0" MODE_ALLOWED) 5%nat 0 "pkg.a" (-1).

(** The client object that request creates. *)
Definition owner : BasicClient :=
  BasicClient_ctor CameraClient 5%nat "pkg.a" 0 0 41 1000 100.

(** One camera of device version 1.0, owned by remote 5. *)
Definition owned : CameraService :=
  state (run (K := constants) connect_5 (boot (Some (hal 1 256)))).


(** The last strong reference to the owner is gone, its destructor has not
    run yet. *)
Definition dying : CameraService :=
  state (run (K := constants) (ADropLastRef 0%nat) owned).

(** One camera of device version 2.0, and an observer with remote 9. *)
Definition observed : CameraService :=
  state (run (K := constants)
           (AConnectPro (env 41 1000 "0" MODE_ALLOWED) 9%nat 0)
           (boot (Some (hal 1 512)))).

End Example.

(** ** Further concrete inputs *)

Module Scenario.

Import Example.

(** A module of API version 1.0 whose only camera claims device version
    2.0. *)
Definition legacy_hal : camera_module :=
  {| module_api_version := 256;
     get_number_of_cameras := 1;
     get_camera_info := fun _ =>
       (OK, {| facing := 0; orientation := 90; device_version := 512 |}) |}.

(** The observer object of [observed]. *)
Definition observer : BasicClient :=
  BasicClient_ctor ProCamera2Client 9%nat EmptyString 0 0 41 (-1) 100.

(** Remote 6 asks for camera 0 from process 42. *)
Definition env_6 : Env := env 42 1001 "0" MODE_ALLOWED.

Definition facing_constants : FacingConstants :=
  {| CAMERA_FACING_BACK := 0 |}.

(** A caller that holds the DUMP permission, while the service lock is
    free at the third attempt only. *)
Definition dump_env : DumpEnv :=
  {| has_DUMP_permission := true;
     mutex_tryLock := fun i => if (i <? 2)%nat then FAILED (-16) else OK;
     hal_api_version := 0;
     module_name := "camera";
     module_author := "vendor";
     atoi := fun t => if String.eqb t "2" then 2 else 0 |}.



End Scenario.

(** * Properties *)

Section Properties.

Context {K : Constants}.

(** ** Reasoning about computations *)

Lemma state_bind {A B} (m : M A) (k : A -> M B) s :
  state (bind m k s) = state (k (result (m s)) (state (m s))).
Proof.
  unfold bind. destruct (m s) as [[a s1] t1]. cbn.
  destruct (k a s1) as [[b s2] t2]. reflexivity.
Qed.

Lemma result_bind {A B} (m : M A) (k : A -> M B) s :
  result (bind m k s) = result (k (result (m s)) (state (m s))).
Proof.
  unfold bind. destruct (m s) as [[a s1] t1]. cbn.
  destruct (k a s1) as [[b s2] t2]. reflexivity.
Qed.

Lemma trace_bind {A B} (m : M A) (k : A -> M B) s :
  trace (bind m k s) = trace (m s) ++ trace (k (result (m s)) (state (m s))).
Proof.
  unfold bind. destruct (m s) as [[a s1] t1]. cbn.
  destruct (k a s1) as [[b s2] t2]. reflexivity.
Qed.

Lemma bind_ret {A B} (a : A) (k : A -> M B) s : bind (ret a) k s = k a s.
Proof. unfold bind, ret. destruct (k a s) as [[b s2] t2]. reflexivity. Qed.

Lemma bind_get {B} (k : CameraService -> M B) s : bind get k s = k s s.
Proof. unfold bind, get. destruct (k s s) as [[b s2] t2]. reflexivity. Qed.

Lemma bind_modify {B} f (k : unit -> M B) s : bind (modify f) k s = k tt (f s).
Proof. unfold bind, modify. destruct (k tt (f s)) as [[b s2] t2]. reflexivity. Qed.

Lemma bind_emit {B} ev (k : unit -> M B) s :
  bind (emit ev) k s = (result (k tt s), state (k tt s), ev :: trace (k tt s)).
Proof. unfold bind, emit. destruct (k tt s) as [[b s2] t2]. reflexivity. Qed.

Lemma run_eta {A} (r : A * CameraService * list Event) :
  r = (result r, state r, trace r).
Proof. destruct r as [[a s] t]. reflexivity. Qed.

Section Keeps.

Context {B : Type} (f : CameraService -> B).

Lemma keeps_ret {A} (a : A) : keeps f (ret a).
Proof. intros s. reflexivity. Qed.

Lemma keeps_get : keeps f get.
Proof. intros s. reflexivity. Qed.

Lemma keeps_emit ev : keeps f (emit ev).
Proof. intros s. reflexivity. Qed.

Lemma keeps_modify g : (forall s, f (g s) = f s) -> keeps f (modify g).
Proof. intros H s. apply H. Qed.

Lemma keeps_bind {A C} (m : M A) (k : A -> M C) :
  keeps f m -> (forall a, keeps f (k a)) -> keeps f (bind m k).
Proof.
  intros Hm Hk s. rewrite state_bind, Hk. apply Hm.
Qed.

Lemma keeps_with_obj {A} c (d : A) k :
  (forall o, keeps f (k o)) -> keeps f (with_obj c d k).
Proof.
  intros Hk. unfold with_obj. apply keeps_bind; [apply keeps_get|].
  intros s. destruct (heap s !! c); [apply Hk | apply keeps_ret].
Qed.

Lemma keeps_for_each_index n i body :
  (forall j, keeps f (body j)) -> keeps f (for_each_index n i body).
Proof.
  intros Hb. revert i.
  induction n as [|n IH]; intros i; simpl; [apply keeps_ret|].
  apply keeps_bind; [apply Hb | intros _; apply IH].
Qed.

End Keeps.

(** The loops, for an observation that does not read what they write. *)
Lemma keeps_findClientUnsafe_loop {B} (f : CameraService -> B) n i r :
  (forall j w s, f (set_mClient j w s) = f s) ->
  keeps f (findClientUnsafe_loop n i r).
Proof.
  intros Hf. revert i.
  induction n as [|n IH]; intros i; simpl; [apply keeps_ret|].
  apply keeps_bind; [apply keeps_get|]. intros s.
  destruct (mClient s i) as [c|]; [|apply IH].
  destruct (promote s c) as [o|].
  - destruct (Nat.eqb r (getCameraClient o)); [apply keeps_ret | apply IH].
  - apply keeps_bind; [apply keeps_modify; intros; apply Hf | intros _; apply IH].
Qed.

Lemma keeps_findProClientUnsafe_loop {B} (f : CameraService -> B) n i r p :
  (forall j l s, f (set_mProClientList j l s) = f s) ->
  keeps f (findProClientUnsafe_loop n i r p).
Proof.
  intros Hf. revert i p.
  induction n as [|n IH]; intros i p; simpl; [apply keeps_ret|].
  apply keeps_bind; [apply keeps_get|]. intros s.
  apply keeps_bind; [apply keeps_modify; intros; apply Hf | intros _; apply IH].
Qed.

Lemma keeps_releaseSound_players {B} (f : CameraService -> B) ks :
  (forall k p s, f (set_mSoundPlayer k p s) = f s) ->
  keeps f (releaseSound_players ks).
Proof.
  intros Hf.
  induction ks as [|k ks IH]; simpl; [apply keeps_ret|].
  apply keeps_bind; [apply keeps_get|]. intros s.
  apply keeps_bind; [|intros _; apply IH].
  destruct (mSoundPlayer s k).
  - apply keeps_bind; [apply keeps_emit | intros _].
    apply keeps_modify; intros; apply Hf.
  - apply keeps_ret.
Qed.

(** Breaks a goal [keeps f m] down along the structure of [m]; leaves are
    closed by computation or from the hint database [cam]. *)
Create HintDb cam discriminated.
Create HintDb cam_unfold discriminated.

#[local] Hint Unfold setCameraBusy setCameraFree getNumberOfCameras getCameraInfo
  loadSound releaseSound playSound findClientUnsafe findProClientUnsafe
  removeClientByRemote getClientByRemote allocate Client_ctor ProClient_ctor
  BasicClient_disconnect Client_disconnect ProClient_disconnect disconnect
  Client_notifyError ProClient_notifyError notifyError startCameraOps
  finishCameraOps BasicClient_opChanged OpsCallback_opChanged Client_dtor
  ProClient_dtor BasicClient_dtor destroy connect_initialize connect_unowned
  connect connectPro binderDied : cam_unfold.

Ltac keeps_step :=
  cbv beta zeta;
  lazymatch goal with
  | |- keeps _ (ret _) => apply keeps_ret
  | |- keeps _ get => apply keeps_get
  | |- keeps _ (emit _) => apply keeps_emit
  | |- keeps _ (modify _) =>
      first [ apply keeps_modify; intros; reflexivity | solve [auto with cam] ]
  | |- keeps _ (bind _ _) => apply keeps_bind; [ | intros ]
  | |- keeps _ (with_obj _ _ _) => apply keeps_with_obj; intros
  | |- keeps _ (update_obj _ _) =>
      first [ apply keeps_modify; intros; reflexivity | solve [auto with cam] ]
  | |- keeps _ (for_each_index _ _ _) => apply keeps_for_each_index; intros
  | |- keeps _ (findClientUnsafe_loop _ _ _) =>
      apply keeps_findClientUnsafe_loop; intros; reflexivity
  | |- keeps _ (findProClientUnsafe_loop _ _ _ _) =>
      apply keeps_findProClientUnsafe_loop; intros; reflexivity
  | |- keeps _ (releaseSound_players _) =>
      apply keeps_releaseSound_players; intros; reflexivity
  | |- keeps _ (if ?b then _ else _) => destruct b
  | |- keeps _ (match ?x with _ => _ end) => destruct x
  | |- keeps _ _ =>
      first [ solve [auto with cam] | progress autounfold with cam_unfold ]
  end.

Ltac keeps_tac := repeat keeps_step.

Section Emits.

Context (p : Event -> bool).

Lemma emits_ret {A} (a : A) : emits_only p (ret a).
Proof. intros s. reflexivity. Qed.

Lemma emits_get : emits_only p get.
Proof. intros s. reflexivity. Qed.

Lemma emits_modify g : emits_only p (modify g).
Proof. intros s. reflexivity. Qed.

Lemma emits_emit ev : p ev = true -> emits_only p (emit ev).
Proof. intros H s. cbn. rewrite H. reflexivity. Qed.

Lemma emits_bind {A C} (m : M A) (k : A -> M C) :
  emits_only p m -> (forall a, emits_only p (k a)) -> emits_only p (bind m k).
Proof.
  intros Hm Hk s. rewrite trace_bind, forallb_app, Hm, Hk. reflexivity.
Qed.

Lemma emits_with_obj {A} c (d : A) k :
  (forall o, emits_only p (k o)) -> emits_only p (with_obj c d k).
Proof.
  intros Hk. unfold with_obj. apply emits_bind; [apply emits_get|].
  intros s. destruct (heap s !! c); [apply Hk | apply emits_ret].
Qed.

Lemma emits_for_each_index n i body :
  (forall j, emits_only p (body j)) -> emits_only p (for_each_index n i body).
Proof.
  intros Hb. revert i.
  induction n as [|n IH]; intros i; simpl; [apply emits_ret|].
  apply emits_bind; [apply Hb | intros _; apply IH].
Qed.

Lemma emits_findClientUnsafe_loop n i r :
  emits_only p (findClientUnsafe_loop n i r).
Proof.
  revert i.
  induction n as [|n IH]; intros i; simpl; [apply emits_ret|].
  apply emits_bind; [apply emits_get|]. intros s.
  destruct (mClient s i) as [c|]; [|apply IH].
  destruct (promote s c) as [o|].
  - destruct (Nat.eqb r (getCameraClient o)); [apply emits_ret | apply IH].
  - apply emits_bind; [apply emits_modify | intros _; apply IH].
Qed.

Lemma emits_findProClientUnsafe_loop n i r q :
  emits_only p (findProClientUnsafe_loop n i r q).
Proof.
  revert i q.
  induction n as [|n IH]; intros i q; simpl; [apply emits_ret|].
  apply emits_bind; [apply emits_get|]. intros s.
  apply emits_bind; [apply emits_modify | intros _; apply IH].
Qed.

Lemma emits_releaseSound_players ks :
  (forall k, p (EvPlayerDisconnect k) = true) ->
  emits_only p (releaseSound_players ks).
Proof.
  intros Hp.
  induction ks as [|k ks IH]; simpl; [apply emits_ret|].
  apply emits_bind; [apply emits_get|]. intros s.
  apply emits_bind; [|intros _; apply IH].
  destruct (mSoundPlayer s k).
  - apply emits_bind; [apply emits_emit, Hp | intros _; apply emits_modify].
  - apply emits_ret.
Qed.

End Emits.

Ltac emits_step :=
  cbv beta zeta;
  lazymatch goal with
  | |- emits_only _ (ret _) => apply emits_ret
  | |- emits_only _ get => apply emits_get
  | |- emits_only _ (emit _) => apply emits_emit; reflexivity
  | |- emits_only _ (modify _) => apply emits_modify
  | |- emits_only _ (update_obj _ _) => apply emits_modify
  | |- emits_only _ (bind _ _) => apply emits_bind; [ | intros ]
  | |- emits_only _ (with_obj _ _ _) => apply emits_with_obj; intros
  | |- emits_only _ (for_each_index _ _ _) => apply emits_for_each_index; intros
  | |- emits_only _ (findClientUnsafe_loop _ _ _) =>
      apply emits_findClientUnsafe_loop
  | |- emits_only _ (findProClientUnsafe_loop _ _ _ _) =>
      apply emits_findProClientUnsafe_loop
  | |- emits_only _ (releaseSound_players _) =>
      apply emits_releaseSound_players; intros; reflexivity
  | |- emits_only _ (if ?b then _ else _) => destruct b
  | |- emits_only _ (match ?x with _ => _ end) => destruct x
  | |- emits_only _ _ =>
      first [ solve [auto with cam] | progress autounfold with cam_unfold ]
  end.

Ltac emits_tac := repeat emits_step.

Lemma filter_silent (p : Event -> bool) (l : list Event) :
  forallb (fun ev => negb (p ev)) l = true -> List.filter p l = [].
Proof.
  induction l as [|ev l IH]; [reflexivity|]. cbn.
  intros H. apply andb_true_iff in H. destruct H as [H1 H2].
  apply negb_true_iff in H1. rewrite H1. apply IH, H2.
Qed.

Lemma with_obj_at {A} c (d : A) k s o :
  heap s !! c = Some o -> with_obj c d k s = k o s.
Proof. intros H. unfold with_obj. rewrite bind_get, H. reflexivity. Qed.

(** ** Frames *)

Lemma field_at_alter {B} (pr : BasicClient -> B) c c' g (h : list BasicClient) :
  (forall o, pr (g o) = pr o) ->
  pr <$> alter g c' h !! c = pr <$> h !! c.
Proof.
  intros Hg. destruct (decide (c' = c)) as [->|Hne].
  - rewrite list_lookup_alter_eq. destruct (h !! c) as [o|]; cbn; [|reflexivity].
    rewrite Hg. reflexivity.
  - rewrite list_lookup_alter_ne by exact Hne. reflexivity.
Qed.

Lemma keeps_field_update_obj {B} (pr : BasicClient -> B) c c' g :
  (forall o, pr (g o) = pr o) ->
  keeps (field_at pr c) (update_obj c' g).
Proof.
  intros Hg s. unfold field_at, update_obj, modify, state. cbn.
  apply field_at_alter, Hg.
Qed.

#[local] Hint Resolve keeps_field_update_obj : cam.

Lemma identity_lookup c s o :
  field_at identity_of c s = Some (identity_of o) ->
  exists o', heap s !! c = Some o' /\ identity_of o' = identity_of o.
Proof.
  unfold field_at. destruct (heap s !! c) as [o'|]; cbn; [|discriminate].
  intros H. exists o'. split; [reflexivity | congruence].
Qed.

Lemma run_keeps_hal_view a : keeps hal_view (run a).
Proof. destruct a; unfold run; keeps_tac. Qed.

Lemma removeClientByRemote_frame r :
  keeps outside_registry (removeClientByRemote r).
Proof. keeps_tac. Qed.

(** ** Guards of [connect] *)

Lemma out_of_range_test (cameraId n : Z) :
  (cameraId < 0 \/ n <= cameraId) ->
  (cameraId <? 0) || (cameraId >=? n) = true.
Proof.
  intros H. rewrite Z.geb_leb. apply orb_true_iff.
  destruct H; [left; apply Z.ltb_lt | right; apply Z.leb_le]; lia.
Qed.

Lemma in_range_test (cameraId n : Z) :
  0 <= cameraId < n ->
  (cameraId <? 0) || (cameraId >=? n) = false.
Proof.
  intros H. rewrite Z.geb_leb. apply orb_false_iff.
  split; [apply Z.ltb_ge | apply Z.leb_gt]; lia.
Qed.

Lemma trusted_test (e : Env) (clientUid : Z) :
  clientUid = USE_CALLING_UID \/ getCallingPid e = getpid e ->
  negb (clientUid =? USE_CALLING_UID) && negb (getCallingPid e =? getpid e) = false.
Proof.
  intros [H|H]; rewrite H, Z.eqb_refl; simpl; [reflexivity|].
  apply andb_false_r.
Qed.

Lemma enabled_property_test (e : Env) :
  camera_disabled_property e <> "1"%string ->
  String.eqb (camera_disabled_property e) "1" = false.
Proof. intros H. apply String.eqb_neq. exact H. Qed.

(** Past its guards, [connect] is the ownership test on the slot. *)
Lemma connect_past_guards e s cameraClient cameraId pkg clientUid module :
  clientUid = USE_CALLING_UID \/ getCallingPid e = getpid e ->
  mModule s = Some module ->
  0 <= cameraId < mNumberOfCameras s ->
  camera_disabled_property e <> "1"%string ->
  connect e cameraClient cameraId pkg clientUid s =
  (let uid := if clientUid =? USE_CALLING_UID then getCallingUid e else clientUid in
   match mClient s cameraId with
   | Some w =>
       match promote s w with
       | Some o =>
           if Nat.eqb cameraClient (getCameraClient o)
           then ret (Some w)
           else ret None
       | None =>
           modify (set_mClient cameraId None) ;;;
           connect_unowned e module cameraClient cameraId pkg (getCallingPid e) uid
       end
   | None =>
       connect_unowned e module cameraClient cameraId pkg (getCallingPid e) uid
   end) s.
Proof.
  intros Ht Hm Hr Hp. unfold connect.
  rewrite (trusted_test _ _ Ht).
  rewrite bind_get, Hm.
  rewrite (in_range_test _ _ Hr), (enabled_property_test _ Hp).
  reflexivity.
Qed.

Lemma connect_unowned_busy e module cameraClient cameraId pkg callingPid uid s :
  mBusy s cameraId <> 0 ->
  connect_unowned e module cameraClient cameraId pkg callingPid uid s = (None, s, []).
Proof.
  intros Hb. unfold connect_unowned. rewrite bind_get.
  apply Z.eqb_neq in Hb. rewrite Hb. reflexivity.
Qed.

(** ** Claims about the guards and the ownership test *)

(** C1 (as amended).  A connect request on a slot that has a live
    exclusive client never changes the service and makes no call out: no
    client is constructed, the sound reference count and the owner stay as
    they are.  If the requesting remote differs from the owner's, the
    result is null.  If it is the owner's remote and the request passes the
    guards ahead of the ownership test (caller-uid check, module loaded, id
    in range, policy property not set), the result is the existing
    handle. *)
Theorem connect_owned_slot e s cameraClient cameraId pkg clientUid w o :
  mClient s cameraId = Some w ->
  promote s w = Some o ->
  state (connect e cameraClient cameraId pkg clientUid s) = s /\
  trace (connect e cameraClient cameraId pkg clientUid s) = [] /\
  (cameraClient <> getCameraClient o ->
   result (connect e cameraClient cameraId pkg clientUid s) = None) /\
  (cameraClient = getCameraClient o ->
   clientUid = USE_CALLING_UID \/ getCallingPid e = getpid e ->
   mModule s <> None ->
   0 <= cameraId < mNumberOfCameras s ->
   camera_disabled_property e <> "1"%string ->
   result (connect e cameraClient cameraId pkg clientUid s) = Some w).
Proof.
  intros Hw Ho. unfold connect.
  destruct (negb _ && negb _) eqn:Ht.
  { repeat split. intros _ H _ _ _.
    rewrite (trusted_test _ _ H) in Ht. discriminate. }
  rewrite bind_get. destruct (mModule s) as [module|] eqn:Hm.
  2: { repeat split. intros _ _ H _ _. contradiction. }
  destruct ((cameraId <? 0) || _) eqn:Hr.
  { repeat split. intros _ _ _ H _.
    rewrite (in_range_test _ _ H) in Hr. discriminate. }
  destruct (String.eqb _ _) eqn:Hp.
  { repeat split. intros _ _ _ _ H.
    rewrite (enabled_property_test _ H) in Hp. discriminate. }
  rewrite Hw, Ho.
  destruct (Nat.eqb_spec cameraClient (getCameraClient o)) as [Heq|Hne];
    repeat split; intros; congruence.
Qed.

(** C4 (as amended).  For every device id outside [0, numberOfCameras),
    [connect] returns null, and [getCameraInfo] returns [BAD_VALUE] when the
    HAL module is loaded and [NO_INIT] when it is not; neither call changes
    the service or makes a call out. *)
Theorem out_of_range_rejected e s cameraClient cameraId pkg clientUid :
  cameraId < 0 \/ mNumberOfCameras s <= cameraId ->
  connect e cameraClient cameraId pkg clientUid s = (None, s, []) /\
  getCameraInfo cameraId s =
    ((match mModule s with Some _ => BAD_VALUE | None => NO_INIT end, None), s, []).
Proof.
  intros Hr. split.
  - unfold connect. destruct (negb _ && negb _); [reflexivity|].
    rewrite bind_get. destruct (mModule s); [|reflexivity].
    rewrite (out_of_range_test _ _ Hr). reflexivity.
  - unfold getCameraInfo. rewrite bind_get.
    destruct (mModule s); [|reflexivity].
    rewrite (out_of_range_test _ _ Hr). reflexivity.
Qed.

(** C9.  When the busy flag of a slot is set and its weak client handle
    does not promote to a live client, [connect] returns null: no client is
    constructed, no call goes out, and the busy flag, the sound reference
    count and everything else outside the table of weak handles stay as they
    were (the slot is not cleaned up for a retry). *)
Theorem connect_busy_race e s cameraClient cameraId pkg clientUid :
  mBusy s cameraId <> 0 ->
  (forall w, mClient s cameraId = Some w -> promote s w = None) ->
  result (connect e cameraClient cameraId pkg clientUid s) = None /\
  trace (connect e cameraClient cameraId pkg clientUid s) = [] /\
  heap (state (connect e cameraClient cameraId pkg clientUid s)) = heap s /\
  mBusy (state (connect e cameraClient cameraId pkg clientUid s)) = mBusy s /\
  mSoundRef (state (connect e cameraClient cameraId pkg clientUid s)) = mSoundRef s.
Proof.
  intros Hb Hw. unfold connect.
  destruct (negb _ && negb _); [repeat split|].
  rewrite bind_get. destruct (mModule s); [|repeat split].
  destruct ((cameraId <? 0) || _); [repeat split|].
  destruct (String.eqb _ _); [repeat split|].
  destruct (mClient s cameraId) as [w|] eqn:E.
  - rewrite (Hw w eq_refl), bind_modify.
    rewrite connect_unowned_busy by exact Hb. repeat split.
  - rewrite connect_unowned_busy by exact Hb. repeat split.
Qed.

(** ** The number of cameras *)

Lemma onFirstRef_count hw s :
  mNumberOfCameras (state (onFirstRef hw s)) =
  match hw with
  | None => 0
  | Some module =>
      if get_number_of_cameras module >? MAX_CAMERAS then MAX_CAMERAS
      else get_number_of_cameras module
  end.
Proof.
  destruct hw as [module|]; [|reflexivity].
  unfold onFirstRef. rewrite !bind_modify, bind_get. cbn [mNumberOfCameras set_mNumberOfCameras].
  assert (Hk : forall n, keeps mNumberOfCameras (for_each_index n 0 setCameraFree))
    by (intros; keeps_tac).
  destruct (get_number_of_cameras module >? MAX_CAMERAS).
  - rewrite bind_modify, bind_get, Hk. reflexivity.
  - rewrite bind_ret, bind_get, Hk. reflexivity.
Qed.

Lemma reachable_from_hal_view s0 s :
  reachable_from s0 s -> hal_view s = hal_view s0.
Proof.
  induction 1 as [|s a _ IH _]; [reflexivity|].
  rewrite run_keeps_hal_view. exact IH.
Qed.

(** C10 (as amended).  In every state the service reaches after start-up,
    [getNumberOfCameras] returns the count fixed by [onFirstRef]: 0 when the
    HAL module failed to load, [MAX_CAMERAS] when the HAL reported more than
    that, the HAL's count otherwise.  The value is at most [MAX_CAMERAS],
    and it is not negative whenever the count the HAL reported is not
    negative; the call itself changes nothing. *)
Theorem getNumberOfCameras_range hw n b s :
  0 <= MAX_CAMERAS ->
  reachable_from (start hw n b) s ->
  getNumberOfCameras s =
    (match hw with
     | None => 0
     | Some module =>
         if get_number_of_cameras module >? MAX_CAMERAS then MAX_CAMERAS
         else get_number_of_cameras module
     end, s, []) /\
  result (getNumberOfCameras s) <= MAX_CAMERAS /\
  (match hw with
   | None => True
   | Some module => 0 <= get_number_of_cameras module
   end -> 0 <= result (getNumberOfCameras s)).
Proof.
  intros Hmax Hreach.
  assert (Hn : mNumberOfCameras s = mNumberOfCameras (start hw n b)).
  { apply reachable_from_hal_view in Hreach.
    unfold hal_view in Hreach. congruence. }
  unfold start in Hn. rewrite onFirstRef_count in Hn.
  unfold getNumberOfCameras. rewrite bind_get. unfold ret, result. cbn [fst].
  rewrite Hn. split; [reflexivity|].
  destruct hw as [module|].
  - destruct (Z.gtb_spec (get_number_of_cameras module) MAX_CAMERAS); split; intros; lia.
  - split; intros; lia.
Qed.

(** ** Traces of teardown *)

Lemma emits_forallb {A} (p : Event -> bool) (m : M A) s :
  emits_only p m -> forallb p (trace (m s)) = true.
Proof. intros H. apply H. Qed.

Lemma forallb_weaken (p q : Event -> bool) (l : list Event) :
  (forall ev, p ev = true -> q ev = true) ->
  forallb p l = true -> forallb q l = true.
Proof.
  intros Hpq. induction l as [|ev l IH]; [reflexivity|]. cbn.
  intros H. apply andb_true_iff in H. destruct H as [H1 H2].
  rewrite (Hpq _ H1), (IH H2). reflexivity.
Qed.

Lemma removeClientByRemote_trace r s :
  exists tr,
    trace (removeClientByRemote r s) = EvRemoveClientByRemote r :: tr /\
    forallb is_EvUnlinkToDeath tr = true.
Proof.
  unfold removeClientByRemote. rewrite bind_emit.
  eexists. split; [reflexivity|].
  apply emits_forallb. emits_tac.
Qed.

Lemma Client_disconnect_trace c s o :
  heap s !! c = Some o ->
  trace (Client_disconnect c s) =
    EvClientDisconnect c (mCameraId o)
      :: trace (removeClientByRemote (mRemoteCallback o) s)
      ++ [EvSetCameraFree (mCameraId o)].
Proof.
  intros Ho. unfold Client_disconnect.
  rewrite trace_bind, (with_obj_at _ _ _ _ _ Ho). cbn [trace emit snd app].
  change (state (emit (EvClientDisconnect c (mCameraId o)) s)) with s.
  rewrite trace_bind. unfold BasicClient_disconnect.
  rewrite (with_obj_at _ _ _ _ _ Ho). f_equal. f_equal.
  assert (Hk : keeps heap (removeClientByRemote (mRemoteCallback o)))
    by keeps_tac.
  rewrite with_obj_at with (o := o) by (rewrite Hk; exact Ho).
  unfold setCameraFree. rewrite bind_modify. reflexivity.
Qed.

Lemma releaseSound_field {B} (pr : BasicClient -> B) c :
  keeps (field_at pr c) releaseSound.
Proof. keeps_tac. Qed.

Lemma finishCameraOps_field {B} (pr : BasicClient -> B) c c' :
  (forall b o, pr (set_mOpsActive b o) = pr o) ->
  (forall b o, pr (set_mOpsCallback b o) = pr o) ->
  keeps (field_at pr c) (finishCameraOps c').
Proof. intros H1 H2. keeps_tac. Qed.

Lemma Client_disconnect_heap c : keeps heap (Client_disconnect c).
Proof. keeps_tac. Qed.

(** ** Revocation *)

Lemma promote_lookup s c o : promote s c = Some o -> heap s !! c = Some o.
Proof.
  unfold promote. destruct (heap s !! c) as [o'|]; [|discriminate].
  destruct (refs o'); congruence.
Qed.

Lemma notifyError_exclusive c s o :
  heap s !! c = Some o ->
  is_exclusive (kind o) = true ->
  notifyError c s = (tt, s, [EvNotifyError (getCameraClient o)]).
Proof.
  intros Ho Hk. unfold notifyError. rewrite (with_obj_at _ _ _ _ _ Ho), Hk.
  unfold Client_notifyError. rewrite (with_obj_at _ _ _ _ _ Ho). reflexivity.
Qed.

Lemma disconnect_exclusive c s o :
  heap s !! c = Some o ->
  is_exclusive (kind o) = true ->
  disconnect c s = Client_disconnect c s.
Proof.
  intros Ho Hk. unfold disconnect. rewrite (with_obj_at _ _ _ _ _ Ho), Hk.
  reflexivity.
Qed.

(** C7.  When the policy watch reports, for a live exclusive client, that
    the camera op is no longer allowed, the client first re-stamps
    [mClientPid] with the pid of the calling process, then sends the error
    notification to its remote, and only then disconnects: nothing of the
    teardown precedes the notification, no further notification follows, and
    the teardown ends with the slot marked free. *)
Theorem opChanged_revocation e c op packageName s o :
  promote s c = Some o ->
  is_exclusive (kind o) = true ->
  op = OP_CAMERA ->
  checkOp_result e <> MODE_ALLOWED ->
  exists teardown,
    trace (OpsCallback_opChanged e c op packageName s) =
      EvSetClientPid c (getCallingPid e)
        :: EvNotifyError (getCameraClient o)
        :: EvClientDisconnect c (mCameraId o)
        :: teardown /\
    forallb (fun ev => negb (is_revocation_notice ev)) teardown = true /\
    last teardown = Some (EvSetCameraFree (mCameraId o)) /\
    field_at mClientPid c (state (OpsCallback_opChanged e c op packageName s))
      = Some (getCallingPid e).
Proof.
  intros Hp Hk Hop Hres.
  pose proof (promote_lookup _ _ _ Hp) as Ho.
  unfold OpsCallback_opChanged. rewrite bind_get, Hp.
  unfold BasicClient_opChanged. subst op. rewrite Z.eqb_refl. cbn [negb].
  assert (Hd : negb (is_MODE_ALLOWED (checkOp_result e)) = true)
    by (destruct (checkOp_result e); [congruence | reflexivity ..]).
  rewrite Hd. unfold update_obj. rewrite bind_modify, bind_emit.
  set (s1 := set_heap (alter (set_mClientPid (getCallingPid e)) c (heap s)) s).
  assert (H1 : heap s1 !! c = Some (set_mClientPid (getCallingPid e) o)).
  { unfold s1. cbn [heap set_heap]. rewrite list_lookup_alter_eq.
    rewrite Ho. reflexivity. }
  cbn [trace state snd fst].
  rewrite trace_bind, state_bind.
  rewrite (notifyError_exclusive _ _ _ H1 Hk).
  cbn [trace state result snd fst app set_mClientPid getCameraClient mRemoteCallback].
  rewrite (disconnect_exclusive _ _ _ H1 Hk).
  rewrite (Client_disconnect_trace _ _ _ H1).
  cbn [mCameraId mRemoteCallback set_mClientPid].
  eexists. split; [reflexivity|]. split; [|split].
  - destruct (removeClientByRemote_trace (mRemoteCallback o) s1) as (tr & -> & Htr).
    cbn [app forallb is_revocation_notice negb andb]. rewrite forallb_app.
    cbn [forallb is_revocation_notice negb]. rewrite andb_true_r.
    revert Htr. apply forallb_weaken. intros []; cbn; congruence.
  - apply last_snoc.
  - unfold field_at. rewrite Client_disconnect_heap, H1. reflexivity.
Qed.

(** ** Construction *)

Lemma bind_run {A B} (m : M A) (k : A -> M B) s a s1 t1 :
  m s = (a, s1, t1) ->
  bind m k s = (result (k a s1), state (k a s1), t1 ++ trace (k a s1)).
Proof.
  intros H. unfold bind. rewrite H. destruct (k a s1) as [[b s2] t2]. reflexivity.
Qed.

Lemma allocate_run o s :
  allocate o s = (length (heap s), set_heap (heap s ++ [o]) s, []).
Proof. unfold allocate. rewrite bind_get, bind_modify. reflexivity. Qed.

Lemma loadSound_trace e s : trace (loadSound e s) = [EvLoadSound].
Proof.
  unfold loadSound. rewrite bind_emit, bind_get, bind_modify.
  destruct (negb (mSoundRef s =? 0)); [reflexivity|].
  rewrite bind_modify. reflexivity.
Qed.

Lemma loadSound_heap e : keeps heap (loadSound e).
Proof. keeps_tac. Qed.

Lemma loadSound_mSoundRef e s :
  mSoundRef (state (loadSound e s)) = mSoundRef s + 1.
Proof.
  unfold loadSound. rewrite bind_emit, bind_get, bind_modify.
  destruct (negb (mSoundRef s =? 0)); [reflexivity|].
  rewrite bind_modify. reflexivity.
Qed.

Lemma Client_ctor_result e k r pkg id f pid uid spid s :
  result (Client_ctor e k r pkg id f pid uid spid s) = length (heap s).
Proof.
  unfold Client_ctor.
  rewrite (bind_run _ _ _ _ _ _ (allocate_run _ s)).
  unfold result at 1. cbn [fst].
  rewrite bind_emit. unfold result at 1. cbn [fst].
  rewrite !result_bind. reflexivity.
Qed.

Lemma Client_ctor_trace e k r pkg id f pid uid spid s :
  trace (Client_ctor e k r pkg id f pid uid spid s) =
    [EvNew k (length (heap s)); EvSetCameraBusy id; EvLoadSound].
Proof.
  unfold Client_ctor.
  rewrite (bind_run _ _ _ _ _ _ (allocate_run _ s)).
  unfold trace at 1. cbn [snd app].
  rewrite bind_emit. unfold trace at 1. cbn [snd]. f_equal.
  unfold setCameraBusy. rewrite 2!trace_bind.
  rewrite bind_modify. cbn [emit trace snd app]. f_equal.
  rewrite trace_bind, loadSound_trace. reflexivity.
Qed.

Lemma Client_ctor_heap e k r pkg id f pid uid spid s :
  heap (state (Client_ctor e k r pkg id f pid uid spid s)) =
    heap s ++ [BasicClient_ctor k r pkg id f pid uid spid].
Proof.
  unfold Client_ctor.
  rewrite (bind_run _ _ _ _ _ _ (allocate_run _ s)).
  unfold state at 1. cbn [fst snd].
  rewrite bind_emit. unfold state at 1. cbn [fst snd].
  assert (Hk : keeps heap (setCameraBusy id;;; loadSound e;;; ret (length (heap s))))
    by keeps_tac.
  rewrite Hk. reflexivity.
Qed.

Lemma connect_initialize_result e r id c s :
  result (connect_initialize e r id c s) =
    if is_OK (initialize_result e) then Some c else None.
Proof.
  unfold connect_initialize. rewrite bind_emit. unfold result at 1. cbn [fst].
  destruct (is_OK (initialize_result e)); cbn [negb].
  - rewrite bind_emit, bind_modify. reflexivity.
  - rewrite result_bind. reflexivity.
Qed.

Lemma connect_initialize_kind e r id c c' :
  keeps (field_at kind c') (connect_initialize e r id c).
Proof. keeps_tac. Qed.

Lemma connect_initialize_no_new e r id c :
  emits_only (fun ev => negb (is_EvNew ev)) (connect_initialize e r id c).
Proof. emits_tac. Qed.

(** A client of class [k] is constructed and initialized. *)
Lemma construct_and_initialize e k r pkg id f pid uid spid s :
  let run := bind (Client_ctor e k r pkg id f pid uid spid)
               (fun c => connect_initialize e r id c) s in
  result run = (if is_OK (initialize_result e) then Some (length (heap s)) else None) /\
  List.filter is_EvNew (trace run) = [EvNew k (length (heap s))] /\
  field_at kind (length (heap s)) (state run) = Some k.
Proof.
  cbv zeta. rewrite result_bind, trace_bind, state_bind.
  rewrite Client_ctor_result, Client_ctor_trace.
  split; [apply connect_initialize_result|]. split.
  - cbn [app List.filter is_EvNew].
    rewrite filter_silent; [reflexivity|].
    apply connect_initialize_no_new.
  - rewrite connect_initialize_kind. unfold field_at.
    rewrite Client_ctor_heap, lookup_app_r by reflexivity.
    rewrite Nat.sub_diag. reflexivity.
Qed.

(** ** Dispatch on the device version *)

Lemma switch_1_0 v :
  v = CAMERA_DEVICE_API_VERSION_1_0 -> switch_deviceVersion v = case_1_0.
Proof. intros ->. unfold switch_deviceVersion. rewrite Z.eqb_refl. reflexivity. Qed.

Lemma switch_2_0_2_1 v :
  case_labels_distinct ->
  v = CAMERA_DEVICE_API_VERSION_2_0 \/ v = CAMERA_DEVICE_API_VERSION_2_1 ->
  switch_deviceVersion v = case_2_0_2_1.
Proof.
  intros (H1 & H2 & _) Hv. unfold switch_deviceVersion.
  assert (Hne : (v =? CAMERA_DEVICE_API_VERSION_1_0) = false)
    by (apply Z.eqb_neq; destruct Hv; congruence).
  rewrite Hne.
  assert (He : ((v =? CAMERA_DEVICE_API_VERSION_2_0)
                || (v =? CAMERA_DEVICE_API_VERSION_2_1)) = true).
  { apply orb_true_iff. destruct Hv; [left | right]; apply Z.eqb_eq; assumption. }
  rewrite He. reflexivity.
Qed.

Lemma switch_rejected v :
  case_labels_distinct ->
  v = -1 \/ (v <> CAMERA_DEVICE_API_VERSION_1_0 /\
             v <> CAMERA_DEVICE_API_VERSION_2_0 /\
             v <> CAMERA_DEVICE_API_VERSION_2_1) ->
  switch_deviceVersion v = case_minus_1 \/ switch_deviceVersion v = case_default.
Proof.
  intros (_ & _ & _ & H1 & H2 & H3) Hv. unfold switch_deviceVersion.
  assert (Hne : v <> CAMERA_DEVICE_API_VERSION_1_0 /\
                v <> CAMERA_DEVICE_API_VERSION_2_0 /\
                v <> CAMERA_DEVICE_API_VERSION_2_1).
  { destruct Hv as [->|Hv]; [|exact Hv]. repeat split; congruence. }
  destruct Hne as (N1 & N2 & N3).
  apply Z.eqb_neq in N1, N2, N3. rewrite N1, N2, N3. cbn [orb].
  destruct (v =? -1); [left | right]; reflexivity.
Qed.

Lemma connect_unowned_dispatch e module cameraClient cameraId pkg pid uid s :
  case_labels_distinct ->
  mBusy s cameraId = 0 ->
  let deviceVersion := fst (getDeviceVersion module cameraId (-1)) in
  let r := connect_unowned e module cameraClient cameraId pkg pid uid s in
  let c := length (heap s) in
  (deviceVersion = CAMERA_DEVICE_API_VERSION_1_0 ->
   result r = (if is_OK (initialize_result e) then Some c else None) /\
   List.filter is_EvNew (trace r) = [EvNew CameraClient c] /\
   field_at kind c (state r) = Some CameraClient) /\
  (deviceVersion = CAMERA_DEVICE_API_VERSION_2_0 \/
   deviceVersion = CAMERA_DEVICE_API_VERSION_2_1 ->
   result r = (if is_OK (initialize_result e) then Some c else None) /\
   List.filter is_EvNew (trace r) = [EvNew Camera2Client c] /\
   field_at kind c (state r) = Some Camera2Client) /\
  (deviceVersion = -1 \/
   (deviceVersion <> CAMERA_DEVICE_API_VERSION_1_0 /\
    deviceVersion <> CAMERA_DEVICE_API_VERSION_2_0 /\
    deviceVersion <> CAMERA_DEVICE_API_VERSION_2_1) ->
   result r = None /\
   List.filter is_EvNew (trace r) = [] /\
   heap (state r) = heap s).
Proof.
  intros Hd Hb. cbv zeta. unfold connect_unowned.
  rewrite bind_get, Hb. cbn [Z.eqb negb].
  split; [|split]; intros Hv.
  - rewrite (switch_1_0 _ Hv). apply construct_and_initialize.
  - rewrite (switch_2_0_2_1 _ Hd Hv). apply construct_and_initialize.
  - destruct (switch_rejected _ Hd Hv) as [-> | ->]; repeat split.
Qed.

(** C5.  A connect request that gets as far as resolving the device
    version (caller-uid check passed, module loaded, id in range, policy
    property not set, slot neither owned nor busy) constructs exactly the
    client class that matches the version: [CameraClient] for 1.0,
    [Camera2Client] for 2.0 and 2.1, and the handle returned is that client
    (null if its [initialize] fails).  For -1 and for every other version no
    client is constructed and the handle is null. *)
Theorem connect_dispatch e s cameraClient cameraId pkg clientUid module :
  case_labels_distinct ->
  clientUid = USE_CALLING_UID \/ getCallingPid e = getpid e ->
  mModule s = Some module ->
  0 <= cameraId < mNumberOfCameras s ->
  camera_disabled_property e <> "1"%string ->
  (forall w, mClient s cameraId = Some w -> promote s w = None) ->
  mBusy s cameraId = 0 ->
  let deviceVersion := fst (getDeviceVersion module cameraId (-1)) in
  let r := connect e cameraClient cameraId pkg clientUid s in
  let c := length (heap s) in
  (deviceVersion = CAMERA_DEVICE_API_VERSION_1_0 ->
   result r = (if is_OK (initialize_result e) then Some c else None) /\
   List.filter is_EvNew (trace r) = [EvNew CameraClient c] /\
   field_at kind c (state r) = Some CameraClient) /\
  (deviceVersion = CAMERA_DEVICE_API_VERSION_2_0 \/
   deviceVersion = CAMERA_DEVICE_API_VERSION_2_1 ->
   result r = (if is_OK (initialize_result e) then Some c else None) /\
   List.filter is_EvNew (trace r) = [EvNew Camera2Client c] /\
   field_at kind c (state r) = Some Camera2Client) /\
  (deviceVersion = -1 \/
   (deviceVersion <> CAMERA_DEVICE_API_VERSION_1_0 /\
    deviceVersion <> CAMERA_DEVICE_API_VERSION_2_0 /\
    deviceVersion <> CAMERA_DEVICE_API_VERSION_2_1) ->
   result r = None /\
   List.filter is_EvNew (trace r) = [] /\
   heap (state r) = heap s).
Proof.
  intros Hd Ht Hm Hr Hp Hstale Hb. cbv zeta.
  rewrite (connect_past_guards _ _ _ _ _ _ _ Ht Hm Hr Hp). cbv zeta.
  destruct (mClient s cameraId) as [w|].
  - rewrite (Hstale w eq_refl), bind_modify.
    apply (connect_unowned_dispatch e module cameraClient cameraId pkg
             (getCallingPid e) _ (set_mClient cameraId None s) Hd Hb).
  - apply (connect_unowned_dispatch e module cameraClient cameraId pkg
             (getCallingPid e) _ s Hd Hb).
Qed.

(** ** The reference count of the shared sounds *)

Lemma count_if_app {T} (p : T -> bool) (l1 l2 : list T) :
  count_if p (l1 ++ l2) = (count_if p l1 + count_if p l2)%nat.
Proof.
  induction l1 as [|x l1 IH]; [reflexivity|]. cbn. rewrite IH. lia.
Qed.

Lemma count_if_alter_at {T} (p : T -> bool) g c (l : list T) x :
  l !! c = Some x -> p (g x) = p x ->
  count_if p (alter g c l) = count_if p l.
Proof.
  revert c. induction l as [|y l IH]; intros [|c] Hl Hp; try discriminate.
  - cbn in Hl. injection Hl as ->. cbn. rewrite Hp. reflexivity.
  - cbn in Hl. cbn. rewrite (IH c Hl Hp). reflexivity.
Qed.

Lemma count_if_alter_same {T} (p : T -> bool) g c (l : list T) :
  (forall x, p (g x) = p x) ->
  count_if p (alter g c l) = count_if p l.
Proof.
  intros Hp. revert c.
  induction l as [|y l IH]; intros [|c]; cbn; try reflexivity.
  - rewrite Hp. reflexivity.
  - rewrite IH. reflexivity.
Qed.

Lemma count_if_alter_drop {T} (p : T -> bool) g c (l : list T) x :
  l !! c = Some x -> p x = true -> p (g x) = false ->
  S (count_if p (alter g c l)) = count_if p l.
Proof.
  revert c. induction l as [|y l IH]; intros [|c] Hl H1 H2; try discriminate.
  - cbn in Hl. injection Hl as ->. cbn. rewrite H1, H2. reflexivity.
  - cbn in Hl. cbn. rewrite <- (IH c Hl H1 H2). lia.
Qed.

Lemma keeps_balance_update_obj c g :
  (forall o, live_exclusive (g o) = live_exclusive o) ->
  keeps sound_balance (update_obj c g).
Proof.
  intros Hg s. unfold sound_balance, live_exclusive_clients, update_obj, modify, state.
  cbn [fst snd heap set_heap mSoundRef].
  rewrite (count_if_alter_same _ _ _ _ Hg). reflexivity.
Qed.

#[local] Hint Resolve keeps_balance_update_obj : cam.

Lemma balance_update_at c g s o :
  heap s !! c = Some o ->
  live_exclusive (g o) = live_exclusive o ->
  sound_balance (state (update_obj c g s)) = sound_balance s.
Proof.
  intros Ho Hg. unfold sound_balance, live_exclusive_clients, update_obj, modify, state.
  cbn [fst snd heap set_heap mSoundRef].
  rewrite (count_if_alter_at _ _ _ _ _ Ho Hg). reflexivity.
Qed.

Lemma balance_update_drop c g s o :
  heap s !! c = Some o ->
  live_exclusive o = true ->
  live_exclusive (g o) = false ->
  sound_balance (state (update_obj c g s)) = sound_balance s + 1.
Proof.
  intros Ho H1 H2. unfold sound_balance, live_exclusive_clients, update_obj, modify, state.
  cbn [fst snd heap set_heap mSoundRef].
  rewrite <- (count_if_alter_drop _ _ _ _ _ Ho H1 H2). lia.
Qed.

Lemma releaseSound_mSoundRef s :
  mSoundRef (state (releaseSound s)) = mSoundRef s - 1.
Proof.
  unfold releaseSound. rewrite bind_emit, bind_get, bind_modify.
  unfold state at 1. cbn [fst snd].
  destruct (negb (mSoundRef s - 1 =? 0)); [reflexivity|].
  assert (Hk : keeps mSoundRef (releaseSound_players all_sounds)) by keeps_tac.
  rewrite Hk. reflexivity.
Qed.

Lemma releaseSound_heap : keeps heap releaseSound.
Proof. keeps_tac. Qed.

Lemma releaseSound_balance s :
  sound_balance (state (releaseSound s)) = sound_balance s - 1.
Proof.
  unfold sound_balance, live_exclusive_clients.
  rewrite releaseSound_mSoundRef, releaseSound_heap. lia.
Qed.

Lemma loadSound_balance e s :
  sound_balance (state (loadSound e s)) = sound_balance s + 1.
Proof.
  unfold sound_balance, live_exclusive_clients.
  rewrite loadSound_mSoundRef, loadSound_heap. lia.
Qed.

Lemma Client_dtor_balance c s :
  sound_balance (state (Client_dtor c s)) = sound_balance s - 1.
Proof.
  unfold Client_dtor. rewrite !state_bind.
  assert (H1 : keeps sound_balance (Client_disconnect c)) by keeps_tac.
  assert (H2 : keeps sound_balance (finishCameraOps c)) by keeps_tac.
  rewrite H1, H2, releaseSound_balance.
  assert (H3 : keeps sound_balance (update_obj c (set_mDestructionStarted true)))
    by keeps_tac.
  cbn [emit state fst snd]. rewrite H3. reflexivity.
Qed.

Lemma ProClient_dtor_balance c : keeps sound_balance (ProClient_dtor c).
Proof. keeps_tac. Qed.

Lemma BasicClient_dtor_balance c : keeps sound_balance (BasicClient_dtor c).
Proof. keeps_tac. Qed.

Lemma Client_dtor_kind_refs c c' :
  keeps (field_at (fun o => (kind o, refs o)) c') (Client_dtor c).
Proof. keeps_tac. Qed.

Lemma ProClient_dtor_kind_refs c c' :
  keeps (field_at (fun o => (kind o, refs o)) c') (ProClient_dtor c).
Proof. keeps_tac. Qed.

Lemma BasicClient_dtor_kind_refs c c' :
  keeps (field_at (fun o => (kind o, refs o)) c') (BasicClient_dtor c).
Proof. keeps_tac. Qed.

Lemma live_exclusive_set_refs_Dying o :
  refs o <> Dead -> live_exclusive (set_refs Dying o) = live_exclusive o.
Proof.
  intros H. unfold live_exclusive. cbn [kind refs set_refs].
  destruct (refs o); [reflexivity | reflexivity | congruence].
Qed.

Lemma kind_refs_lookup c s k r :
  field_at (fun o => (kind o, refs o)) c s = Some (k, r) ->
  exists o, heap s !! c = Some o /\ kind o = k /\ refs o = r.
Proof.
  unfold field_at. destruct (heap s !! c) as [o|]; cbn; [|discriminate].
  intros H. exists o. repeat split; congruence.
Qed.

(** Running the destructors of an object that was not destroyed before
    takes it out of the count together with its reference to the sounds. *)
Lemma destroy_balance c s o :
  heap s !! c = Some o ->
  refs o <> Dead ->
  sound_balance (state (destroy c s)) = sound_balance s.
Proof.
  intros Ho Hr. unfold destroy. rewrite !state_bind.
  set (s1 := state (update_obj c (set_refs Dying) s)).
  assert (B1 : sound_balance s1 = sound_balance s)
    by (apply (balance_update_at _ _ _ _ Ho), live_exclusive_set_refs_Dying, Hr).
  assert (F1 : field_at (fun o => (kind o, refs o)) c s1 = Some (kind o, Dying)).
  { unfold s1, field_at, update_obj, modify, state. cbn [fst snd heap set_heap].
    rewrite list_lookup_alter_eq, Ho. reflexivity. }
  destruct (kind_refs_lookup _ _ _ _ F1) as (o1 & Ho1 & Hk1 & _).
  rewrite (with_obj_at _ _ _ _ _ Ho1), Hk1.
  rewrite state_bind.
  destruct (is_exclusive (kind o)) eqn:Hx.
  - set (s3 := state (BasicClient_dtor c (state (Client_dtor c s1)))).
    assert (B3 : sound_balance s3 = sound_balance s - 1).
    { unfold s3. rewrite BasicClient_dtor_balance, Client_dtor_balance. lia. }
    assert (F3 : field_at (fun o => (kind o, refs o)) c s3 = Some (kind o, Dying)).
    { unfold s3. rewrite BasicClient_dtor_kind_refs, Client_dtor_kind_refs. exact F1. }
    destruct (kind_refs_lookup _ _ _ _ F3) as (o3 & Ho3 & Hk3 & Hr3).
    rewrite (balance_update_drop _ _ _ _ Ho3).
    + lia.
    + unfold live_exclusive. rewrite Hk3, Hr3, Hx. reflexivity.
    + unfold live_exclusive. cbn [kind refs set_refs]. apply andb_false_r.
  - set (s3 := state (BasicClient_dtor c (state (ProClient_dtor c s1)))).
    assert (B3 : sound_balance s3 = sound_balance s).
    { unfold s3. rewrite BasicClient_dtor_balance, ProClient_dtor_balance. exact B1. }
    assert (F3 : field_at (fun o => (kind o, refs o)) c s3 = Some (kind o, Dying)).
    { unfold s3. rewrite BasicClient_dtor_kind_refs, ProClient_dtor_kind_refs. exact F1. }
    destruct (kind_refs_lookup _ _ _ _ F3) as (o3 & Ho3 & Hk3 & Hr3).
    rewrite (balance_update_at _ _ _ _ Ho3); [exact B3|].
    unfold live_exclusive. cbn [kind refs set_refs]. rewrite Hk3, Hx. reflexivity.
Qed.

Lemma Client_ctor_mSoundRef e k r pkg id f pid uid spid s :
  mSoundRef (state (Client_ctor e k r pkg id f pid uid spid s)) = mSoundRef s + 1.
Proof.
  unfold Client_ctor.
  rewrite (bind_run _ _ _ _ _ _ (allocate_run _ s)).
  unfold state at 1. cbn [fst snd].
  rewrite bind_emit. unfold state at 1. cbn [fst snd].
  rewrite !state_bind.
  assert (Hk : keeps mSoundRef (setCameraBusy id)) by keeps_tac.
  cbn [ret state fst snd]. rewrite loadSound_mSoundRef, Hk. reflexivity.
Qed.

Lemma Client_ctor_balance e k r pkg id f pid uid spid s :
  is_exclusive k = true ->
  sound_balance (state (Client_ctor e k r pkg id f pid uid spid s)) = sound_balance s.
Proof.
  intros Hk. unfold sound_balance, live_exclusive_clients.
  rewrite Client_ctor_mSoundRef, Client_ctor_heap, count_if_app.
  cbn [count_if]. unfold live_exclusive at 2. cbn [kind refs BasicClient_ctor].
  rewrite Hk. cbn [andb]. lia.
Qed.

Lemma connect_initialize_balance e r id c s o :
  heap s !! c = Some o ->
  refs o <> Dead ->
  sound_balance (state (connect_initialize e r id c s)) = sound_balance s.
Proof.
  intros Ho Hr. unfold connect_initialize. rewrite bind_emit.
  unfold state at 1. cbn [fst snd].
  destruct (negb (is_OK (initialize_result e))).
  - rewrite state_bind. cbn [ret state fst snd].
    apply (destroy_balance _ _ _ Ho Hr).
  - rewrite bind_emit, bind_modify. reflexivity.
Qed.

Lemma new_client_lookup e k r pkg id f pid uid spid s :
  heap (state (Client_ctor e k r pkg id f pid uid spid s))
    !! result (Client_ctor e k r pkg id f pid uid spid s)
  = Some (BasicClient_ctor k r pkg id f pid uid spid).
Proof.
  rewrite Client_ctor_heap, Client_ctor_result, lookup_app_r by reflexivity.
  rewrite Nat.sub_diag. reflexivity.
Qed.

Lemma connect_unowned_balance e module r id pkg pid uid s :
  sound_balance (state (connect_unowned e module r id pkg pid uid s)) = sound_balance s.
Proof.
  unfold connect_unowned. rewrite bind_get.
  destruct (negb (mBusy s id =? 0)); [reflexivity|]. cbv zeta.
  destruct (switch_deviceVersion _); try reflexivity.
  - rewrite state_bind.
    rewrite (connect_initialize_balance _ _ _ _ _ _ (new_client_lookup _ _ _ _ _ _ _ _ _ _))
      by discriminate.
    apply Client_ctor_balance. reflexivity.
  - rewrite state_bind.
    rewrite (connect_initialize_balance _ _ _ _ _ _ (new_client_lookup _ _ _ _ _ _ _ _ _ _))
      by discriminate.
    apply Client_ctor_balance. reflexivity.
Qed.

Lemma connect_balance e r id pkg uid s :
  sound_balance (state (connect e r id pkg uid s)) = sound_balance s.
Proof.
  unfold connect. destruct (negb _ && negb _); [reflexivity|].
  rewrite bind_get. destruct (mModule s); [|reflexivity].
  destruct ((id <? 0) || _); [reflexivity|].
  destruct (String.eqb _ _); [reflexivity|].
  destruct (mClient s id) as [w|].
  - destruct (promote s w) as [o|].
    + destruct (Nat.eqb r (getCameraClient o)); reflexivity.
    + rewrite bind_modify, connect_unowned_balance. reflexivity.
  - apply connect_unowned_balance.
Qed.

Lemma ProClient_ctor_run k r pkg id f pid uid spid s :
  ProClient_ctor k r pkg id f pid uid spid s =
    (length (heap s),
     set_heap (heap s ++ [BasicClient_ctor k r pkg id f pid uid spid]) s,
     [EvNew k (length (heap s))]).
Proof.
  unfold ProClient_ctor.
  rewrite (bind_run _ _ _ _ _ _ (allocate_run _ s)), bind_emit. reflexivity.
Qed.

Lemma connectPro_balance e r id s :
  sound_balance (state (connectPro e r id s)) = sound_balance s.
Proof.
  unfold connectPro. rewrite bind_get. destruct (mModule s); [|reflexivity].
  destruct ((id <? 0) || _); [reflexivity|].
  destruct (String.eqb _ _); [reflexivity|]. cbv zeta.
  destruct (switch_deviceVersion _); try reflexivity.
  rewrite (bind_run _ _ _ _ _ _ (ProClient_ctor_run _ _ _ _ _ _ _ _ _)).
  unfold state at 1. cbn [fst snd].
  match goal with |- context [set_heap (heap s ++ [?x]) s] =>
    set (o := x); set (s1 := set_heap (heap s ++ [o]) s) end.
  assert (B1 : sound_balance s1 = sound_balance s).
  { unfold s1, sound_balance, live_exclusive_clients. cbn [heap set_heap mSoundRef].
    rewrite count_if_app. cbn. lia. }
  assert (H1 : heap s1 !! length (heap s) = Some o).
  { unfold s1. cbn [heap set_heap]. rewrite lookup_app_r by reflexivity.
    rewrite Nat.sub_diag. reflexivity. }
  rewrite bind_emit. unfold state at 1. cbn [fst snd].
  destruct (negb (is_OK (initialize_result e))).
  - rewrite state_bind. cbn [ret state fst snd].
    rewrite (destroy_balance _ _ _ H1) by discriminate. exact B1.
  - rewrite bind_get, bind_modify, bind_emit. exact B1.
Qed.

Lemma promote_alive s c o : promote s c = Some o -> refs o = Alive.
Proof.
  unfold promote. destruct (heap s !! c) as [o'|]; [|discriminate].
  destruct (refs o') eqn:E; congruence.
Qed.

Lemma run_balance a s :
  enabled a s = true ->
  sound_balance (state (run a s)) = sound_balance s.
Proof.
  intros He.
  destruct a; unfold run;
    try (match goal with |- sound_balance (state (?m s)) = _ =>
           assert (Hk : keeps sound_balance m) by keeps_tac; apply Hk end).
  - rewrite state_bind. apply connect_balance.
  - rewrite state_bind. apply connectPro_balance.
  - cbn [enabled] in He. destruct (promote s c) as [o|] eqn:Hp; [|discriminate].
    apply (balance_update_at _ _ _ _ (promote_lookup _ _ _ Hp)).
    apply live_exclusive_set_refs_Dying.
    rewrite (promote_alive _ _ _ Hp). discriminate.
  - cbn [enabled] in He. unfold is_Dying in He.
    destruct (heap s !! c) as [o|] eqn:Ho; [|discriminate].
    apply (destroy_balance _ _ _ Ho). destruct (refs o); congruence.
Qed.

Lemma start_balance hw n b : sound_balance (start hw n b) = 0.
Proof.
  unfold start.
  assert (Hk : keeps sound_balance (onFirstRef hw))
    by (unfold onFirstRef; keeps_tac).
  rewrite Hk. reflexivity.
Qed.

Lemma reachable_balance s : reachable s -> sound_balance s = 0.
Proof.
  intros (hw & n & b & H).
  induction H as [|s a _ IH He]; [apply start_balance|].
  rewrite (run_balance _ _ He). exact IH.
Qed.

Lemma releaseSound_to_zero s k :
  mSoundRef (state (releaseSound s)) = 0 ->
  mSoundPlayer (state (releaseSound s)) k = None /\
  (mSoundPlayer s k <> None -> In (EvPlayerDisconnect k) (trace (releaseSound s))).
Proof.
  rewrite releaseSound_mSoundRef. intros Hz.
  unfold releaseSound. rewrite bind_emit, bind_get, bind_modify.
  apply Z.eqb_eq in Hz. rewrite Hz. cbn [negb].
  unfold all_sounds, releaseSound_players.
  rewrite bind_get. cbn [mSoundPlayer set_mSoundRef].
  destruct (mSoundPlayer s SOUND_SHUTTER) as [p1|] eqn:E1;
    destruct (mSoundPlayer s SOUND_RECORDING) as [p2|] eqn:E2;
    cbn; rewrite ?E1, ?E2; cbn; destruct k; cbn; rewrite ?E1, ?E2;
    (split; [reflexivity | intros H; tauto]).
Qed.

Lemma Client_dtor_mSoundRef c s :
  mSoundRef (state (Client_dtor c s)) = mSoundRef s - 1.
Proof.
  unfold Client_dtor. rewrite !state_bind.
  assert (H1 : keeps mSoundRef (Client_disconnect c)) by keeps_tac.
  assert (H2 : keeps mSoundRef (finishCameraOps c)) by keeps_tac.
  rewrite H1, H2, releaseSound_mSoundRef. reflexivity.
Qed.

(** C6.  In every state the service reaches, the reference count of the
    shared sounds equals the number of exclusive clients that were
    constructed and whose destructor has not run (constructing a [Client]
    adds one to the count, its destructor takes one off); the count is
    therefore never negative; and a release that brings it to zero leaves
    no sound player loaded, disconnecting each one that was. *)
Theorem sound_refcount_invariant s :
  reachable s ->
  mSoundRef s = Z.of_nat (live_exclusive_clients s) /\
  0 <= mSoundRef s /\
  (forall e k r pkg id f pid uid spid,
     mSoundRef (state (Client_ctor e k r pkg id f pid uid spid s)) = mSoundRef s + 1) /\
  (forall c, mSoundRef (state (Client_dtor c s)) = mSoundRef s - 1) /\
  (mSoundRef (state (releaseSound s)) = 0 ->
   forall k,
     mSoundPlayer (state (releaseSound s)) k = None /\
     (mSoundPlayer s k <> None ->
      In (EvPlayerDisconnect k) (trace (releaseSound s)))).
Proof.
  intros Hr. apply reachable_balance in Hr. unfold sound_balance in Hr.
  split; [lia|]. split; [lia|].
  split; [intros; apply Client_ctor_mSoundRef|].
  split; [intros; apply Client_dtor_mSoundRef|].
  intros Hz k. apply releaseSound_to_zero, Hz.
Qed.

(** ** The busy flag *)





Lemma Client_disconnect_state c s o :
  heap s !! c = Some o ->
  state (Client_disconnect c s) =
    set_mBusy (mCameraId o) 0 (state (removeClientByRemote (mRemoteCallback o) s)).
Proof.
  intros Ho. unfold Client_disconnect.
  rewrite state_bind, (with_obj_at _ _ _ _ _ Ho).
  change (state (emit (EvClientDisconnect c (mCameraId o)) s)) with s.
  rewrite state_bind. unfold BasicClient_disconnect.
  rewrite (with_obj_at _ _ _ _ _ Ho).
  assert (Hk : keeps heap (removeClientByRemote (mRemoteCallback o)))
    by keeps_tac.
  rewrite with_obj_at with (o := o) by (rewrite Hk; exact Ho).
  unfold setCameraFree. rewrite bind_modify. reflexivity.
Qed.


Lemma bind_silent {A B} (m : M A) (k : A -> M B) s a s1 :
  m s = (a, s1, []) -> bind m k s = k a s1.
Proof.
  intros H. unfold bind. rewrite H. destruct (k a s1) as [[b s2] t2]. reflexivity.
Qed.


Lemma removeClientByRemote_mBusy r : keeps mBusy (removeClientByRemote r).
Proof. keeps_tac. Qed.


Create HintDb cam_callers discriminated.

#[local] Hint Unfold Client_ctor disconnect BasicClient_opChanged
  OpsCallback_opChanged Client_dtor destroy connect_initialize connect_unowned
  connect connectPro binderDied : cam_callers.





(** The destructor leaves the busy flags alone until its very last step. *)
Lemma Client_dtor_frees_last c s o :
  heap s !! c = Some o ->
  exists pre s_pre,
    trace (Client_dtor c s) = pre ++ [EvSetCameraFree (mCameraId o)] /\
    forallb (fun ev => negb (is_EvSetCameraFree ev)) pre = true /\
    mBusy s_pre = mBusy s /\
    state (Client_dtor c s) = set_mBusy (mCameraId o) 0 s_pre.
Proof.
  intros Ho.
  set (s1 := state (update_obj c (set_mDestructionStarted true) s)).
  set (s2 := state (releaseSound s1)).
  set (s3 := state (finishCameraOps c s2)).
  assert (H3 : field_at identity_of c s3 = Some (identity_of o)).
  { unfold s3, s2, s1.
    rewrite finishCameraOps_field, releaseSound_field by reflexivity.
    rewrite keeps_field_update_obj by reflexivity.
    unfold field_at. rewrite Ho. reflexivity. }
  apply identity_lookup in H3. destruct H3 as (o3 & Ho3 & Hid).
  assert (Hr : mRemoteCallback o3 = mRemoteCallback o)
    by (unfold identity_of in Hid; congruence).
  assert (Hc : mCameraId o3 = mCameraId o)
    by (unfold identity_of in Hid; congruence).
  assert (Hb : mBusy s3 = mBusy s).
  { assert (K1 : keeps mBusy (finishCameraOps c)) by keeps_tac.
    assert (K2 : keeps mBusy releaseSound) by keeps_tac.
    unfold s3, s2, s1. rewrite K1, K2. reflexivity. }
  assert (Ht : trace (Client_dtor c s) =
               (EvDestructionStarted c
                  :: trace (releaseSound s1)
                  ++ trace (finishCameraOps c s2)
                  ++ EvClientDisconnect c (mCameraId o)
                  :: trace (removeClientByRemote (mRemoteCallback o) s3))
               ++ [EvSetCameraFree (mCameraId o)]).
  { unfold Client_dtor. rewrite !trace_bind.
    change (trace (Client_disconnect c _)) with (trace (Client_disconnect c s3)).
    rewrite (Client_disconnect_trace _ _ _ Ho3), Hr, Hc.
    cbn [update_obj modify emit trace snd app].
    rewrite <- !app_assoc. reflexivity. }
  assert (Hs : state (Client_dtor c s) =
               set_mBusy (mCameraId o) 0
                 (state (removeClientByRemote (mRemoteCallback o) s3))).
  { unfold Client_dtor. rewrite !state_bind.
    change (state (Client_disconnect c _)) with (state (Client_disconnect c s3)).
    rewrite (Client_disconnect_state _ _ _ Ho3), Hr, Hc. reflexivity. }
  eexists _, _. split; [exact Ht|]. split; [|split; [|exact Hs]].
  - cbn [forallb is_EvSetCameraFree negb andb]. rewrite !forallb_app.
    cbn [forallb is_EvSetCameraFree negb andb].
    assert (E1 : emits_only (fun ev => negb (is_EvSetCameraFree ev)) releaseSound)
      by emits_tac.
    assert (E2 : emits_only (fun ev => negb (is_EvSetCameraFree ev)) (finishCameraOps c))
      by emits_tac.
    assert (E3 : emits_only (fun ev => negb (is_EvSetCameraFree ev))
                   (removeClientByRemote (mRemoteCallback o)))
      by emits_tac.
    rewrite E1, E2, E3. reflexivity.
  - rewrite removeClientByRemote_mBusy. exact Hb.
Qed.


(** ** Remote death *)

Lemma findClientUnsafe_loop_found n i r s c :
  fst (result (findClientUnsafe_loop n i r s)) = Some c ->
  exists o, promote s c = Some o /\ getCameraClient o = r.
Proof.
  revert i s. induction n as [|n IH]; intros i s; cbn [findClientUnsafe_loop].
  - discriminate.
  - rewrite bind_get. destruct (mClient s i) as [w|]; [|apply IH].
    destruct (promote s w) as [o|] eqn:Hp.
    + destruct (Nat.eqb_spec r (getCameraClient o)) as [->|Hne].
      * cbn. intros [= <-]. exists o. split; [exact Hp | reflexivity].
      * apply IH.
    + rewrite bind_modify. intros H. apply IH in H.
      destruct H as (o & Ho & Hr). exists o. split; [exact Ho | exact Hr].
Qed.

(** What [binderDied] does for the owner of a slot: it disconnects a live
    exclusive client whose remote is the dead one, and nothing else. *)
Lemma binderDied_owner who s :
  match result (getClientByRemote who s) with
  | Some c =>
      (exists o, promote s c = Some o /\ getCameraClient o = who) /\
      binderDied who s =
        bind (getClientByRemote who) (fun _ => disconnect c) s
  | None =>
      trace (binderDied who s) = [] /\
      outside_registry (state (binderDied who s)) = outside_registry s
  end.
Proof.
  destruct (result (getClientByRemote who s)) as [c|] eqn:Hres.
  - split.
    + unfold getClientByRemote in Hres. rewrite result_bind in Hres.
      cbn [ret result fst] in Hres.
      unfold findClientUnsafe in Hres. rewrite bind_get in Hres.
      apply (findClientUnsafe_loop_found _ _ _ _ _ Hres).
    + unfold binderDied, bind. destruct (getClientByRemote who s) as [[a s1] t1].
      cbn in Hres. subst a. reflexivity.
  - assert (Hk : keeps outside_registry (getClientByRemote who)) by keeps_tac.
    assert (He : emits_only (fun _ => false) (getClientByRemote who)) by emits_tac.
    unfold binderDied. rewrite trace_bind, state_bind, Hres.
    cbn [ret trace state fst snd]. rewrite app_nil_r, Hk. split; [|reflexivity].
    specialize (He s). destruct (trace (getClientByRemote who s)); [reflexivity|].
    discriminate.
Qed.

(** ** Searching the owners *)

Lemma mClient_set_mClient i w s j :
  mClient (set_mClient i w s) j = if j =? i then w else mClient s j.
Proof. reflexivity. Qed.

Lemma owner_at_cleared s who i j :
  j <> i -> owner_at (set_mClient i None s) who j <-> owner_at s who j.
Proof.
  intros Hne. unfold owner_at. rewrite mClient_set_mClient.
  apply Z.eqb_neq in Hne. rewrite Hne. reflexivity.
Qed.

Lemma findClientUnsafe_loop_spec n i who s :
  (forall c, fst (result (findClientUnsafe_loop n i who s)) = Some c ->
     let k := snd (result (findClientUnsafe_loop n i who s)) in
     i <= k < i + Z.of_nat n /\
     mClient s k = Some c /\
     (exists o, promote s c = Some o /\ getCameraClient o = who) /\
     (forall j, i <= j < k -> ~ owner_at s who j)) /\
  (fst (result (findClientUnsafe_loop n i who s)) = None ->
     snd (result (findClientUnsafe_loop n i who s)) = -1 /\
     (forall j, i <= j < i + Z.of_nat n -> ~ owner_at s who j)).
Proof.
  revert i s. induction n as [|n IH]; intros i s.
  { cbn. split; [discriminate|]. intros _. split; [reflexivity|]. intros; lia. }
  cbn [findClientUnsafe_loop]. rewrite bind_get.
  destruct (mClient s i) as [w|] eqn:Hw.
  - destruct (promote s w) as [o|] eqn:Hp.
    + destruct (Nat.eqb_spec who (getCameraClient o)) as [Heq|Hne].
      * cbn. split; [|discriminate]. intros c [= <-].
        split; [lia|]. split; [exact Hw|]. split; [eauto|]. intros; lia.
      * destruct (IH (i + 1) s) as [IH1 IH2]. split.
        -- intros c Hc. destruct (IH1 c Hc) as (Hk & Hm & Ho & Hfirst).
           cbv zeta. split; [lia|]. split; [exact Hm|]. split; [exact Ho|].
           intros j Hj. destruct (Z.eq_dec j i) as [->|Hji].
           ++ intros (c' & o' & H1 & H2 & H3). congruence.
           ++ apply Hfirst. lia.
        -- intros Hc. destruct (IH2 Hc) as (Hm1 & Hnone). split; [exact Hm1|].
           intros j Hj. destruct (Z.eq_dec j i) as [->|Hji].
           ++ intros (c' & o' & H1 & H2 & H3). congruence.
           ++ apply Hnone. lia.
    + rewrite bind_modify.
      destruct (IH (i + 1) (set_mClient i None s)) as [IH1 IH2].
      assert (Hi : ~ owner_at s who i)
        by (intros (c' & o' & H1 & H2 & H3); congruence).
      split.
      * intros c Hc. destruct (IH1 c Hc) as (Hk & Hm & Ho & Hfirst).
        cbv zeta. split; [lia|].
        rewrite mClient_set_mClient in Hm.
        destruct (Z.eqb_spec (snd (result (findClientUnsafe_loop n (i + 1) who
                                             (set_mClient i None s)))) i) as [He|He];
          [lia|].
        split; [exact Hm|]. split; [exact Ho|].
        intros j Hj. destruct (Z.eq_dec j i) as [->|Hji]; [exact Hi|].
        rewrite <- (owner_at_cleared s who i j Hji). apply Hfirst. lia.
      * intros Hc. destruct (IH2 Hc) as (Hm1 & Hnone). split; [exact Hm1|].
        intros j Hj. destruct (Z.eq_dec j i) as [->|Hji]; [exact Hi|].
        rewrite <- (owner_at_cleared s who i j Hji). apply Hnone. lia.
  - destruct (IH (i + 1) s) as [IH1 IH2].
    assert (Hi : ~ owner_at s who i)
      by (intros (c' & o' & H1 & H2 & H3); congruence).
    split.
    + intros c Hc. destruct (IH1 c Hc) as (Hk & Hm & Ho & Hfirst).
      cbv zeta. split; [lia|]. split; [exact Hm|]. split; [exact Ho|].
      intros j Hj. destruct (Z.eq_dec j i) as [->|Hji]; [exact Hi|].
      apply Hfirst. lia.
    + intros Hc. destruct (IH2 Hc) as (Hm1 & Hnone). split; [exact Hm1|].
      intros j Hj. destruct (Z.eq_dec j i) as [->|Hji]; [exact Hi|].
      apply Hnone. lia.
Qed.

Lemma findClientUnsafe_outcome who s :
  (forall c, fst (result (findClientUnsafe who s)) = Some c ->
     let k := snd (result (findClientUnsafe who s)) in
     in_range s k /\
     mClient s k = Some c /\
     (exists o, promote s c = Some o /\ getCameraClient o = who) /\
     (forall j, 0 <= j < k -> ~ owner_at s who j)) /\
  (fst (result (findClientUnsafe who s)) = None ->
     snd (result (findClientUnsafe who s)) = -1 /\
     (forall j, in_range s j -> ~ owner_at s who j)).
Proof.
  unfold findClientUnsafe. rewrite bind_get.
  destruct (findClientUnsafe_loop_spec (Z.to_nat (mNumberOfCameras s)) 0 who s)
    as [H1 H2].
  unfold in_range. split.
  - intros c Hc. destruct (H1 c Hc) as (Hk & Hm & Ho & Hfirst).
    cbv zeta. split; [lia|]. split; [exact Hm|]. split; [exact Ho | exact Hfirst].
  - intros Hc. destruct (H2 Hc) as (Hm1 & Hnone). split; [exact Hm1|].
    intros j Hj. apply Hnone. lia.
Qed.

(** X1.  [findClientUnsafe] returns the live exclusive client with the
    given remote that is registered in the lowest slot, with that slot as
    [outIndex]; it returns null, with [outIndex] -1, exactly when no slot
    holds such a client. *)
Theorem findClientUnsafe_first_owner who s :
  (forall c, fst (result (findClientUnsafe who s)) = Some c ->
     let k := snd (result (findClientUnsafe who s)) in
     in_range s k /\
     mClient s k = Some c /\
     (exists o, promote s c = Some o /\ getCameraClient o = who) /\
     (forall j, 0 <= j < k -> ~ owner_at s who j)) /\
  (fst (result (findClientUnsafe who s)) = None ->
     snd (result (findClientUnsafe who s)) = -1 /\
     (forall j, in_range s j -> ~ owner_at s who j)).
Proof. exact (findClientUnsafe_outcome who s). Qed.

Lemma findClientUnsafe_loop_mClient n i who s j :
  mClient (state (findClientUnsafe_loop n i who s)) j = mClient s j \/
  (mClient (state (findClientUnsafe_loop n i who s)) j = None /\
   exists w, mClient s j = Some w /\ promote s w = None).
Proof.
  revert i s. induction n as [|n IH]; intros i s.
  { left. reflexivity. }
  cbn [findClientUnsafe_loop]. rewrite bind_get.
  destruct (mClient s i) as [w|] eqn:Hw; [|apply IH].
  destruct (promote s w) as [o|] eqn:Hp.
  - destruct (Nat.eqb who (getCameraClient o)); [left; reflexivity | apply IH].
  - rewrite bind_modify.
    destruct (IH (i + 1) (set_mClient i None s)) as [H|(H & w' & Hw' & Hp')];
      rewrite mClient_set_mClient in *.
    + destruct (Z.eqb_spec j i) as [->|Hne]; [|left; exact H].
      right. split; [exact H|]. exists w. split; [exact Hw | exact Hp].
    + destruct (Z.eqb_spec j i) as [->|Hne]; [discriminate|].
      right. split; [exact H|]. exists w'. split; [exact Hw' | exact Hp'].
Qed.

Lemma findClientUnsafe_mClient who s j :
  mClient (state (findClientUnsafe who s)) j = mClient s j \/
  (mClient (state (findClientUnsafe who s)) j = None /\
   exists w, mClient s j = Some w /\ promote s w = None).
Proof.
  unfold findClientUnsafe. rewrite bind_get. apply findClientUnsafe_loop_mClient.
Qed.

Lemma findClientUnsafe_rest who :
  keeps (fun s => (outside_registry s, mProClientList s)) (findClientUnsafe who).
Proof. keeps_tac. Qed.

Lemma findProClientUnsafe_rest who :
  keeps (fun s => (outside_registry s, mClient s)) (findProClientUnsafe who).
Proof. keeps_tac. Qed.

Lemma findProClientUnsafe_mClient who : keeps mClient (findProClientUnsafe who).
Proof. keeps_tac. Qed.

Lemma findClientUnsafe_mProClientList who :
  keeps mProClientList (findClientUnsafe who).
Proof. keeps_tac. Qed.

(** The state [removeClientByRemote] ends in, by the outcome of its first
    search. *)
Lemma removeClientByRemote_state r s :
  state (removeClientByRemote r s) =
  match fst (result (findClientUnsafe r s)) with
  | Some _ =>
      set_mClient (snd (result (findClientUnsafe r s))) None
        (state (findClientUnsafe r s))
  | None => state (findProClientUnsafe r (state (findClientUnsafe r s)))
  end.
Proof.
  unfold removeClientByRemote. rewrite bind_emit. unfold state at 1. cbn [fst snd].
  rewrite state_bind.
  destruct (fst (result (findClientUnsafe r s))) as [c|].
  - rewrite bind_modify. reflexivity.
  - rewrite state_bind.
    destruct (result (findProClientUnsafe r (state (findClientUnsafe r s)))) as [p|];
      [|reflexivity].
    unfold with_obj. rewrite bind_get.
    destruct (heap _ !! p); reflexivity.
Qed.

Lemma promote_heap s s' c : heap s' = heap s -> promote s' c = promote s c.
Proof. intros H. unfold promote. rewrite H. reflexivity. Qed.

Lemma removeClientByRemote_heap r : keeps heap (removeClientByRemote r).
Proof. keeps_tac. Qed.

(** X2.  Unregistering by remote never touches the registration of a live
    client that belongs to another remote: its slot still holds it
    afterwards, and it is still alive. *)
Theorem removeClientByRemote_spares_other_remotes r s j w o :
  mClient s j = Some w ->
  promote s w = Some o ->
  getCameraClient o <> r ->
  mClient (state (removeClientByRemote r s)) j = Some w /\
  promote (state (removeClientByRemote r s)) w = Some o.
Proof.
  intros Hw Hp Hr. split.
  - rewrite removeClientByRemote_state.
    assert (Hj : mClient (state (findClientUnsafe r s)) j = Some w).
    { destruct (findClientUnsafe_mClient r s j) as [H|(_ & w' & Hw' & Hp')];
        [congruence|]. congruence. }
    destruct (findClientUnsafe_outcome r s) as [H1 _].
    destruct (fst (result (findClientUnsafe r s))) as [c|].
    + destruct (H1 c eq_refl) as (_ & Hm & (o' & Ho' & Hr') & _).
      rewrite mClient_set_mClient.
      destruct (Z.eqb_spec j (snd (result (findClientUnsafe r s)))) as [He|He];
        [|exact Hj].
      subst j. congruence.
    + rewrite findProClientUnsafe_mClient. exact Hj.
  - rewrite (promote_heap s); [exact Hp|]. apply removeClientByRemote_heap.
Qed.

(** ** Searching the observers *)

Lemma remove_stale_cons j idx (l : list cid) :
  remove_stale (j :: idx) l = delete j (remove_stale idx l).
Proof.
  unfold remove_stale. cbn [rev]. rewrite fold_left_app. reflexivity.
Qed.

Lemma findPro_scan_prune s who l pre :
  remove_stale (snd (findPro_scan s who l (length pre))) (pre ++ l) =
  pre ++ prune_until_match s who l.
Proof.
  revert pre. induction l as [|cl rest IH]; intros pre; [reflexivity|].
  cbn [findPro_scan prune_until_match].
  assert (Hsplit : pre ++ cl :: rest = (pre ++ [cl]) ++ rest)
    by (rewrite <- app_assoc; reflexivity).
  assert (Hlen : S (length pre) = length (pre ++ [cl]))
    by (rewrite length_app; cbn; lia).
  destruct (promote s cl) as [o|].
  - destruct (Nat.eqb (mRemoteCallback o) who); [reflexivity|].
    rewrite Hsplit, Hlen, IH, <- app_assoc. reflexivity.
  - cbn [fst snd]. rewrite remove_stale_cons.
    rewrite Hsplit, Hlen, IH, <- app_assoc. cbn [app].
    apply delete_middle.
Qed.

Lemma findPro_scan_remove s who l :
  remove_stale (snd (findPro_scan s who l 0)) l = prune_until_match s who l.
Proof. apply (findPro_scan_prune s who l []). Qed.

(** X3.  Removing the marked positions last one first, as
    [findProClientUnsafe] does after scanning a list, takes out exactly the
    dead entries that precede the first live observer with the remote
    looked for (all dead entries if there is none) and keeps every other
    entry in place. *)
Theorem findPro_removal_is_prune s who l :
  remove_stale (snd (findPro_scan s who l 0)) l = prune_until_match s who l.
Proof. exact (findPro_scan_remove s who l). Qed.

Lemma findPro_scan_found s who l j :
  (forall p, fst (findPro_scan s who l j) = Some p ->
     In p l /\ exists o, promote s p = Some o /\ mRemoteCallback o = who) /\
  (fst (findPro_scan s who l j) = None ->
     forall p o, In p l -> promote s p = Some o -> mRemoteCallback o <> who).
Proof.
  revert j. induction l as [|cl rest IH]; intros j.
  { cbn. split; [discriminate|]. intros _ p o []. }
  cbn [findPro_scan]. destruct (promote s cl) as [o|] eqn:Hp.
  - destruct (Nat.eqb_spec (mRemoteCallback o) who) as [Heq|Hne].
    + cbn. split; [|discriminate]. intros p [= <-]. split; [left; reflexivity|].
      exists o. split; [exact Hp | exact Heq].
    + destruct (IH (S j)) as [H1 H2]. split.
      * intros p Hf. destruct (H1 p Hf) as (Hin & Ho). split; [right; exact Hin | exact Ho].
      * intros Hf p o' [<-|Hin] Hp'; [congruence|]. apply (H2 Hf p o' Hin Hp').
  - cbn [fst]. destruct (IH (S j)) as [H1 H2]. split.
    + intros p Hf. destruct (H1 p Hf) as (Hin & Ho). split; [right; exact Hin | exact Ho].
    + intros Hf p o' [<-|Hin] Hp'; [congruence|]. apply (H2 Hf p o' Hin Hp').
Qed.

Lemma prune_until_match_heap s s' who l :
  heap s' = heap s -> prune_until_match s' who l = prune_until_match s who l.
Proof.
  intros H. induction l as [|cl rest IH]; [reflexivity|].
  cbn [prune_until_match]. rewrite (promote_heap s s' cl H), IH. reflexivity.
Qed.

Lemma prune_until_match_incl s who l p :
  In p (prune_until_match s who l) -> In p l.
Proof.
  induction l as [|cl rest IH]; [intros []|].
  cbn [prune_until_match]. destruct (promote s cl) as [o|].
  - destruct (Nat.eqb (mRemoteCallback o) who); [intros H; exact H|].
    intros [<-|H]; [left; reflexivity | right; apply IH, H].
  - intros H. right. apply IH, H.
Qed.

Lemma prune_until_match_keeps_live s who l p :
  In p l -> promote s p <> None -> In p (prune_until_match s who l).
Proof.
  induction l as [|cl rest IH]; [intros []|].
  cbn [prune_until_match]. intros [<-|Hin] Hp.
  - destruct (promote s cl) as [o|]; [|contradiction].
    destruct (Nat.eqb (mRemoteCallback o) who); left; reflexivity.
  - destruct (promote s cl) as [o|].
    + destruct (Nat.eqb (mRemoteCallback o) who); right; [exact Hin | apply IH; assumption].
    + apply IH; assumption.
Qed.

Lemma mProClientList_set i l s j :
  mProClientList (set_mProClientList i l s) j =
  if j =? i then l else mProClientList s j.
Proof. reflexivity. Qed.

Lemma observer_at_other s who i l j :
  j <> i ->
  observer_at (set_mProClientList i l s) who j <-> observer_at s who j.
Proof.
  intros Hne. unfold observer_at. rewrite mProClientList_set.
  apply Z.eqb_neq in Hne. rewrite Hne. reflexivity.
Qed.

Lemma findProClientUnsafe_loop_spec n i who acc s :
  let r := findProClientUnsafe_loop n i who acc s in
  (forall j,
     mProClientList (state r) j =
     if (i <=? j) && (j <? i + Z.of_nat n)
     then prune_until_match s who (mProClientList s j)
     else mProClientList s j) /\
  (forall p, result r = Some p ->
     acc = Some p \/
     exists j o, i <= j < i + Z.of_nat n /\ In p (mProClientList s j) /\
                 promote s p = Some o /\ mRemoteCallback o = who) /\
  (result r = None ->
     acc = None /\ forall j, i <= j < i + Z.of_nat n -> ~ observer_at s who j).
Proof.
  cbv zeta. revert i acc s. induction n as [|n IH]; intros i acc s.
  { cbn [findProClientUnsafe_loop]. unfold ret, result, state. cbn [fst snd].
    split; [|split].
    - intros j. destruct ((i <=? j) && (j <? i + Z.of_nat 0)) eqn:E; [|reflexivity].
      apply andb_true_iff in E. destruct E as [E1 E2].
      apply Z.leb_le in E1. apply Z.ltb_lt in E2. lia.
    - intros p Hp. left. exact Hp.
    - intros Hp. split; [exact Hp|]. intros; lia. }
  cbn [findProClientUnsafe_loop]. rewrite bind_get, bind_modify.
  set (scan := findPro_scan s who (mProClientList s i) 0).
  set (s1 := set_mProClientList i (remove_stale (snd scan) (mProClientList s i)) s).
  destruct (IH (i + 1) (match fst scan with Some cl => Some cl | None => acc end) s1)
    as (L & R1 & R2).
  destruct (findPro_scan_found s who (mProClientList s i) 0) as [F1 F2].
  fold scan in F1, F2.
  split; [|split].
  - intros j. rewrite L. unfold s1. rewrite mProClientList_set.
    rewrite (prune_until_match_heap s) by reflexivity.
    destruct (Z.eqb_spec j i) as [->|Hne].
    + replace ((i + 1 <=? i) && (i <? i + 1 + Z.of_nat n)) with false
        by (symmetry; apply andb_false_iff; left; apply Z.leb_gt; lia).
      replace ((i <=? i) && (i <? i + Z.of_nat (S n))) with true
        by (symmetry; apply andb_true_iff; split;
            [apply Z.leb_le | apply Z.ltb_lt]; lia).
      unfold scan. apply findPro_scan_remove.
    + replace ((i + 1 <=? j) && (j <? i + 1 + Z.of_nat n))
        with ((i <=? j) && (j <? i + Z.of_nat (S n))); [reflexivity|].
      destruct (Z.leb_spec i j), (Z.leb_spec (i + 1) j),
        (Z.ltb_spec j (i + Z.of_nat (S n))), (Z.ltb_spec j (i + 1 + Z.of_nat n));
        cbn; try reflexivity; lia.
  - intros p Hp. destruct (R1 p Hp) as [Hacc|(j & o & Hj & Hin & Ho & Hr)].
    + destruct (fst scan) as [cl|] eqn:Hs; [|left; exact Hacc].
      injection Hacc as <-. destruct (F1 cl eq_refl) as (Hin & o & Ho & Hr).
      right. exists i, o. split; [lia|]. split; [exact Hin|]. split; [exact Ho | exact Hr].
    + right. exists j, o. split; [lia|].
      unfold s1 in Hin. rewrite mProClientList_set in Hin.
      destruct (Z.eqb_spec j i) as [He|He]; [lia|].
      split; [exact Hin|]. split; [exact Ho | exact Hr].
  - intros Hp. destruct (R2 Hp) as (Hacc & Hnone).
    destruct (fst scan) as [cl|] eqn:Hs; [discriminate|].
    split; [exact Hacc|]. intros j Hj. destruct (Z.eq_dec j i) as [->|Hne].
    + intros (p & o & Hin & Ho & Hr). exact (F2 eq_refl p o Hin Ho Hr).
    + rewrite <- (observer_at_other s who i
                    (remove_stale (snd scan) (mProClientList s i)) j Hne).
      apply Hnone. lia.
Qed.

Lemma findProClientUnsafe_outcome who s :
  (forall p, result (findProClientUnsafe who s) = Some p ->
     exists j o, in_range s j /\ In p (mProClientList s j) /\
                 promote s p = Some o /\ mRemoteCallback o = who) /\
  (result (findProClientUnsafe who s) = None ->
     forall j, in_range s j -> ~ observer_at s who j) /\
  (forall j,
     in_range s j ->
     mProClientList (state (findProClientUnsafe who s)) j =
       prune_until_match s who (mProClientList s j)) /\
  (forall j p,
     (In p (mProClientList (state (findProClientUnsafe who s)) j) ->
      In p (mProClientList s j)) /\
     (In p (mProClientList s j) -> promote s p <> None ->
      In p (mProClientList (state (findProClientUnsafe who s)) j))).
Proof.
  unfold findProClientUnsafe. rewrite bind_get.
  destruct (findProClientUnsafe_loop_spec (Z.to_nat (mNumberOfCameras s)) 0 who None s)
    as (L & R1 & R2).
  unfold in_range. split; [|split; [|split]].
  - intros p Hp. destruct (R1 p Hp) as [Hacc|(j & o & Hj & H)]; [discriminate|].
    exists j, o. split; [lia | exact H].
  - intros Hp j Hj. apply (proj2 (R2 Hp)). lia.
  - intros j Hj. rewrite L.
    replace ((0 <=? j) && (j <? 0 + Z.of_nat (Z.to_nat (mNumberOfCameras s))))
      with true; [reflexivity|].
    symmetry. apply andb_true_iff. split; [apply Z.leb_le | apply Z.ltb_lt]; lia.
  - intros j p. rewrite L.
    destruct ((0 <=? j) && (j <? 0 + Z.of_nat (Z.to_nat (mNumberOfCameras s)))).
    + split; [apply prune_until_match_incl | apply prune_until_match_keeps_live].
    + split; intros H; try intros _; exact H.
Qed.

(** X4.  [findProClientUnsafe] returns a live observer with the given
    remote that is on the list of a camera, and null exactly when no camera
    has one.  Along the way each camera's list loses only dead entries (the
    ones ahead of the match); live observers are never taken off a list and
    nothing is added. *)
Theorem findProClientUnsafe_spec who s :
  (forall p, result (findProClientUnsafe who s) = Some p ->
     exists j o, in_range s j /\ In p (mProClientList s j) /\
                 promote s p = Some o /\ mRemoteCallback o = who) /\
  (result (findProClientUnsafe who s) = None ->
     forall j, in_range s j -> ~ observer_at s who j) /\
  (forall j,
     in_range s j ->
     mProClientList (state (findProClientUnsafe who s)) j =
       prune_until_match s who (mProClientList s j)) /\
  (forall j p,
     (In p (mProClientList (state (findProClientUnsafe who s)) j) ->
      In p (mProClientList s j)) /\
     (In p (mProClientList s j) -> promote s p <> None ->
      In p (mProClientList (state (findProClientUnsafe who s)) j))).
Proof. exact (findProClientUnsafe_outcome who s). Qed.

(** ** Unregistering by remote *)

Lemma silent_trace {A} (m : M A) s :
  emits_only (fun _ => false) m -> trace (m s) = [].
Proof.
  intros H. specialize (H s). destruct (trace (m s)); [reflexivity | discriminate].
Qed.

Lemma findClientUnsafe_silent who s : trace (findClientUnsafe who s) = [].
Proof. apply silent_trace. emits_tac. Qed.

Lemma findProClientUnsafe_silent who s : trace (findProClientUnsafe who s) = [].
Proof. apply silent_trace. emits_tac. Qed.

Lemma findClientUnsafe_no_owner who s :
  (forall j, in_range s j -> ~ owner_at s who j) ->
  fst (result (findClientUnsafe who s)) = None.
Proof.
  intros Hno. destruct (findClientUnsafe_outcome who s) as [H1 _].
  destruct (fst (result (findClientUnsafe who s))) as [c|]; [|reflexivity].
  destruct (H1 c eq_refl) as (Hk & Hm & (o & Ho & Hr) & _).
  exfalso. apply (Hno _ Hk). exists c, o. auto.
Qed.

Lemma findClientUnsafe_first who s k c o :
  in_range s k ->
  mClient s k = Some c ->
  promote s c = Some o ->
  getCameraClient o = who ->
  (forall j, 0 <= j < k -> ~ owner_at s who j) ->
  result (findClientUnsafe who s) = (Some c, k).
Proof.
  intros Hk Hm Ho Hr Hfirst.
  destruct (findClientUnsafe_outcome who s) as [H1 H2].
  assert (Hown : owner_at s who k) by (exists c, o; auto).
  destruct (result (findClientUnsafe who s)) as [[c'|] k'] eqn:E; cbn [fst snd] in *.
  - destruct (H1 c' eq_refl) as (Hk' & Hm' & (o' & Ho' & Hr') & Hfirst').
    assert (k' = k).
    { destruct (Z.lt_trichotomy k' k) as [Hlt|[Heq|Hgt]]; [|exact Heq|].
      - exfalso. apply (Hfirst k'); [unfold in_range in Hk'; lia|].
        exists c', o'. auto.
      - exfalso. apply (Hfirst' k); [unfold in_range in Hk; lia | exact Hown]. }
    subst k'. congruence.
  - exfalso. destruct (H2 eq_refl) as (_ & Hnone). exact (Hnone k Hk Hown).
Qed.

(** X5.  Unregistering a remote that no live exclusive client and no live
    observer belongs to is a no-op: no death link is dropped, and every live
    registration, the busy flags, the sounds and the objects stay as they
    are (only stale entries may be cleared along the way). *)
Theorem removeClientByRemote_unknown_remote r s :
  (forall j, in_range s j -> ~ owner_at s r j) ->
  (forall j, in_range s j -> ~ observer_at s r j) ->
  trace (removeClientByRemote r s) = [EvRemoveClientByRemote r] /\
  outside_registry (state (removeClientByRemote r s)) = outside_registry s /\
  (forall j w, mClient s j = Some w -> promote s w <> None ->
     mClient (state (removeClientByRemote r s)) j = Some w) /\
  (forall j p, In p (mProClientList s j) -> promote s p <> None ->
     In p (mProClientList (state (removeClientByRemote r s)) j)).
Proof.
  intros Hown Hobs.
  pose proof (findClientUnsafe_no_owner r s Hown) as Hnone.
  set (s1 := state (findClientUnsafe r s)).
  assert (Hrest : outside_registry s1 = outside_registry s /\
                  mProClientList s1 = mProClientList s).
  { pose proof (findClientUnsafe_rest r s) as H. cbv beta in H.
    fold s1 in H. split; congruence. }
  destruct Hrest as [Hout Hlists].
  assert (Hheap : heap s1 = heap s) by (unfold outside_registry in Hout; congruence).
  assert (Hn : mNumberOfCameras s1 = mNumberOfCameras s)
    by (unfold outside_registry in Hout; congruence).
  assert (Hnone2 : result (findProClientUnsafe r s1) = None).
  { destruct (findProClientUnsafe_outcome r s1) as (P1 & _).
    destruct (result (findProClientUnsafe r s1)) as [p|]; [|reflexivity].
    destruct (P1 p eq_refl) as (j & o & Hj & Hin & Ho & Hr).
    exfalso. apply (Hobs j); [unfold in_range in *; lia|].
    exists p, o. rewrite <- Hlists.
    rewrite (promote_heap s s1 p Hheap) in Ho. auto. }
  split; [|split; [|split]].
  - unfold removeClientByRemote. rewrite bind_emit. cbn [trace snd]. f_equal.
    rewrite trace_bind, findClientUnsafe_silent, Hnone. cbn [app].
    fold s1. rewrite trace_bind, findProClientUnsafe_silent, Hnone2. reflexivity.
  - apply removeClientByRemote_frame.
  - intros j w Hw Hp. rewrite removeClientByRemote_state, Hnone.
    rewrite findProClientUnsafe_mClient.
    destruct (findClientUnsafe_mClient r s j) as [H|(_ & w' & Hw' & Hp')];
      congruence.
  - intros j p Hin Hp. rewrite removeClientByRemote_state, Hnone. fold s1.
    destruct (findProClientUnsafe_outcome r s1) as (_ & _ & _ & P4).
    apply (proj2 (P4 j p)).
    + rewrite Hlists. exact Hin.
    + rewrite (promote_heap s s1 p Hheap). exact Hp.
Qed.

Lemma removeClientByRemote_first_owner r s k c o :
  in_range s k ->
  mClient s k = Some c ->
  promote s c = Some o ->
  getCameraClient o = r ->
  (forall j, 0 <= j < k -> ~ owner_at s r j) ->
  trace (removeClientByRemote r s) =
    [EvRemoveClientByRemote r; EvUnlinkToDeath (ClientBinder c)] /\
  mClient (state (removeClientByRemote r s)) k = None /\
  mProClientList (state (removeClientByRemote r s)) = mProClientList s /\
  outside_registry (state (removeClientByRemote r s)) = outside_registry s /\
  promote (state (removeClientByRemote r s)) c = Some o.
Proof.
  intros Hk Hm Ho Hr Hfirst.
  pose proof (findClientUnsafe_first r s k c o Hk Hm Ho Hr Hfirst) as Hres.
  split; [|split; [|split; [|split]]].
  - unfold removeClientByRemote. rewrite bind_emit. cbn [trace snd]. f_equal.
    rewrite trace_bind, findClientUnsafe_silent, Hres. cbn [app fst snd].
    rewrite bind_modify. reflexivity.
  - rewrite removeClientByRemote_state, Hres. cbn [fst snd].
    rewrite mClient_set_mClient, Z.eqb_refl. reflexivity.
  - rewrite removeClientByRemote_state, Hres. cbn [fst snd mProClientList set_mClient].
    apply findClientUnsafe_mProClientList.
  - apply removeClientByRemote_frame.
  - rewrite (promote_heap s); [exact Ho|]. apply removeClientByRemote_heap.
Qed.

(** X6.  Unregistering the remote of a live exclusive client clears the
    lowest slot registered to that remote and drops the death link of that
    client; the observer lists, the busy flags, the sounds and the objects
    are left as they are, and the client itself stays alive. *)
Theorem removeClientByRemote_owner r s k c o :
  in_range s k ->
  mClient s k = Some c ->
  promote s c = Some o ->
  getCameraClient o = r ->
  (forall j, 0 <= j < k -> ~ owner_at s r j) ->
  trace (removeClientByRemote r s) =
    [EvRemoveClientByRemote r; EvUnlinkToDeath (ClientBinder c)] /\
  mClient (state (removeClientByRemote r s)) k = None /\
  mProClientList (state (removeClientByRemote r s)) = mProClientList s /\
  outside_registry (state (removeClientByRemote r s)) = outside_registry s /\
  promote (state (removeClientByRemote r s)) c = Some o.
Proof. exact (removeClientByRemote_first_owner r s k c o). Qed.

(** ** What a granted connect leaves behind *)

Lemma Client_ctor_busy_flags e k r pkg id f pid uid spid s :
  mBusy (state (Client_ctor e k r pkg id f pid uid spid s)) = upd (mBusy s) id 1.
Proof.
  unfold Client_ctor.
  rewrite (bind_run _ _ _ _ _ _ (allocate_run _ s)).
  unfold state at 1. cbn [fst snd].
  rewrite bind_emit. unfold state at 1. cbn [fst snd].
  rewrite !state_bind.
  assert (Hk : keeps mBusy (loadSound e)) by keeps_tac.
  cbn [ret state fst snd]. rewrite Hk.
  unfold setCameraBusy. rewrite bind_modify. reflexivity.
Qed.

Lemma Client_ctor_registry e k r pkg id f pid uid spid :
  keeps (fun s => (mClient s, mProClientList s, hal_view s))
    (Client_ctor e k r pkg id f pid uid spid).
Proof. keeps_tac. Qed.

Lemma connect_initialize_granted e r id c s :
  is_OK (initialize_result e) = true ->
  connect_initialize e r id c s =
    (Some c, set_mClient id (Some c) s, [EvInitialize c; EvLinkToDeath r]).
Proof.
  intros H. unfold connect_initialize. rewrite bind_emit, H. cbn [negb].
  rewrite bind_emit, bind_modify. reflexivity.
Qed.

Lemma connect_initialize_some e r id c s c' :
  result (connect_initialize e r id c s) = Some c' ->
  is_OK (initialize_result e) = true /\ c' = c.
Proof.
  rewrite connect_initialize_result.
  destruct (is_OK (initialize_result e)); [|discriminate].
  intros [= <-]. split; reflexivity.
Qed.

(** A construction followed by a successful [initialize]. *)
Lemma construct_granted e k r pkg id f pid uid spid s :
  is_OK (initialize_result e) = true ->
  let run := bind (Client_ctor e k r pkg id f pid uid spid)
               (fun c => connect_initialize e r id c) s in
  result run = Some (length (heap s)) /\
  trace run =
    [EvNew k (length (heap s)); EvSetCameraBusy id; EvLoadSound;
     EvInitialize (length (heap s)); EvLinkToDeath r] /\
  heap (state run) = heap s ++ [BasicClient_ctor k r pkg id f pid uid spid] /\
  mClient (state run) = upd (mClient s) id (Some (length (heap s))) /\
  mBusy (state run) = upd (mBusy s) id 1 /\
  mSoundRef (state run) = mSoundRef s + 1 /\
  mProClientList (state run) = mProClientList s /\
  hal_view (state run) = hal_view s.
Proof.
  intros Hok. cbv zeta.
  rewrite result_bind, trace_bind, state_bind.
  rewrite Client_ctor_result, Client_ctor_trace.
  rewrite (connect_initialize_granted _ _ _ _ _ Hok).
  cbn [result state trace fst snd app].
  pose proof (Client_ctor_registry e k r pkg id f pid uid spid s) as Hreg.
  cbv beta in Hreg. unfold hal_view in *. injection Hreg as R1 R2 R3 R4.
  cbn [heap mClient mBusy mSoundRef mProClientList set_mClient mModule
       mNumberOfCameras].
  rewrite Client_ctor_heap, Client_ctor_busy_flags, Client_ctor_mSoundRef.
  repeat split; congruence.
Qed.

Lemma client_class_switch v k :
  client_class v = Some k ->
  (switch_deviceVersion v = case_1_0 /\ k = CameraClient) \/
  (switch_deviceVersion v = case_2_0_2_1 /\ k = Camera2Client).
Proof.
  unfold client_class. destruct (switch_deviceVersion v); intros [= <-]; auto.
Qed.

Lemma connect_granted_run e s cameraClient cameraId pkg clientUid module k :
  clientUid = USE_CALLING_UID \/ getCallingPid e = getpid e ->
  mModule s = Some module ->
  0 <= cameraId < mNumberOfCameras s ->
  camera_disabled_property e <> "1"%string ->
  (forall w, mClient s cameraId = Some w -> promote s w = None) ->
  mBusy s cameraId = 0 ->
  client_class (fst (getDeviceVersion module cameraId (-1))) = Some k ->
  is_OK (initialize_result e) = true ->
  let r := connect e cameraClient cameraId pkg clientUid s in
  let c := length (heap s) in
  result r = Some c /\
  trace r = [EvNew k c; EvSetCameraBusy cameraId; EvLoadSound;
             EvInitialize c; EvLinkToDeath cameraClient] /\
  heap (state r) =
    heap s ++ [BasicClient_ctor k cameraClient pkg cameraId
                 (snd (getDeviceVersion module cameraId (-1)))
                 (getCallingPid e) (resolved_uid e clientUid) (getpid e)] /\
  (forall j, mClient (state r) j = if j =? cameraId then Some c else mClient s j) /\
  (forall j, mBusy (state r) j = if j =? cameraId then 1 else mBusy s j) /\
  mSoundRef (state r) = mSoundRef s + 1 /\
  mProClientList (state r) = mProClientList s /\
  hal_view (state r) = hal_view s.
Proof.
  intros Ht Hm Hr Hp Hstale Hb Hk Hok. cbv zeta.
  rewrite (connect_past_guards _ _ _ _ _ _ _ Ht Hm Hr Hp). cbv zeta.
  fold (resolved_uid e clientUid).
  assert (Hun : forall s0,
            mBusy s0 cameraId = 0 ->
            let r := connect_unowned e module cameraClient cameraId pkg
                       (getCallingPid e) (resolved_uid e clientUid) s0 in
            result r = Some (length (heap s0)) /\
            trace r = [EvNew k (length (heap s0)); EvSetCameraBusy cameraId;
                       EvLoadSound; EvInitialize (length (heap s0));
                       EvLinkToDeath cameraClient] /\
            heap (state r) =
              heap s0 ++ [BasicClient_ctor k cameraClient pkg cameraId
                            (snd (getDeviceVersion module cameraId (-1)))
                            (getCallingPid e) (resolved_uid e clientUid) (getpid e)] /\
            mClient (state r) = upd (mClient s0) cameraId (Some (length (heap s0))) /\
            mBusy (state r) = upd (mBusy s0) cameraId 1 /\
            mSoundRef (state r) = mSoundRef s0 + 1 /\
            mProClientList (state r) = mProClientList s0 /\
            hal_view (state r) = hal_view s0).
  { intros s0 Hb0. cbv zeta. unfold connect_unowned.
    rewrite bind_get, Hb0. cbn [Z.eqb negb]. cbv zeta.
    destruct (client_class_switch _ _ Hk) as [[-> ->]|[-> ->]];
      apply construct_granted, Hok. }
  destruct (mClient s cameraId) as [w|] eqn:Hw.
  - rewrite (Hstale w eq_refl), bind_modify.
    destruct (Hun (set_mClient cameraId None s) Hb)
      as (H1 & H2 & H3 & H4 & H5 & H6 & H7 & H8).
    cbn [heap set_mClient mBusy mSoundRef mProClientList] in *.
    repeat split; try assumption.
    + intros j. rewrite H4. unfold upd. cbn [mClient set_mClient]. unfold upd.
      destruct (j =? cameraId) eqn:E; [reflexivity|]. reflexivity.
    + intros j. rewrite H5. reflexivity.
  - destruct (Hun s Hb) as (H1 & H2 & H3 & H4 & H5 & H6 & H7 & H8).
    repeat split; try assumption.
    + intros j. rewrite H4. reflexivity.
    + intros j. rewrite H5. reflexivity.
Qed.

(** X7.  A connect request for a free slot that passes every guard, on a
    device whose version has a client class, and whose [initialize]
    succeeds: the handle returned is a new object of that class, which
    records the requesting remote, the package, the camera id, the facing
    reported by the HAL, the calling pid, the resolved uid and the service
    pid; it is registered in the slot, the slot is marked busy, one
    reference to the sounds is taken and a death link is set on the
    remote.  Other slots, the observer lists and the HAL data are left as
    they are. *)
Theorem connect_granted e s cameraClient cameraId pkg clientUid module k :
  clientUid = USE_CALLING_UID \/ getCallingPid e = getpid e ->
  mModule s = Some module ->
  0 <= cameraId < mNumberOfCameras s ->
  camera_disabled_property e <> "1"%string ->
  (forall w, mClient s cameraId = Some w -> promote s w = None) ->
  mBusy s cameraId = 0 ->
  client_class (fst (getDeviceVersion module cameraId (-1))) = Some k ->
  is_OK (initialize_result e) = true ->
  let r := connect e cameraClient cameraId pkg clientUid s in
  let c := length (heap s) in
  result r = Some c /\
  trace r = [EvNew k c; EvSetCameraBusy cameraId; EvLoadSound;
             EvInitialize c; EvLinkToDeath cameraClient] /\
  heap (state r) =
    heap s ++ [BasicClient_ctor k cameraClient pkg cameraId
                 (snd (getDeviceVersion module cameraId (-1)))
                 (getCallingPid e) (resolved_uid e clientUid) (getpid e)] /\
  (forall j, mClient (state r) j = if j =? cameraId then Some c else mClient s j) /\
  (forall j, mBusy (state r) j = if j =? cameraId then 1 else mBusy s j) /\
  mSoundRef (state r) = mSoundRef s + 1 /\
  mProClientList (state r) = mProClientList s /\
  hal_view (state r) = hal_view s.
Proof. exact (connect_granted_run e s cameraClient cameraId pkg clientUid module k). Qed.

Lemma promote_new_object s' h o :
  heap s' = h ++ [o] -> refs o = Alive -> promote s' (length h) = Some o.
Proof.
  intros Hh Hr. unfold promote.
  rewrite Hh, lookup_app_r, Nat.sub_diag by reflexivity. cbn. rewrite Hr. reflexivity.
Qed.

Lemma connect_unowned_some e module r id pkg pid uid s c :
  result (connect_unowned e module r id pkg pid uid s) = Some c ->
  mClient (state (connect_unowned e module r id pkg pid uid s)) id = Some c /\
  (exists o, promote (state (connect_unowned e module r id pkg pid uid s)) c = Some o /\
             getCameraClient o = r) /\
  hal_view (state (connect_unowned e module r id pkg pid uid s)) = hal_view s.
Proof.
  unfold connect_unowned. rewrite bind_get.
  destruct (negb (mBusy s id =? 0)); [discriminate|]. cbv zeta.
  destruct (switch_deviceVersion _); try discriminate.
  - intros Hres. pose proof Hres as Hres'.
    rewrite result_bind in Hres'. apply connect_initialize_some in Hres'.
    destruct Hres' as [Hok _].
    destruct (construct_granted e CameraClient r pkg id
                (snd (getDeviceVersion module id (-1))) pid uid (getpid e) s Hok)
      as (H1 & _ & H3 & H4 & _ & _ & _ & H8).
    rewrite H1 in Hres. injection Hres as <-.
    split; [rewrite H4; unfold upd; rewrite Z.eqb_refl; reflexivity|].
    split; [|exact H8].
    eexists. split; [apply (promote_new_object _ _ _ H3); reflexivity | reflexivity].
  - intros Hres. pose proof Hres as Hres'.
    rewrite result_bind in Hres'. apply connect_initialize_some in Hres'.
    destruct Hres' as [Hok _].
    destruct (construct_granted e Camera2Client r pkg id
                (snd (getDeviceVersion module id (-1))) pid uid (getpid e) s Hok)
      as (H1 & _ & H3 & H4 & _ & _ & _ & H8).
    rewrite H1 in Hres. injection Hres as <-.
    split; [rewrite H4; unfold upd; rewrite Z.eqb_refl; reflexivity|].
    split; [|exact H8].
    eexists. split; [apply (promote_new_object _ _ _ H3); reflexivity | reflexivity].
Qed.

(** X8.  Whenever [connect] returns a handle, the module is loaded, the id
    is in range, and afterwards the slot of that id is registered to the
    handle, which is alive and belongs to the requesting remote. *)
Theorem connect_handle_is_registered e cameraClient cameraId pkg clientUid s c :
  result (connect e cameraClient cameraId pkg clientUid s) = Some c ->
  in_range (state (connect e cameraClient cameraId pkg clientUid s)) cameraId /\
  mModule (state (connect e cameraClient cameraId pkg clientUid s)) <> None /\
  mClient (state (connect e cameraClient cameraId pkg clientUid s)) cameraId = Some c /\
  exists o,
    promote (state (connect e cameraClient cameraId pkg clientUid s)) c = Some o /\
    getCameraClient o = cameraClient.
Proof.
  unfold connect, in_range.
  destruct (negb _ && negb _); [discriminate|].
  rewrite bind_get. destruct (mModule s) as [module|] eqn:Hm; [|discriminate].
  destruct ((cameraId <? 0) || _) eqn:Hr; [discriminate|].
  apply orb_false_iff in Hr. destruct Hr as [Hr1 Hr2].
  apply Z.ltb_ge in Hr1. rewrite Z.geb_leb in Hr2. apply Z.leb_gt in Hr2.
  destruct (String.eqb _ _); [discriminate|].
  destruct (mClient s cameraId) as [w|] eqn:Hw.
  - destruct (promote s w) as [o|] eqn:Ho.
    + destruct (Nat.eqb_spec cameraClient (getCameraClient o)) as [Heq|Hne];
        [|discriminate].
      intros [= <-]. cbn [ret state fst snd].
      split; [lia|]. split; [congruence|]. split; [exact Hw|].
      exists o. split; [exact Ho | congruence].
    + rewrite bind_modify. intros Hres.
      destruct (connect_unowned_some _ _ _ _ _ _ _ _ _ Hres) as (H1 & H2 & H3).
      unfold hal_view in H3. cbn [mModule mNumberOfCameras set_mClient] in H3.
      injection H3 as H3 H4. rewrite H3, H4, Hm.
      split; [lia|]. split; [discriminate|]. split; [exact H1 | exact H2].
  - intros Hres.
    destruct (connect_unowned_some _ _ _ _ _ _ _ _ _ Hres) as (H1 & H2 & H3).
    unfold hal_view in H3. injection H3 as H3 H4. rewrite H3, H4, Hm.
    split; [lia|]. split; [discriminate|]. split; [exact H1 | exact H2].
Qed.

Lemma connect_refused_run e s cameraClient cameraId pkg clientUid :
  camera_disabled_property e = "1"%string \/ mModule s = None ->
  connect e cameraClient cameraId pkg clientUid s = (None, s, []) /\
  connectPro e cameraClient cameraId s = (None, s, []).
Proof.
  intros H. split.
  - unfold connect. destruct (negb _ && negb _); [reflexivity|].
    rewrite bind_get. destruct (mModule s); [|reflexivity].
    destruct ((cameraId <? 0) || _); [reflexivity|].
    destruct H as [H|H]; [|discriminate].
    rewrite H. reflexivity.
  - unfold connectPro. rewrite bind_get. destruct (mModule s); [|reflexivity].
    destruct ((cameraId <? 0) || _); [reflexivity|].
    destruct H as [H|H]; [|discriminate].
    rewrite H. reflexivity.
Qed.

(** X9.  While the policy property reads "1", or when the HAL module is not
    loaded, both overloads of [connect] return null whatever the id, and
    leave the service exactly as it was without calling out. *)
Theorem connect_refused_untouched e s cameraClient cameraId pkg clientUid :
  camera_disabled_property e = "1"%string \/ mModule s = None ->
  connect e cameraClient cameraId pkg clientUid s = (None, s, []) /\
  connectPro e cameraClient cameraId s = (None, s, []).
Proof. exact (connect_refused_run e s cameraClient cameraId pkg clientUid). Qed.

(** ** Observers *)

Lemma getDeviceVersion_legacy_module module cameraId f :
  module_api_version module < CAMERA_MODULE_API_VERSION_2_0 ->
  fst (getDeviceVersion module cameraId f) = -1 \/
  fst (getDeviceVersion module cameraId f) = CAMERA_DEVICE_API_VERSION_1_0.
Proof.
  intros Hv. unfold getDeviceVersion.
  destruct (negb (is_OK (fst (get_camera_info module cameraId))));
    [left; reflexivity|].
  right. cbn [fst]. rewrite Z.geb_leb.
  destruct (Z.leb_spec CAMERA_MODULE_API_VERSION_2_0 (module_api_version module));
    [lia | reflexivity].
Qed.

(** X10.  On a module whose API version is below 2.0 every camera counts as
    a version 1.0 device whatever the HAL reports for it: no observer is
    ever admitted, and [connectPro] leaves the service untouched. *)
Theorem connectPro_legacy_module e s cameraCb cameraId module :
  case_labels_distinct ->
  mModule s = Some module ->
  module_api_version module < CAMERA_MODULE_API_VERSION_2_0 ->
  connectPro e cameraCb cameraId s = (None, s, []).
Proof.
  intros Hd Hm Hv. unfold connectPro. rewrite bind_get, Hm.
  destruct ((cameraId <? 0) || _); [reflexivity|].
  destruct (String.eqb _ _); [reflexivity|]. cbv zeta.
  destruct (getDeviceVersion_legacy_module module cameraId (-1) Hv) as [E|E].
  - destruct (switch_rejected _ Hd (or_introl E)) as [-> | ->]; reflexivity.
  - rewrite (switch_1_0 _ E). reflexivity.
Qed.

(** X11.  An observer request that passes the guards on a device of
    version 2.0 or 2.1, and whose [initialize] succeeds, is granted whether
    or not the camera has an owner or is busy: the new observer is put at
    the end of the camera's list and gets a death link, while the owners,
    the busy flags and the sound reference count stay as they are. *)
Theorem connectPro_granted e s cameraCb cameraId module :
  case_labels_distinct ->
  mModule s = Some module ->
  0 <= cameraId < mNumberOfCameras s ->
  camera_disabled_property e <> "1"%string ->
  fst (getDeviceVersion module cameraId (-1)) = CAMERA_DEVICE_API_VERSION_2_0 \/
  fst (getDeviceVersion module cameraId (-1)) = CAMERA_DEVICE_API_VERSION_2_1 ->
  is_OK (initialize_result e) = true ->
  let r := connectPro e cameraCb cameraId s in
  let c := length (heap s) in
  result r = Some c /\
  trace r = [EvNew ProCamera2Client c; EvInitialize c; EvLinkToDeath cameraCb] /\
  heap (state r) =
    heap s ++ [BasicClient_ctor ProCamera2Client cameraCb EmptyString cameraId
                 (snd (getDeviceVersion module cameraId (-1)))
                 (getCallingPid e) USE_CALLING_UID (getpid e)] /\
  (forall j, mProClientList (state r) j =
             if j =? cameraId then mProClientList s cameraId ++ [c]
             else mProClientList s j) /\
  mClient (state r) = mClient s /\
  mBusy (state r) = mBusy s /\
  mSoundRef (state r) = mSoundRef s /\
  mSoundPlayer (state r) = mSoundPlayer s.
Proof.
  intros Hd Hm Hr Hp Hv Hok. cbv zeta.
  unfold connectPro. rewrite bind_get, Hm.
  rewrite (in_range_test _ _ Hr), (enabled_property_test _ Hp). cbv zeta.
  rewrite (switch_2_0_2_1 _ Hd Hv).
  rewrite (bind_run _ _ _ _ _ _ (ProClient_ctor_run _ _ _ _ _ _ _ _ _)).
  rewrite bind_emit, Hok. cbn [negb].
  rewrite bind_get, bind_modify, bind_emit.
  cbn [result state trace fst snd app ret].
  repeat split.
Qed.

(** ** What a refused connect leaves behind *)

Lemma keeps_lookup_update_obj c c' g :
  c <> c' -> keeps (fun s => heap s !! c') (update_obj c g).
Proof.
  intros Hne s. unfold update_obj, modify, state. cbn [fst snd heap set_heap].
  apply list_lookup_alter_ne, Hne.
Qed.

#[local] Hint Resolve keeps_lookup_update_obj : cam.

Lemma destroy_other_objects c c' :
  c <> c' -> keeps (fun s => heap s !! c') (destroy c).
Proof. intros Hne. keeps_tac. Qed.

Lemma destroy_dead c s o :
  heap s !! c = Some o ->
  field_at refs c (state (destroy c s)) = Some Dead.
Proof.
  intros Ho. unfold destroy. rewrite !state_bind.
  match goal with
  | |- field_at refs c (state (update_obj c (set_refs Dead) ?x)) = _ =>
      set (s3 := x)
  end.
  assert (F : field_at kind c s3 = Some (kind o)).
  { unfold s3. rewrite keeps_with_obj.
    - unfold field_at, update_obj, modify, state. cbn [fst snd heap set_heap].
      rewrite list_lookup_alter_eq, Ho. reflexivity.
    - intros o1. keeps_tac. }
  unfold field_at in *. unfold update_obj, modify, state.
  cbn [fst snd heap set_heap]. rewrite list_lookup_alter_eq.
  destruct (heap s3 !! c); [reflexivity | discriminate].
Qed.

Lemma destroy_exclusive c s o :
  heap s !! c = Some o ->
  is_exclusive (kind o) = true ->
  mBusy (state (destroy c s)) = upd (mBusy s) (mCameraId o) 0 /\
  mSoundRef (state (destroy c s)) = mSoundRef s - 1 /\
  hal_view (state (destroy c s)) = hal_view s.
Proof.
  intros Ho Hx. unfold destroy. rewrite !state_bind.
  set (s1 := state (update_obj c (set_refs Dying) s)).
  assert (Ho1 : heap s1 !! c = Some (set_refs Dying o)).
  { unfold s1, update_obj, modify, state. cbn [fst snd heap set_heap].
    rewrite list_lookup_alter_eq, Ho. reflexivity. }
  rewrite (with_obj_at _ _ _ _ _ Ho1). cbn [kind set_refs]. rewrite Hx.
  rewrite state_bind.
  destruct (Client_dtor_frees_last c s1 _ Ho1) as (pre & s_pre & _ & _ & Hb & Hs).
  cbn [mCameraId set_refs] in Hs.
  assert (K1 : keeps mBusy (BasicClient_dtor c)) by keeps_tac.
  assert (K2 : keeps mSoundRef (BasicClient_dtor c)) by keeps_tac.
  assert (K3 : forall m : M unit, keeps hal_view m -> forall s0,
             hal_view (state (m s0)) = hal_view s0) by (intros m H; exact H).
  split; [|split].
  - unfold update_obj at 1, modify, state at 1. cbn [fst snd mBusy set_heap].
    rewrite K1, Hs. cbn [mBusy set_mBusy]. rewrite Hb. reflexivity.
  - unfold update_obj at 1, modify, state at 1. cbn [fst snd mSoundRef set_heap].
    rewrite K2, Client_dtor_mSoundRef. reflexivity.
  - unfold update_obj at 1, modify, state at 1. cbn [fst snd].
    change (hal_view (set_heap ?h ?x)) with (hal_view x).
    rewrite (K3 (BasicClient_dtor c)) by keeps_tac.
    rewrite (K3 (Client_dtor c)) by keeps_tac. reflexivity.
Qed.

(** A construction followed by a failed [initialize]: the object is
    destroyed on the way out. *)
Lemma construct_refused e k r pkg id f pid uid spid s :
  is_exclusive k = true ->
  is_OK (initialize_result e) = false ->
  mBusy s id = 0 ->
  let run := bind (Client_ctor e k r pkg id f pid uid spid)
               (fun c => connect_initialize e r id c) s in
  result run = None /\
  mSoundRef (state run) = mSoundRef s /\
  (forall j, mBusy (state run) j = mBusy s j) /\
  (forall c, promote (state run) c = promote s c) /\
  hal_view (state run) = hal_view s.
Proof.
  intros Hx Hfail Hb. cbv zeta.
  rewrite result_bind, state_bind, connect_initialize_result, Hfail.
  rewrite Client_ctor_result.
  set (s1 := state (Client_ctor e k r pkg id f pid uid spid s)).
  set (o := BasicClient_ctor k r pkg id f pid uid spid).
  assert (Hh : heap s1 = heap s ++ [o]) by apply Client_ctor_heap.
  assert (Ho : heap s1 !! length (heap s) = Some o).
  { rewrite Hh, lookup_app_r, Nat.sub_diag by reflexivity. reflexivity. }
  assert (Hs : state (connect_initialize e r id (length (heap s)) s1) =
               state (destroy (length (heap s)) s1)).
  { unfold connect_initialize. rewrite bind_emit, Hfail. cbn [negb].
    unfold state at 1. cbn [fst snd]. rewrite state_bind. reflexivity. }
  rewrite Hs.
  destruct (destroy_exclusive _ _ _ Ho Hx) as (D1 & D2 & D3).
  split; [reflexivity|]. split; [|split; [|split]].
  - rewrite D2. unfold s1. rewrite Client_ctor_mSoundRef. lia.
  - intros j. rewrite D1. unfold s1. rewrite Client_ctor_busy_flags.
    unfold upd. cbn [mCameraId o BasicClient_ctor].
    destruct (Z.eqb_spec j id) as [->|]; [symmetry; exact Hb | reflexivity].
  - intros c. unfold promote.
    destruct (Nat.eq_dec (length (heap s)) c) as [<-|Hne].
    + pose proof (destroy_dead _ _ _ Ho) as Hd. unfold field_at in Hd.
      destruct (heap (state (destroy (length (heap s)) s1)) !! length (heap s))
        as [o'|]; [|discriminate].
      cbn in Hd. injection Hd as ->.
      rewrite (proj2 (lookup_ge_None (heap s) (length (heap s)))) by lia.
      reflexivity.
    + rewrite (destroy_other_objects _ _ Hne), Hh.
      destruct (Nat.lt_ge_cases c (length (heap s))) as [Hlt|Hge].
      * rewrite lookup_app_l by exact Hlt. reflexivity.
      * rewrite (proj2 (lookup_ge_None (heap s ++ [o]) c))
          by (rewrite length_app; cbn; lia).
        rewrite (proj2 (lookup_ge_None (heap s) c)) by lia. reflexivity.
  - rewrite D3. pose proof (Client_ctor_registry e k r pkg id f pid uid spid s) as H.
    cbv beta in H. fold s1 in H. congruence.
Qed.

Lemma connect_unowned_refused e module r id pkg pid uid s :
  result (connect_unowned e module r id pkg pid uid s) = None ->
  mSoundRef (state (connect_unowned e module r id pkg pid uid s)) = mSoundRef s /\
  (forall j, mBusy (state (connect_unowned e module r id pkg pid uid s)) j = mBusy s j) /\
  (forall c, promote (state (connect_unowned e module r id pkg pid uid s)) c
             = promote s c) /\
  hal_view (state (connect_unowned e module r id pkg pid uid s)) = hal_view s.
Proof.
  unfold connect_unowned. rewrite bind_get.
  destruct (Z.eqb_spec (mBusy s id) 0) as [Hb|Hb]; cbn [negb]; [|repeat split].
  cbv zeta. destruct (switch_deviceVersion _); try solve [repeat split].
  - intros Hres.
    assert (Hfail : is_OK (initialize_result e) = false).
    { rewrite result_bind, connect_initialize_result in Hres.
      destruct (is_OK (initialize_result e)); [discriminate | reflexivity]. }
    destruct (construct_refused e CameraClient r pkg id
                (snd (getDeviceVersion module id (-1))) pid uid (getpid e) s
                eq_refl Hfail Hb) as (_ & H).
    exact H.
  - intros Hres.
    assert (Hfail : is_OK (initialize_result e) = false).
    { rewrite result_bind, connect_initialize_result in Hres.
      destruct (is_OK (initialize_result e)); [discriminate | reflexivity]. }
    destruct (construct_refused e Camera2Client r pkg id
                (snd (getDeviceVersion module id (-1))) pid uid (getpid e) s
                eq_refl Hfail Hb) as (_ & H).
    exact H.
Qed.

(** X12.  A connect request that ends with a null handle, for whatever
    reason (a guard, another owner, a busy slot, an unknown version, a
    failed [initialize]), leaves no client behind: the sound reference
    count, every busy flag, the set of live objects and the HAL data are as
    before. *)
Theorem connect_refused_leaves_no_client e cameraClient cameraId pkg clientUid s :
  result (connect e cameraClient cameraId pkg clientUid s) = None ->
  mSoundRef (state (connect e cameraClient cameraId pkg clientUid s)) = mSoundRef s /\
  (forall j, mBusy (state (connect e cameraClient cameraId pkg clientUid s)) j
             = mBusy s j) /\
  (forall c, promote (state (connect e cameraClient cameraId pkg clientUid s)) c
             = promote s c) /\
  hal_view (state (connect e cameraClient cameraId pkg clientUid s)) = hal_view s.
Proof.
  unfold connect. destruct (negb _ && negb _); [repeat split|].
  rewrite bind_get. destruct (mModule s) as [module|]; [|repeat split].
  destruct ((cameraId <? 0) || _); [repeat split|].
  destruct (String.eqb _ _); [repeat split|].
  destruct (mClient s cameraId) as [w|].
  - destruct (promote s w) as [o|].
    + destruct (Nat.eqb cameraClient (getCameraClient o)); repeat split.
    + rewrite bind_modify. intros Hres.
      apply connect_unowned_refused in Hres. exact Hres.
  - apply connect_unowned_refused.
Qed.

(** ** The registry stays well-formed *)

Lemma fmap_alter_same {T U} (f : T -> U) g c (l : list T) :
  (forall x, f (g x) = f x) -> f <$> alter g c l = f <$> l.
Proof.
  intros Hg. revert c. induction l as [|x l IH]; intros [|c]; cbn; try reflexivity.
  - rewrite Hg. reflexivity.
  - f_equal. apply IH.
Qed.

Lemma keeps_wf_view_update_obj c g :
  (forall o, class_and_camera (g o) = class_and_camera o) ->
  keeps wf_view (update_obj c g).
Proof.
  intros Hg s. unfold wf_view, update_obj, modify, state.
  cbn [fst snd heap set_heap mNumberOfCameras mClient mProClientList].
  rewrite (fmap_alter_same _ _ _ _ Hg). reflexivity.
Qed.

#[local] Hint Resolve keeps_wf_view_update_obj : cam.

Lemma lookup_class_and_camera s s' c o' :
  class_and_camera <$> heap s' = class_and_camera <$> heap s ->
  heap s' !! c = Some o' ->
  exists o, heap s !! c = Some o /\ kind o = kind o' /\ mCameraId o = mCameraId o'.
Proof.
  intros Hv Ho'.
  assert (H : (class_and_camera <$> heap s) !! c = Some (class_and_camera o')).
  { rewrite <- Hv, list_lookup_fmap, Ho'. reflexivity. }
  rewrite list_lookup_fmap in H. destruct (heap s !! c) as [o|]; [|discriminate].
  cbn in H. unfold class_and_camera in H. injection H as H1 H2.
  exists o. auto.
Qed.

Lemma registry_wf_view s s' :
  wf_view s' = wf_view s -> registry_wf s -> registry_wf s'.
Proof.
  unfold wf_view. intros Hv (W1 & W2 & W3).
  injection Hv as Hn Hc Hl Hh.
  assert (Hback : forall c o, heap s !! c = Some o ->
            exists o', heap s' !! c = Some o' /\ kind o' = kind o /\
                       mCameraId o' = mCameraId o).
  { intros c o Ho. apply (lookup_class_and_camera s' s c o); [symmetry|]; assumption. }
  unfold registry_wf, in_range. rewrite Hn, Hc, Hl. split; [|split].
  - intros i c Hi. destruct (W1 i c Hi) as (Hr & o & Ho & Hx & Hid).
    split; [exact Hr|]. destruct (Hback c o Ho) as (o' & Ho' & Hk & Hcid).
    exists o'. rewrite Hk, Hcid. auto.
  - intros i p Hi. destruct (W2 i p Hi) as (Hr & o & Ho & Hx & Hid).
    split; [exact Hr|]. destruct (Hback p o Ho) as (o' & Ho' & Hk & Hcid).
    exists o'. rewrite Hk, Hcid. auto.
  - intros c o' Ho'.
    destruct (lookup_class_and_camera s s' c o' Hh Ho') as (o & Ho & _ & Hcid).
    rewrite <- Hcid. apply (W3 c o Ho).
Qed.

Lemma preserves_of_keeps_view {A} (m : M A) :
  keeps wf_view m -> preserves registry_wf m.
Proof. intros Hk s Hw. apply (registry_wf_view s); [apply Hk | exact Hw]. Qed.

Lemma preserves_bind {A B} P (m : M A) (k : A -> M B) :
  preserves P m -> (forall a, preserves P (k a)) -> preserves P (bind m k).
Proof. intros Hm Hk s Hs. rewrite state_bind. apply Hk, Hm, Hs. Qed.

Lemma preserves_ret {A} P (a : A) : preserves P (ret a).
Proof. intros s Hs. exact Hs. Qed.

Lemma preserves_with_obj {A} P c (d : A) k :
  (forall o, preserves P (k o)) -> preserves P (with_obj c d k).
Proof.
  intros Hk s Hs. unfold with_obj. rewrite bind_get.
  destruct (heap s !! c); [apply Hk, Hs | exact Hs].
Qed.

Lemma registry_wf_clear i s : registry_wf s -> registry_wf (set_mClient i None s).
Proof.
  intros (W1 & W2 & W3). split; [|split]; [|exact W2 | exact W3].
  intros j c. rewrite mClient_set_mClient.
  destruct (j =? i); [discriminate|]. apply W1.
Qed.

Lemma preserves_clear i : preserves registry_wf (modify (set_mClient i None)).
Proof. intros s Hs. apply registry_wf_clear, Hs. Qed.

Lemma preserves_findClientUnsafe_loop n i who :
  preserves registry_wf (findClientUnsafe_loop n i who).
Proof.
  revert i. induction n as [|n IH]; intros i s Hs; [exact Hs|].
  cbn [findClientUnsafe_loop]. rewrite bind_get.
  destruct (mClient s i) as [w|]; [|apply IH, Hs].
  destruct (promote s w) as [o|].
  - destruct (Nat.eqb who (getCameraClient o)); [exact Hs | apply IH, Hs].
  - rewrite bind_modify. apply IH, registry_wf_clear, Hs.
Qed.

Lemma registry_wf_prune i l s :
  (forall p, In p l -> In p (mProClientList s i)) ->
  registry_wf s -> registry_wf (set_mProClientList i l s).
Proof.
  intros Hincl (W1 & W2 & W3). split; [|split]; [exact W1 | | exact W3].
  intros j p. rewrite mProClientList_set.
  destruct (Z.eqb_spec j i) as [->|Hne]; [|apply W2].
  intros Hin. apply (W2 i p), Hincl, Hin.
Qed.

Lemma preserves_findProClientUnsafe_loop n i who acc :
  preserves registry_wf (findProClientUnsafe_loop n i who acc).
Proof.
  revert i acc. induction n as [|n IH]; intros i acc s Hs; [exact Hs|].
  cbn [findProClientUnsafe_loop]. rewrite bind_get, bind_modify.
  apply IH, registry_wf_prune; [|exact Hs].
  intros p. rewrite findPro_scan_remove. apply prune_until_match_incl.
Qed.

Ltac wf_step :=
  cbv beta zeta;
  lazymatch goal with
  | |- preserves registry_wf ?m =>
      first
        [ apply preserves_of_keeps_view; solve [keeps_tac]
        | lazymatch m with
          | bind _ _ => apply preserves_bind; [ | intros ]
          | with_obj _ _ _ => apply preserves_with_obj; intros
          | ret _ => apply preserves_ret
          | modify (set_mClient _ None) => apply preserves_clear
          | findClientUnsafe_loop _ _ _ => apply preserves_findClientUnsafe_loop
          | findProClientUnsafe_loop _ _ _ _ =>
              apply preserves_findProClientUnsafe_loop
          | (if ?b then _ else _) => destruct b
          | (match ?x with _ => _ end) => destruct x
          | _ => progress autounfold with cam_unfold
          end ]
  end.

Ltac wf_tac := repeat wf_step.

Lemma destroy_wf c : preserves registry_wf (destroy c).
Proof. wf_tac. Qed.

Lemma registry_wf_extend s s' o :
  registry_wf s ->
  heap s' = heap s ++ [o] ->
  in_range s (mCameraId o) ->
  mClient s' = mClient s ->
  mProClientList s' = mProClientList s ->
  mNumberOfCameras s' = mNumberOfCameras s ->
  registry_wf s'.
Proof.
  intros (W1 & W2 & W3) Hh Hr Hc Hl Hn.
  assert (Hold : forall c x, heap s !! c = Some x -> heap s' !! c = Some x).
  { intros c x Hx. rewrite Hh, lookup_app_l; [exact Hx|].
    apply (lookup_lt_Some _ _ _ Hx). }
  unfold registry_wf, in_range in *. rewrite Hc, Hl, Hn. split; [|split].
  - intros i c Hi. destruct (W1 i c Hi) as (Hri & x & Hx & H).
    split; [exact Hri|]. exists x. split; [apply Hold, Hx | exact H].
  - intros i p Hi. destruct (W2 i p Hi) as (Hri & x & Hx & H).
    split; [exact Hri|]. exists x. split; [apply Hold, Hx | exact H].
  - intros c x Hx. rewrite Hh in Hx.
    destruct (Nat.lt_ge_cases c (length (heap s))) as [Hlt|Hge].
    + rewrite lookup_app_l in Hx by exact Hlt. apply (W3 c x Hx).
    + rewrite lookup_app_r in Hx by exact Hge.
      destruct (c - length (heap s))%nat; cbn in Hx; [|discriminate].
      injection Hx as <-. exact Hr.
Qed.

Lemma registry_wf_register s id c o :
  registry_wf s ->
  in_range s id ->
  heap s !! c = Some o ->
  is_exclusive (kind o) = true ->
  mCameraId o = id ->
  registry_wf (set_mClient id (Some c) s).
Proof.
  intros (W1 & W2 & W3) Hr Ho Hx Hid. split; [|split]; [|exact W2 | exact W3].
  intros j w. rewrite mClient_set_mClient.
  destruct (Z.eqb_spec j id) as [->|Hne]; [|apply W1].
  intros [= <-]. split; [exact Hr|]. exists o. auto.
Qed.

Lemma connect_initialize_wf e r id c s o :
  registry_wf s ->
  in_range s id ->
  heap s !! c = Some o ->
  is_exclusive (kind o) = true ->
  mCameraId o = id ->
  registry_wf (state (connect_initialize e r id c s)).
Proof.
  intros Hw Hr Ho Hx Hid. unfold connect_initialize. rewrite bind_emit.
  unfold state at 1. cbn [fst snd].
  destruct (negb (is_OK (initialize_result e))).
  - rewrite state_bind. cbn [ret state fst snd]. apply destroy_wf, Hw.
  - rewrite bind_emit, bind_modify. cbn [ret state fst snd].
    apply (registry_wf_register _ _ _ _ Hw Hr Ho Hx Hid).
Qed.

Lemma construct_wf e k r pkg id f pid uid spid s :
  registry_wf s ->
  in_range s id ->
  is_exclusive k = true ->
  registry_wf (state (bind (Client_ctor e k r pkg id f pid uid spid)
                        (fun c => connect_initialize e r id c) s)).
Proof.
  intros Hw Hr Hx. rewrite state_bind.
  pose proof (Client_ctor_registry e k r pkg id f pid uid spid s) as Hreg.
  cbv beta in Hreg. unfold hal_view in Hreg. injection Hreg as R1 R2 R3 R4.
  pose proof (Client_ctor_heap e k r pkg id f pid uid spid s) as Hh.
  apply (connect_initialize_wf _ _ _ _ _ (BasicClient_ctor k r pkg id f pid uid spid)).
  - apply (registry_wf_extend s _ _ Hw Hh); [exact Hr | assumption ..].
  - unfold in_range in *. rewrite R4. exact Hr.
  - apply new_client_lookup.
  - exact Hx.
  - reflexivity.
Qed.

Lemma connect_wf e r id pkg uid : preserves registry_wf (connect e r id pkg uid).
Proof.
  intros s Hw. unfold connect. destruct (negb _ && negb _); [exact Hw|].
  rewrite bind_get. destruct (mModule s) as [module|]; [|exact Hw].
  destruct ((id <? 0) || _) eqn:Hr; [exact Hw|].
  apply orb_false_iff in Hr. destruct Hr as [Hr1 Hr2].
  apply Z.ltb_ge in Hr1. rewrite Z.geb_leb in Hr2. apply Z.leb_gt in Hr2.
  destruct (String.eqb _ _); [exact Hw|].
  assert (Hun : forall s0 pid' uid',
            registry_wf s0 -> in_range s0 id ->
            registry_wf (state (connect_unowned e module r id pkg pid' uid' s0))).
  { intros s0 pid' uid' Hw0 Hr0. unfold connect_unowned. rewrite bind_get.
    destruct (negb (mBusy s0 id =? 0)); [exact Hw0|]. cbv zeta.
    destruct (switch_deviceVersion _); try exact Hw0;
      apply construct_wf; auto. }
  destruct (mClient s id) as [w|].
  - destruct (promote s w) as [o|].
    + destruct (Nat.eqb r (getCameraClient o)); exact Hw.
    + rewrite bind_modify. apply Hun; [apply registry_wf_clear, Hw|].
      unfold in_range. cbn [mNumberOfCameras set_mClient]. lia.
  - apply Hun; [exact Hw | unfold in_range; lia].
Qed.

Lemma registry_wf_observe s id c o :
  registry_wf s ->
  in_range s id ->
  heap s !! c = Some o ->
  is_exclusive (kind o) = false ->
  mCameraId o = id ->
  registry_wf (set_mProClientList id (mProClientList s id ++ [c]) s).
Proof.
  intros (W1 & W2 & W3) Hr Ho Hx Hid. split; [|split]; [exact W1 | | exact W3].
  intros j p. rewrite mProClientList_set.
  destruct (Z.eqb_spec j id) as [->|Hne]; [|apply W2].
  intros Hin. apply in_app_or in Hin. destruct Hin as [Hin|[<-|[]]].
  - apply (W2 id p Hin).
  - split; [exact Hr|]. exists o. auto.
Qed.

Lemma connectPro_wf e r id : preserves registry_wf (connectPro e r id).
Proof.
  intros s Hw. unfold connectPro. rewrite bind_get.
  destruct (mModule s) as [module|]; [|exact Hw].
  destruct ((id <? 0) || _) eqn:Hr; [exact Hw|].
  apply orb_false_iff in Hr. destruct Hr as [Hr1 Hr2].
  apply Z.ltb_ge in Hr1. rewrite Z.geb_leb in Hr2. apply Z.leb_gt in Hr2.
  destruct (String.eqb _ _); [exact Hw|]. cbv zeta.
  destruct (switch_deviceVersion _); try exact Hw.
  rewrite (bind_run _ _ _ _ _ _ (ProClient_ctor_run _ _ _ _ _ _ _ _ _)).
  unfold state at 1. cbn [fst snd].
  match goal with |- context [set_heap (heap s ++ [?x]) s] =>
    set (o := x); set (s1 := set_heap (heap s ++ [o]) s) end.
  assert (Hw1 : registry_wf s1).
  { apply (registry_wf_extend s s1 o Hw); try reflexivity.
    unfold in_range. cbn. lia. }
  assert (H1 : heap s1 !! length (heap s) = Some o).
  { unfold s1. cbn [heap set_heap]. rewrite lookup_app_r by reflexivity.
    rewrite Nat.sub_diag. reflexivity. }
  rewrite bind_emit. unfold state at 1. cbn [fst snd].
  destruct (negb (is_OK (initialize_result e))).
  - rewrite state_bind. cbn [ret state fst snd]. apply destroy_wf, Hw1.
  - rewrite bind_get, bind_modify, bind_emit. cbn [ret state fst snd].
    apply (registry_wf_observe s1 id _ o Hw1); try reflexivity; [|exact H1].
    unfold in_range. cbn. lia.
Qed.

Lemma run_wf a : preserves registry_wf (run a).
Proof.
  destruct a; unfold run;
    try (apply preserves_bind; [first [apply connect_wf | apply connectPro_wf]
                               | intros; apply preserves_ret]);
    wf_tac.
Qed.

Lemma start_wf hw n b : registry_wf (start hw n b) /\ heap (start hw n b) = [].
Proof.
  unfold start.
  assert (Hk : keeps (fun s => (mClient s, mProClientList s, heap s)) (onFirstRef hw))
    by (unfold onFirstRef; keeps_tac).
  specialize (Hk (CameraService_ctor n b)). cbv beta in Hk. cbn in Hk.
  injection Hk as H1 H2 H3.
  split; [|exact H3].
  split; [|split].
  - intros i c. rewrite H1. discriminate.
  - intros i p. rewrite H2. intros [].
  - intros c o. rewrite H3. rewrite lookup_nil. discriminate.
Qed.

Lemma reachable_wf s :
  0 <= MAX_CAMERAS ->
  reachable s ->
  registry_wf s /\ mNumberOfCameras s <= MAX_CAMERAS.
Proof.
  intros Hmax (hw & n & b & H). split.
  - induction H as [|s a _ IH _]; [apply start_wf|]. apply run_wf, IH.
  - apply reachable_from_hal_view in H. unfold hal_view in H. injection H as _ ->.
    unfold start. rewrite onFirstRef_count.
    destruct hw as [module|].
    + destruct (Z.gtb_spec (get_number_of_cameras module) MAX_CAMERAS); lia.
    + exact Hmax.
Qed.

(** X13.  In every state the service reaches, each registered owner is an
    exclusive client that was created for the slot it is registered in,
    each listed observer was created for the camera whose list it is on,
    and every client object was created for a camera id inside
    [0, numberOfCameras); the number of cameras is at most [MAX_CAMERAS],
    the size of the arrays. *)
Theorem reachable_registry_wf s :
  0 <= MAX_CAMERAS ->
  reachable s ->
  registry_wf s /\ mNumberOfCameras s <= MAX_CAMERAS.
Proof. exact (reachable_wf s). Qed.

(** ** Without a HAL module *)

Lemma keeps_length_update_obj c g :
  keeps (fun s => length (heap s)) (update_obj c g).
Proof.
  intros s. unfold update_obj, modify, state. cbn [fst snd heap set_heap].
  apply length_alter.
Qed.

#[local] Hint Resolve keeps_length_update_obj : cam.

Lemma run_without_module a s :
  mModule s = None ->
  length (heap (state (run a s))) = length (heap s).
Proof.
  intros Hm.
  destruct a; unfold run;
    try (match goal with |- length (heap (state (?m s))) = _ =>
           assert (Hk : keeps (fun s => length (heap s)) m) by keeps_tac;
           apply Hk end).
  - rewrite state_bind.
    rewrite (proj1 (connect_refused_run e s cameraClient cameraId
                      clientPackageName clientUid (or_intror Hm))).
    reflexivity.
  - rewrite state_bind.
    rewrite (proj2 (connect_refused_run e s cameraCb cameraId
                      EmptyString 0 (or_intror Hm))).
    reflexivity.
Qed.

(** X14.  If the HAL module fails to load, no client object is ever
    created: in every state reached from that start-up the module is still
    missing, the camera count is 0, there is no object, every connect of
    either kind returns null and [getCameraInfo] answers [NO_INIT]. *)
Theorem without_module_nothing_connects n b s :
  reachable_from (start None n b) s ->
  mModule s = None /\
  mNumberOfCameras s = 0 /\
  heap s = [] /\
  (forall e r id pkg uid,
     connect e r id pkg uid s = (None, s, []) /\
     connectPro e r id s = (None, s, [])) /\
  (forall id, getCameraInfo id s = ((NO_INIT, None), s, [])).
Proof.
  intros H.
  assert (Hv : hal_view s = (None, 0)).
  { rewrite (reachable_from_hal_view _ _ H). reflexivity. }
  unfold hal_view in Hv. injection Hv as Hm Hn.
  assert (Hh : heap s = []).
  { apply length_zero_iff_nil.
    induction H as [|s a Hreach IH _]; [reflexivity|].
    assert (Hv : hal_view s = (None, 0))
      by (rewrite (reachable_from_hal_view _ _ Hreach); reflexivity).
    unfold hal_view in Hv. injection Hv as Hm' Hn'.
    rewrite (run_without_module a s Hm'). apply IH; assumption. }
  split; [exact Hm|]. split; [exact Hn|]. split; [exact Hh|]. split.
  - intros. apply connect_refused_run. right. exact Hm.
  - intros id. unfold getCameraInfo. rewrite bind_get, Hm. reflexivity.
Qed.

(** ** Lookups for hardware callbacks *)

Lemma Client_dtor_marks c s o :
  heap s !! c = Some o ->
  field_at mDestructionStarted c (state (Client_dtor c s)) = Some true.
Proof.
  intros Ho. unfold Client_dtor. rewrite !state_bind.
  unfold field_at at 1. rewrite Client_disconnect_heap.
  match goal with |- mDestructionStarted <$> heap ?x !! c = _ =>
    change (field_at mDestructionStarted c x = Some true) end.
  rewrite finishCameraOps_field, releaseSound_field by reflexivity.
  unfold field_at, update_obj, modify, emit, state, result.
  cbn [fst snd heap set_heap].
  rewrite list_lookup_alter_eq, Ho. reflexivity.
Qed.

Lemma getClientByIdUnsafe_run cameraId s :
  getClientByIdUnsafe cameraId s =
    (if (cameraId <? 0) || (cameraId >=? mNumberOfCameras s) then None
     else mClient s cameraId, s, []).
Proof.
  unfold getClientByIdUnsafe. rewrite bind_get.
  destruct ((cameraId <? 0) || _); reflexivity.
Qed.

Lemma getClientFromCookie_run user s :
  getClientFromCookie user s =
    (match (if (user <? 0) || (user >=? mNumberOfCameras s) then None
            else mClient s user) with
     | None => None
     | Some c =>
         match heap s !! c with
         | Some o => if mDestructionStarted o then None else Some c
         | None => None
         end
     end, s, []).
Proof.
  unfold getClientFromCookie.
  rewrite (bind_silent _ _ _ _ _ (getClientByIdUnsafe_run user s)).
  destruct (if (user <? 0) || _ then None else mClient s user) as [c|];
    [|reflexivity].
  unfold with_obj. rewrite bind_get.
  destruct (heap s !! c) as [o|]; [|reflexivity].
  destruct (mDestructionStarted o); reflexivity.
Qed.

(** X15.  [getClientFromCookie] only reads.  The client it returns is the
    one registered in the slot named by the cookie, the cookie is a valid
    camera id, and the destruction of that client has not started; from
    the moment [~Client] has run on a client, no cookie yields it. *)
Theorem getClientFromCookie_not_in_destruction user s :
  getClientFromCookie user s = (result (getClientFromCookie user s), s, []) /\
  (forall c, result (getClientFromCookie user s) = Some c ->
     in_range s user /\ mClient s user = Some c /\
     field_at mDestructionStarted c s = Some false) /\
  (forall c o, heap s !! c = Some o ->
     result (getClientFromCookie user (state (Client_dtor c s))) <> Some c).
Proof.
  assert (Hspec : forall s0 c,
            result (getClientFromCookie user s0) = Some c ->
            in_range s0 user /\ mClient s0 user = Some c /\
            field_at mDestructionStarted c s0 = Some false).
  { intros s0 c. rewrite getClientFromCookie_run. unfold result, in_range.
    cbn [fst].
    destruct ((user <? 0) || _) eqn:Hr; [discriminate|].
    apply orb_false_iff in Hr. destruct Hr as [Hr1 Hr2].
    apply Z.ltb_ge in Hr1. rewrite Z.geb_leb in Hr2. apply Z.leb_gt in Hr2.
    destruct (mClient s0 user) as [w|]; [|discriminate].
    unfold field_at.
    destruct (heap s0 !! w) as [o|] eqn:Ho; [|discriminate].
    destruct (mDestructionStarted o) eqn:Hd; [discriminate|].
    intros [= <-]. rewrite Ho. cbn. rewrite Hd. split; [lia|]. auto. }
  split; [rewrite getClientFromCookie_run; reflexivity|].
  split; [apply Hspec|].
  intros c o Ho Hres. apply Hspec in Hres. destruct Hres as (_ & _ & Hf).
  rewrite (Client_dtor_marks _ _ _ Ho) in Hf. discriminate.
Qed.

(** ** Sounds *)

Lemma loadSound_run e s :
  loadSound e s =
    (tt,
     if mSoundRef s =? 0
     then set_mSoundPlayer SOUND_RECORDING (newMediaPlayer e (sound_file SOUND_RECORDING))
            (set_mSoundPlayer SOUND_SHUTTER (newMediaPlayer e (sound_file SOUND_SHUTTER))
               (set_mSoundRef (mSoundRef s + 1) s))
     else set_mSoundRef (mSoundRef s + 1) s,
     [EvLoadSound]).
Proof.
  unfold loadSound. rewrite bind_emit, bind_get, bind_modify.
  destruct (mSoundRef s =? 0); cbn [negb]; [|reflexivity].
  rewrite bind_modify. reflexivity.
Qed.

(** X16.  The sounds are loaded by the first reference only.  When the
    count goes from 0 to 1, each kind gets a player if and only if its file
    can be opened, one failure not affecting the other kind, and
    [playSound] then starts exactly the kinds that loaded; with the count
    already positive, [loadSound] adds one to it and leaves the players as
    they are. *)
Theorem loadSound_first_reference e s :
  mSoundRef (state (loadSound e s)) = mSoundRef s + 1 /\
  (mSoundRef s = 0 ->
   forall k,
     mSoundPlayer (state (loadSound e s)) k = newMediaPlayer e (sound_file k) /\
     trace (playSound k (state (loadSound e s))) =
       if is_OK (setDataSource e (sound_file k)) then [EvPlayerStart k] else []) /\
  (mSoundRef s <> 0 ->
   forall k, mSoundPlayer (state (loadSound e s)) k = mSoundPlayer s k).
Proof.
  rewrite loadSound_run. cbn [state fst snd]. split; [|split].
  - destruct (mSoundRef s =? 0); reflexivity.
  - intros Hz k. rewrite Hz. cbn [Z.eqb].
    assert (Hp : mSoundPlayer
                   (set_mSoundPlayer SOUND_RECORDING
                      (newMediaPlayer e (sound_file SOUND_RECORDING))
                      (set_mSoundPlayer SOUND_SHUTTER
                         (newMediaPlayer e (sound_file SOUND_SHUTTER))
                         (set_mSoundRef (0 + 1) s))) k
                 = newMediaPlayer e (sound_file k))
      by (destruct k; reflexivity).
    split; [exact Hp|].
    unfold playSound. rewrite bind_get, Hp. unfold newMediaPlayer.
    destruct (is_OK (setDataSource e (sound_file k))); reflexivity.
  - intros Hnz k. apply Z.eqb_neq in Hnz. rewrite Hnz. reflexivity.
Qed.

(** X17.  Taking the first reference to the sounds and giving it back
    restores the idle state: the count is 0 again, no player is left, and
    [playSound] does nothing for any kind. *)
Theorem loadSound_releaseSound_idle e s :
  mSoundRef s = 0 ->
  let s' := state (releaseSound (state (loadSound e s))) in
  mSoundRef s' = 0 /\
  forall k, mSoundPlayer s' k = None /\ playSound k s' = (tt, s', []).
Proof.
  intros Hz. cbv zeta.
  assert (H0 : mSoundRef (state (releaseSound (state (loadSound e s)))) = 0)
    by (rewrite releaseSound_mSoundRef, loadSound_mSoundRef; lia).
  split; [exact H0|]. intros k.
  destruct (releaseSound_to_zero (state (loadSound e s)) k H0) as [Hp _].
  split; [exact Hp|]. unfold playSound. rewrite bind_get, Hp. reflexivity.
Qed.

(** ** The app-ops bracket *)

Lemma startCameraOps_run e c s :
  startCameraOps e c s =
    (if is_MODE_ALLOWED (startOp_result e) then OK else PERMISSION_DENIED,
     if is_MODE_ALLOWED (startOp_result e)
     then set_heap (alter (set_mOpsActive true) c
                      (alter (set_mOpsCallback true) c (heap s))) s
     else set_heap (alter (set_mOpsCallback true) c (heap s)) s,
     [EvStartWatchingMode c; EvStartOp c]).
Proof.
  unfold startCameraOps, update_obj.
  rewrite bind_modify, bind_emit, bind_emit.
  destruct (is_MODE_ALLOWED (startOp_result e)); cbn [negb]; [|reflexivity].
  rewrite bind_modify. destruct s; reflexivity.
Qed.

Lemma finishCameraOps_run c s o :
  heap s !! c = Some o ->
  finishCameraOps c s =
    (OK,
     set_heap (alter (set_mOpsCallback false) c
                 (if mOpsActive o then alter (set_mOpsActive false) c (heap s)
                  else heap s)) s,
     EvFinishCameraOps c ::
       (if mOpsActive o then [EvFinishOp c] else []) ++ [EvStopWatchingMode c]).
Proof.
  intros Ho. destruct s as [m n cl bz pl sr sp h]. cbn [heap] in Ho.
  unfold finishCameraOps, with_obj, update_obj, modify, emit, bind, get, ret.
  cbn [heap set_heap]. rewrite Ho.
  destruct (mOpsActive o); reflexivity.
Qed.

(** X18.  [startCameraOps] and [finishCameraOps] bracket the use of the
    camera op.  The start answers [OK] exactly when app-ops allows the op
    and [PERMISSION_DENIED] otherwise; the following [finishCameraOps]
    reports [finishOp] to app-ops exactly when the start had been allowed,
    always stops the watch, and leaves the client inactive, so that a
    second [finishCameraOps] reports no [finishOp]. *)
Theorem finishCameraOps_pairs_startOp e c s o :
  heap s !! c = Some o ->
  mOpsActive o = false ->
  let s1 := state (startCameraOps e c s) in
  let s2 := state (finishCameraOps c s1) in
  result (startCameraOps e c s) =
    (if is_MODE_ALLOWED (startOp_result e) then OK else PERMISSION_DENIED) /\
  field_at mOpsActive c s1 = Some (is_MODE_ALLOWED (startOp_result e)) /\
  trace (finishCameraOps c s1) =
    EvFinishCameraOps c ::
      (if is_MODE_ALLOWED (startOp_result e) then [EvFinishOp c] else [])
      ++ [EvStopWatchingMode c] /\
  field_at mOpsActive c s2 = Some false /\
  field_at mOpsCallback c s2 = Some false /\
  trace (finishCameraOps c s2) = [EvFinishCameraOps c; EvStopWatchingMode c].
Proof.
  intros Ho Hact. cbv zeta.
  rewrite startCameraOps_run. cbn [result state fst snd].
  set (s1 := if is_MODE_ALLOWED (startOp_result e) then set_heap _ _ else _).
  assert (H1 : exists o1, heap s1 !! c = Some o1 /\
                 mOpsActive o1 = is_MODE_ALLOWED (startOp_result e)).
  { subst s1. destruct (is_MODE_ALLOWED (startOp_result e)).
    - exists (set_mOpsActive true (set_mOpsCallback true o)).
      destruct s; cbn [heap set_heap] in *.
      rewrite !list_lookup_alter_eq, Ho. split; reflexivity.
    - exists (set_mOpsCallback true o).
      destruct s; cbn [heap set_heap] in *.
      rewrite !list_lookup_alter_eq, Ho. split; [reflexivity|].
      destruct o; exact Hact. }
  destruct H1 as (o1 & Ho1 & Hact1).
  split; [reflexivity|].
  split; [unfold field_at; rewrite Ho1; cbn; congruence|].
  rewrite (finishCameraOps_run _ _ _ Ho1), Hact1. cbn [state trace fst snd].
  split; [reflexivity|].
  set (s2 := set_heap _ s1).
  assert (H2 : exists o2, heap s2 !! c = Some o2 /\
                 mOpsActive o2 = false /\ mOpsCallback o2 = false).
  { subst s2. destruct (is_MODE_ALLOWED (startOp_result e)).
    - exists (set_mOpsCallback false (set_mOpsActive false o1)).
      destruct s1; cbn [heap set_heap] in *.
      rewrite !list_lookup_alter_eq, Ho1. repeat split.
    - exists (set_mOpsCallback false o1).
      destruct s1; cbn [heap set_heap] in *.
      rewrite !list_lookup_alter_eq, Ho1. repeat split.
      destruct o1; exact Hact1. }
  destruct H2 as (o2 & Ho2 & Hact2 & Hcb2).
  split; [unfold field_at; rewrite Ho2; cbn; congruence|].
  split; [unfold field_at; rewrite Ho2; cbn; congruence|].
  rewrite (finishCameraOps_run _ _ _ Ho2), Hact2. reflexivity.
Qed.

(** X19.  A notification from app-ops is ignored, with no change of state
    and no action at all, when it is about another op than [OP_CAMERA],
    when the camera op is still allowed for the client, or when the client
    can no longer be promoted. *)
Theorem opChanged_ignored e c op packageName s :
  op <> OP_CAMERA \/
  checkOp_result e = MODE_ALLOWED \/
  promote s c = None ->
  OpsCallback_opChanged e c op packageName s = (tt, s, []).
Proof.
  intros H. unfold OpsCallback_opChanged. rewrite bind_get.
  destruct (promote s c) as [o|] eqn:Hp; [|reflexivity].
  unfold BasicClient_opChanged.
  destruct H as [H | [H | H]]; [| |discriminate].
  - apply Z.eqb_neq in H. rewrite H. reflexivity.
  - rewrite H. destruct (op =? OP_CAMERA); reflexivity.
Qed.

(** ** The diagnostic dump *)

Lemma tryLock_loop_spec n i attempt :
  exists k,
    (k <= n)%nat /\
    snd (tryLock_loop n i attempt) = repeat (DUsleep kDumpLockSleep) k /\
    (forall j, (j < k)%nat -> is_OK (attempt (i + j)%nat) = false) /\
    (fst (tryLock_loop n i attempt) = true ->
       (k < n)%nat /\ is_OK (attempt (i + k)%nat) = true) /\
    (fst (tryLock_loop n i attempt) = false -> k = n).
Proof.
  revert i. induction n as [|n IH]; intros i.
  { exists 0%nat. cbn. repeat split; try lia; discriminate. }
  cbn [tryLock_loop]. destruct (is_OK (attempt i)) eqn:Hi.
  - exists 0%nat. cbn [fst snd repeat]. rewrite Nat.add_0_r.
    repeat split; try lia; try assumption; discriminate.
  - destruct (IH (S i)) as (k & Hk & Hs & Hfail & Hok & Hno).
    exists (S k). cbn [fst snd repeat]. rewrite Hs.
    split; [lia|]. split; [reflexivity|]. split; [|split].
    + intros [|j] Hj; [rewrite Nat.add_0_r; exact Hi|].
      replace (i + S j)%nat with (S i + j)%nat by lia. apply Hfail. lia.
    + intros Ht. destruct (Hok Ht) as [Hlt Hat].
      split; [lia|]. replace (i + S k)%nat with (S i + k)%nat by lia. exact Hat.
    + intros Hf. rewrite (Hno Hf). reflexivity.
Qed.

(** X20.  [tryLock] gives up after [kDumpLockRetries] attempts.  It sleeps
    [kDumpLockSleep] microseconds after each failed attempt and does
    nothing else; it answers true exactly when one of the first fifty
    attempts succeeds, having slept once for every failure before that
    attempt, and false after fifty failures and fifty sleeps. *)
Theorem tryLock_bounded attempt :
  exists k,
    (k <= kDumpLockRetries)%nat /\
    snd (tryLock attempt) = repeat (DUsleep kDumpLockSleep) k /\
    (forall j, (j < k)%nat -> is_OK (attempt j) = false) /\
    (fst (tryLock attempt) = true ->
       (k < kDumpLockRetries)%nat /\ is_OK (attempt k) = true) /\
    (fst (tryLock attempt) = false -> k = kDumpLockRetries).
Proof. exact (tryLock_loop_spec kDumpLockRetries 0 attempt). Qed.

Lemma tryLock_sleeps attempt ev :
  In ev (snd (tryLock attempt)) -> ev = DUsleep kDumpLockSleep.
Proof.
  destruct (tryLock_loop_spec kDumpLockRetries 0 attempt) as (k & _ & Hs & _).
  unfold tryLock. rewrite Hs. apply repeat_spec.
Qed.

Lemma dump_log_level_events d args g ev :
  In ev (fst (dump_log_level d args g)) ->
  (exists l, ev = DSetLogLevel l) \/
  (exists l, ev = DWrite [Format (LF ++ "Setting log level to %d." ++ LF)
                            [ArgInt l]]).
Proof.
  revert g. induction args as [|a rest IH]; intros g; [intros []|].
  cbn [dump_log_level]. destruct rest as [|b rest']; [intros []|].
  destruct (String.eqb a "-v").
  - cbn [fst In]. intros [<- | [<- | H]]; eauto.
  - apply IH.
Qed.

Lemma dump_log_level_last d args b g :
  snd (dump_log_level d (args ++ ["-v"%string; b]) g) = atoi d b.
Proof.
  revert g. induction args as [|a rest IH]; intros g; [reflexivity|].
  cbn [app].
  destruct (rest ++ ["-v"%string; b]) as [|b0 tl] eqn:E.
  { destruct rest; discriminate. }
  cbn [dump_log_level]. destruct (String.eqb a "-v"); cbn [snd]; apply IH.
Qed.

Lemma dump_log_level_none d args g :
  ~ In "-v"%string (removelast args) ->
  dump_log_level d args g = ([], g).
Proof.
  revert g. induction args as [|a rest IH]; intros g Hn; [reflexivity|].
  cbn [dump_log_level]. destruct rest as [|b rest']; [reflexivity|].
  change (removelast (a :: b :: rest')) with (a :: removelast (b :: rest')) in Hn.
  destruct (String.eqb_spec a "-v") as [->|Hne].
  - exfalso. apply Hn. left. reflexivity.
  - apply IH. intros H. apply Hn. right. exact H.
Qed.

Section DumpProperties.

Context {F : FacingConstants}.

Lemma dump_camera_In module s i ev :
  In ev (fst (dump_camera module s i)) ->
  ev <> DUnlock /\ ev <> no_clients_notice /\
  (forall c, ev = DClientDump c -> mClient s i = Some c /\ promote s c <> None).
Proof.
  unfold dump_camera, no_clients_notice.
  destruct (negb (is_OK (fst (get_camera_info module i))));
    [|destruct (_ >=? CAMERA_DEVICE_API_VERSION_2_0)];
    (destruct (mClient s i) as [w|]; [destruct (promote s w) eqn:Hp|]);
    cbn [fst app In]; intros H;
    repeat (destruct H as [<- | H]); try contradiction;
    (split; [discriminate|]);
    (split; [intros Heq; try discriminate Heq; vm_compute in Heq;
             discriminate Heq|]);
    intros c Hc; try discriminate Hc;
    injection Hc as <-; (split; [reflexivity | congruence]).
Qed.

Lemma dump_camera_flag module s i :
  snd (dump_camera module s i) = true <->
  exists c, mClient s i = Some c /\ promote s c <> None.
Proof.
  unfold dump_camera.
  destruct (mClient s i) as [w|]; [destruct (promote s w) eqn:Hp|]; cbn [snd].
  - split; [intros _|reflexivity]. exists w. split; [reflexivity | congruence].
  - split; [discriminate|]. intros (c & [= <-] & Hc). contradiction.
  - split; [discriminate|]. intros (c & Hc & _). discriminate.
Qed.

Lemma dump_camera_client module s i c :
  mClient s i = Some c -> promote s c <> None ->
  In (DClientDump c) (fst (dump_camera module s i)).
Proof.
  intros Hm Hp. unfold dump_camera. rewrite Hm.
  destruct (promote s c); [|contradiction].
  cbn [fst]. apply in_or_app. right. right. left. reflexivity.
Qed.

Lemma dump_cameras_In module s n i h ev :
  In ev (fst (dump_cameras module s n i h)) ->
  ev <> DUnlock /\ ev <> no_clients_notice /\
  (forall c, ev = DClientDump c ->
     exists j, i <= j < i + Z.of_nat n /\
               mClient s j = Some c /\ promote s c <> None).
Proof.
  revert i h. induction n as [|n IH]; intros i h; [intros []|].
  cbn [dump_cameras fst]. intros H. apply in_app_or in H. destruct H as [H|H].
  - destruct (dump_camera_In _ _ _ _ H) as (H1 & H2 & H3).
    split; [exact H1|]. split; [exact H2|].
    intros c Hc. exists i. split; [lia|]. apply H3, Hc.
  - destruct (IH _ _ H) as (H1 & H2 & H3).
    split; [exact H1|]. split; [exact H2|].
    intros c Hc. destruct (H3 c Hc) as (j & Hj & Hm). exists j. split; [lia | exact Hm].
Qed.

Lemma dump_cameras_client module s n i h j c :
  i <= j < i + Z.of_nat n ->
  mClient s j = Some c -> promote s c <> None ->
  In (DClientDump c) (fst (dump_cameras module s n i h)).
Proof.
  revert i h. induction n as [|n IH]; intros i h Hj Hm Hp; [lia|].
  cbn [dump_cameras fst]. apply in_or_app.
  destruct (Z.eq_dec j i) as [->|Hne].
  - left. apply dump_camera_client; assumption.
  - right. apply IH; [lia | assumption | assumption].
Qed.

Lemma dump_cameras_flag module s n i h :
  snd (dump_cameras module s n i h) = true <->
  h = true \/
  exists j c, i <= j < i + Z.of_nat n /\
              mClient s j = Some c /\ promote s c <> None.
Proof.
  revert i h. induction n as [|n IH]; intros i h.
  { cbn [dump_cameras snd]. split; [left; assumption|].
    intros [H | (j & c & Hj & _)]; [exact H | lia]. }
  cbn [dump_cameras snd]. rewrite IH, orb_true_iff, dump_camera_flag.
  split.
  - intros [[H | (c & Hm & Hp)] | (j & c & Hj & Hm)].
    + left. exact H.
    + right. exists i, c. split; [lia|]. split; assumption.
    + right. exists j, c. split; [lia | exact Hm].
  - intros [H | (j & c & Hj & Hm & Hp)]; [left; left; exact H|].
    destruct (Z.eq_dec j i) as [->|Hne].
    + left. right. exists c. split; assumption.
    + right. exists j, c. split; [lia|]. split; assumption.
Qed.

Lemma range_of_count s j :
  0 <= j < 0 + Z.of_nat (Z.to_nat (mNumberOfCameras s)) <-> in_range s j.
Proof. unfold in_range. lia. Qed.

(** X21.  [dump] always answers [NO_ERROR], and it releases the service
    lock exactly when the caller may dump, [tryLock] took the lock and the
    HAL module is loaded: a lock that was not taken is never released, and
    the early return for a missing module leaves a taken lock held. *)
Theorem dump_unlock d e args gLogLevel s :
  let r := dump d e args gLogLevel s in
  fst (fst r) = NO_ERROR /\
  (In DUnlock (snd (fst r)) <->
   has_DUMP_permission d = true /\
   fst (tryLock (mutex_tryLock d)) = true /\
   mModule s <> None).
Proof.
  cbv zeta. unfold dump.
  destruct (has_DUMP_permission d); cbn [negb].
  2:{ cbn [fst snd In]. split; [reflexivity|].
      split; [intros [H|[]]; discriminate | intros (H & _); discriminate]. }
  destruct (mModule s) as [module|]; cbn [fst snd].
  - split; [reflexivity|]. rewrite !in_app_iff.
    destruct (fst (tryLock (mutex_tryLock d))) eqn:Hl.
    + split; [intros _; repeat split; discriminate|].
      intros _. do 5 right. left. left. reflexivity.
    + split; [|intros (_ & H & _); discriminate].
      intros [H | [H | [H | [H | [H | [H | H]]]]]].
      * apply tryLock_sleeps in H. discriminate.
      * destruct H as [H|[]]; discriminate.
      * destruct H as [H|[]]; discriminate.
      * apply dump_cameras_In in H. destruct H as (H & _). contradiction.
      * destruct (snd (dump_cameras _ _ _ _ _)); [destruct H|].
        destruct H as [H|[]]; discriminate.
      * destruct H.
      * apply dump_log_level_events in H.
        destruct H as [(l & H) | (l & H)]; discriminate.
  - split; [reflexivity|]. rewrite !in_app_iff.
    split; [|intros (_ & _ & H); contradiction].
    intros [H | [H | H]].
    + apply tryLock_sleeps in H. discriminate.
    + destruct (fst (tryLock (mutex_tryLock d))); [destruct H|].
      destruct H as [H|[]]; discriminate.
    + destruct H as [H|[]]; discriminate.
Qed.

(** X22.  With the permission and a loaded module, the report of [dump]
    hands over to [client->dump] exactly the live clients registered in
    the slots of existing cameras, and it contains the line that no camera
    client is active exactly when there is no such client. *)
Theorem dump_reports_live_clients d e args gLogLevel s module :
  has_DUMP_permission d = true ->
  mModule s = Some module ->
  let events := snd (fst (dump d e args gLogLevel s)) in
  (forall c, In (DClientDump c) events <-> exists i, live_owner s i c) /\
  (In no_clients_notice events <-> ~ exists i c, live_owner s i c).
Proof.
  intros Hperm Hmod. cbv zeta. unfold dump, live_owner.
  rewrite Hperm, Hmod. cbn [negb fst snd].
  set (cams := dump_cameras module s (Z.to_nat (mNumberOfCameras s)) 0 false).
  assert (Hflag : snd cams = true <->
                  exists i c, in_range s i /\ mClient s i = Some c /\
                              promote s c <> None).
  { subst cams. rewrite dump_cameras_flag. split.
    - intros [H | (j & c & Hj & Hm)]; [discriminate|].
      exists j, c. split; [apply range_of_count, Hj | exact Hm].
    - intros (j & c & Hj & Hm). right. exists j, c.
      split; [apply range_of_count, Hj | exact Hm]. }
  split.
  - intros c. rewrite !in_app_iff. split.
    + intros [H | [H | [H | [H | [H | [H | H]]]]]].
      * apply tryLock_sleeps in H. discriminate.
      * destruct (fst (tryLock (mutex_tryLock d))); [destruct H|].
        destruct H as [H|[]]; discriminate.
      * destruct H as [H|[]]; discriminate.
      * apply dump_cameras_In in H. destruct H as (_ & _ & H).
        destruct (H c eq_refl) as (j & Hj & Hm).
        exists j. split; [apply range_of_count, Hj | exact Hm].
      * destruct (snd cams); [destruct H|].
        destruct H as [H|[]]; discriminate.
      * destruct (fst (tryLock (mutex_tryLock d))); [|destruct H].
        destruct H as [H|[]]; discriminate.
      * apply dump_log_level_events in H.
        destruct H as [(l & H) | (l & H)]; discriminate.
    + intros (j & Hj & Hm & Hp). do 3 right. left.
      apply (dump_cameras_client _ _ _ _ _ j); [apply range_of_count, Hj | |];
        assumption.
  - rewrite <- Hflag, !in_app_iff. split.
    + intros [H | [H | [H | [H | [H | [H | H]]]]]].
      * apply tryLock_sleeps in H. discriminate.
      * destruct (fst (tryLock (mutex_tryLock d))); [destruct H|].
        destruct H as [H|[]]; discriminate.
      * destruct H as [H|[]]; discriminate.
      * apply dump_cameras_In in H. destruct H as (_ & H & _). contradiction.
      * destruct (snd cams); [destruct H | discriminate].
      * destruct (fst (tryLock (mutex_tryLock d))); [|destruct H].
        destruct H as [H|[]]; discriminate.
      * apply dump_log_level_events in H.
        destruct H as [(l & H) | (l & H)]; discriminate.
    + intros Hn. do 4 right. left.
      destruct (snd cams); [contradiction Hn; reflexivity|].
      left. reflexivity.
Qed.

(** X23.  The logging level after [dump].  It is untouched when the caller
    lacks the permission, when no module is loaded, and when none of the
    arguments but the last is [-v]; with the permission and a module, when
    the arguments end in [-v] and a value, the level is [atoi] of that
    value whatever came before. *)
Theorem dump_log_level_set d e args b gLogLevel s :
  (has_DUMP_permission d = false \/ mModule s = None \/
   ~ In "-v"%string (removelast args) ->
   snd (dump d e args gLogLevel s) = gLogLevel) /\
  (has_DUMP_permission d = true -> mModule s <> None ->
   snd (dump d e (args ++ ["-v"%string; b]) gLogLevel s) = atoi d b).
Proof.
  unfold dump. split.
  - intros H. destruct (has_DUMP_permission d); cbn [negb]; [|reflexivity].
    destruct (mModule s) as [module|]; [|reflexivity].
    destruct H as [H | [H | H]]; try discriminate.
    cbn [snd]. rewrite (dump_log_level_none _ _ _ H). reflexivity.
  - intros Hperm Hmod. rewrite Hperm. cbn [negb].
    destruct (mModule s) as [module|]; [|contradiction].
    cbn [snd]. apply dump_log_level_last.
Qed.

End DumpProperties.

(** ** A dead owner makes room *)

Lemma findClientUnsafe_heap who : keeps heap (findClientUnsafe who).
Proof. keeps_tac. Qed.

Lemma findClientUnsafe_hal_view who : keeps hal_view (findClientUnsafe who).
Proof. keeps_tac. Qed.

Lemma binderDied_run who s i c o :
  in_range s i ->
  mClient s i = Some c ->
  promote s c = Some o ->
  is_exclusive (kind o) = true ->
  mCameraId o = i ->
  getCameraClient o = who ->
  (forall j, 0 <= j < i -> ~ owner_at s who j) ->
  let s1 := state (binderDied who s) in
  trace (binderDied who s) =
    [EvClientDisconnect c i; EvRemoveClientByRemote who;
     EvUnlinkToDeath (ClientBinder c); EvSetCameraFree i] /\
  mClient s1 i = None /\
  mBusy s1 i = 0 /\
  heap s1 = heap s /\
  hal_view s1 = hal_view s.
Proof.
  intros Hi Hm Hp Hex Hcam Hwho Hfirst. cbv zeta.
  pose proof (findClientUnsafe_first who s i c o Hi Hm Hp Hwho Hfirst) as Hres.
  set (s0 := state (findClientUnsafe who s)).
  assert (Hh0 : heap s0 = heap s) by apply findClientUnsafe_heap.
  assert (Hv0 : hal_view s0 = hal_view s) by apply findClientUnsafe_hal_view.
  assert (Hp0 : forall w, promote s0 w = promote s w)
    by (intros w; apply promote_heap, Hh0).
  assert (Hm0 : forall j w, mClient s0 j = Some w -> mClient s j = Some w).
  { unfold s0. intros j w Hw.
    destruct (findClientUnsafe_mClient who s j) as [H | [H _]]; congruence. }
  assert (Hmi : mClient s0 i = Some c).
  { unfold s0.
    destruct (findClientUnsafe_mClient who s i) as [H | (_ & w & Hw & Hdead)];
      congruence. }
  assert (Hi0 : in_range s0 i).
  { unfold in_range, hal_view in *. injection Hv0 as _ ->. exact Hi. }
  assert (Hfirst0 : forall j, 0 <= j < i -> ~ owner_at s0 who j).
  { intros j Hj (w & ow & Hw & Hpw & Hrw). apply (Hfirst j Hj).
    exists w, ow. rewrite <- Hp0. auto. }
  assert (Hlk0 : heap s0 !! c = Some o)
    by (rewrite Hh0; apply promote_lookup, Hp).
  assert (Hp0c : promote s0 c = Some o) by (rewrite Hp0; exact Hp).
  destruct (removeClientByRemote_first_owner who s0 i c o Hi0 Hmi Hp0c Hwho Hfirst0)
    as (Rt & Rm & _ & Ro & _).
  assert (Hgr : getClientByRemote who s = (Some c, s0, [])).
  { unfold getClientByRemote.
    rewrite (run_eta (bind _ _ s)), result_bind, state_bind, trace_bind.
    rewrite findClientUnsafe_silent, Hres. reflexivity. }
  unfold binderDied. rewrite (bind_silent _ _ _ _ _ Hgr).
  rewrite (disconnect_exclusive _ _ _ Hlk0 Hex).
  rewrite (Client_disconnect_trace _ _ _ Hlk0),
          (Client_disconnect_state _ _ _ Hlk0).
  unfold getCameraClient in Hwho. rewrite Hwho, Hcam, Rt.
  split; [reflexivity|]. split; [exact Rm|].
  split; [cbn [mBusy set_mBusy]; unfold upd; rewrite Z.eqb_refl; reflexivity|].
  unfold outside_registry in Ro. injection Ro as R1 R2 R3 R4 R5 R6.
  split.
  - cbn [heap set_mBusy]. congruence.
  - unfold hal_view in *. cbn [mModule mNumberOfCameras set_mBusy]. congruence.
Qed.

(** X24.  When the remote of the live client that owns camera [i], and no
    camera below it, dies, [binderDied] disconnects that client: it is
    taken out of its slot, [unlinkToDeath] is called on the client object
    and, last, the camera is marked free.  The camera can be opened again
    at once: the next [connect] for it, from any remote, that passes the
    caller checks, on a device whose version has a client class and with
    an [initialize] that succeeds, is granted a new client. *)
Theorem binderDied_frees_camera who s i c o e r pkg uid module k :
  registry_wf s ->
  mClient s i = Some c ->
  promote s c = Some o ->
  getCameraClient o = who ->
  (forall j, 0 <= j < i -> ~ owner_at s who j) ->
  uid = USE_CALLING_UID \/ getCallingPid e = getpid e ->
  mModule s = Some module ->
  camera_disabled_property e <> "1"%string ->
  client_class (fst (getDeviceVersion module i (-1))) = Some k ->
  is_OK (initialize_result e) = true ->
  let s1 := state (binderDied who s) in
  trace (binderDied who s) =
    [EvClientDisconnect c i; EvRemoveClientByRemote who;
     EvUnlinkToDeath (ClientBinder c); EvSetCameraFree i] /\
  mClient s1 i = None /\
  mBusy s1 i = 0 /\
  result (connect e r i pkg uid s1) = Some (length (heap s)) /\
  mClient (state (connect e r i pkg uid s1)) i = Some (length (heap s)).
Proof.
  intros Hwf Hm Hp Hwho Hfirst Ht Hmod Hprop Hk Hok. cbv zeta.
  destruct Hwf as (Hown & _ & _).
  destruct (Hown i c Hm) as (Hi & o' & Ho' & Hex & Hcam).
  rewrite (promote_lookup _ _ _ Hp) in Ho'. injection Ho' as <-.
  destruct (binderDied_run who s i c o Hi Hm Hp Hex Hcam Hwho Hfirst)
    as (Bt & Bm & Bb & Bh & Bv).
  split; [exact Bt|]. split; [exact Bm|]. split; [exact Bb|].
  unfold hal_view in Bv. injection Bv as Bv1 Bv2.
  assert (Hr1 : 0 <= i < mNumberOfCameras (state (binderDied who s)))
    by (rewrite Bv2; exact Hi).
  assert (Hst : forall w, mClient (state (binderDied who s)) i = Some w ->
                          promote (state (binderDied who s)) w = None)
    by (intros w Hw; congruence).
  destruct (connect_granted_run e (state (binderDied who s)) r i pkg uid module k
              Ht (eq_trans Bv1 Hmod) Hr1 Hprop Hst Bb Hk Hok)
    as (C1 & _ & _ & C4 & _).
  rewrite Bh in C1, C4. split; [exact C1|].
  rewrite C4, Z.eqb_refl. reflexivity.
Qed.

(** ** Unregistering an observer *)

(** X25.  Unregistering the remote of a live observer, when no live
    exclusive client has that remote, drops the death link of the remote
    and nothing more: the observer stays on the list of its camera, and
    the busy flags, the sounds and the objects are as before. *)
Theorem removeClientByRemote_observer_stays r s j p o :
  (forall i, in_range s i -> ~ owner_at s r i) ->
  in_range s j ->
  In p (mProClientList s j) ->
  promote s p = Some o ->
  mRemoteCallback o = r ->
  trace (removeClientByRemote r s) =
    [EvRemoveClientByRemote r; EvUnlinkToDeath (RemoteBinder r)] /\
  In p (mProClientList (state (removeClientByRemote r s)) j) /\
  outside_registry (state (removeClientByRemote r s)) = outside_registry s.
Proof.
  intros Hown Hj Hin Hp Hr.
  pose proof (findClientUnsafe_no_owner r s Hown) as Hnone.
  set (s1 := state (findClientUnsafe r s)).
  assert (Hrest : outside_registry s1 = outside_registry s /\
                  mProClientList s1 = mProClientList s).
  { pose proof (findClientUnsafe_rest r s) as H. cbv beta in H.
    fold s1 in H. split; congruence. }
  destruct Hrest as [Hout Hlists].
  assert (Hheap : heap s1 = heap s) by (unfold outside_registry in Hout; congruence).
  assert (Hn : mNumberOfCameras s1 = mNumberOfCameras s)
    by (unfold outside_registry in Hout; congruence).
  assert (Hp1 : promote s1 p = Some o) by (rewrite (promote_heap s); assumption).
  destruct (findProClientUnsafe_outcome r s1) as (P1 & P2 & _ & P4).
  set (s2 := state (findProClientUnsafe r s1)) in *.
  assert (Hout2 : outside_registry s2 = outside_registry s1).
  { pose proof (findProClientUnsafe_rest r s1) as H. cbv beta in H.
    fold s2 in H. congruence. }
  assert (Hheap2 : heap s2 = heap s1)
    by (unfold outside_registry in Hout2; congruence).
  destruct (result (findProClientUnsafe r s1)) as [p'|] eqn:Hres.
  2:{ exfalso. apply (P2 eq_refl j); [unfold in_range in *; lia|].
      exists p, o. rewrite Hlists. auto. }
  destruct (P1 p' eq_refl) as (j' & o' & _ & _ & Hp' & Hr').
  assert (Hlk : heap s2 !! p' = Some o')
    by (rewrite Hheap2; apply promote_lookup, Hp').
  assert (Hstate : state (removeClientByRemote r s) = s2).
  { rewrite removeClientByRemote_state, Hnone. reflexivity. }
  split; [|split].
  - unfold removeClientByRemote. rewrite bind_emit. cbn [trace snd]. f_equal.
    rewrite trace_bind, findClientUnsafe_silent, Hnone. cbn [app].
    fold s1. rewrite trace_bind, findProClientUnsafe_silent, Hres. cbn [app].
    fold s2. rewrite (with_obj_at _ _ _ _ _ Hlk), Hr'. reflexivity.
  - rewrite Hstate. apply (proj2 (P4 j p)); [rewrite Hlists; exact Hin|].
    rewrite Hp1. discriminate.
  - rewrite Hstate. congruence.
Qed.

(** ** The destructor of an owner *)

Lemma findClientUnsafe_loop_clears n i who s j :
  fst (result (findClientUnsafe_loop n i who s)) = None ->
  i <= j < i + Z.of_nat n ->
  (forall w, mClient s j = Some w -> promote s w = None) ->
  mClient (state (findClientUnsafe_loop n i who s)) j = None.
Proof.
  revert i s. induction n as [|n IH]; intros i s Hres Hj Hstale; [lia|].
  revert Hres. cbn [findClientUnsafe_loop]. rewrite bind_get.
  destruct (mClient s i) as [w|] eqn:Hw.
  - destruct (promote s w) as [o|] eqn:Hp.
    + destruct (Nat.eqb who (getCameraClient o)); [discriminate|].
      intros Hres. destruct (Z.eq_dec j i) as [->|Hne].
      * rewrite (Hstale w Hw) in Hp. discriminate.
      * apply IH; [exact Hres | lia | exact Hstale].
    + rewrite bind_modify. intros Hres.
      destruct (Z.eq_dec j i) as [->|Hne].
      * destruct (findClientUnsafe_loop_mClient n (i + 1) who
                    (set_mClient i None s) i) as [H | [H _]]; [|exact H].
        rewrite H, mClient_set_mClient, Z.eqb_refl. reflexivity.
      * apply IH; [exact Hres | lia |].
        intros w'. rewrite mClient_set_mClient.
        apply Z.eqb_neq in Hne. rewrite Hne. intros Hw'.
        rewrite (promote_heap s); [apply Hstale, Hw' | reflexivity].
  - intros Hres. destruct (Z.eq_dec j i) as [->|Hne].
    + destruct (findClientUnsafe_loop_mClient n (i + 1) who s i) as [H | [H _]];
        [congruence | exact H].
    + apply IH; [exact Hres | lia | exact Hstale].
Qed.

Lemma removeClientByRemote_clears_stale r s i :
  (forall j, in_range s j -> ~ owner_at s r j) ->
  in_range s i ->
  (forall w, mClient s i = Some w -> promote s w = None) ->
  mClient (state (removeClientByRemote r s)) i = None.
Proof.
  intros Hown Hi Hstale.
  pose proof (findClientUnsafe_no_owner r s Hown) as Hnone.
  rewrite removeClientByRemote_state, Hnone, findProClientUnsafe_mClient.
  revert Hnone. unfold findClientUnsafe. rewrite bind_get. intros Hnone.
  apply findClientUnsafe_loop_clears;
    [exact Hnone | unfold in_range in Hi; lia | exact Hstale].
Qed.

Lemma removeClientByRemote_keeps_live r s j w :
  (forall j, in_range s j -> ~ owner_at s r j) ->
  mClient s j = Some w ->
  promote s w <> None ->
  mClient (state (removeClientByRemote r s)) j = Some w.
Proof.
  intros Hown Hw Hp. pose proof (findClientUnsafe_no_owner r s Hown) as Hnone.
  rewrite removeClientByRemote_state, Hnone, findProClientUnsafe_mClient.
  destruct (findClientUnsafe_mClient r s j) as [H|(_ & w' & Hw' & Hp')];
    congruence.
Qed.

Lemma promote_same_object s s' w :
  heap s' !! w = heap s !! w -> promote s' w = promote s w.
Proof. intros H. unfold promote. rewrite H. reflexivity. Qed.

Lemma Client_dtor_state c s o :
  heap s !! c = Some o ->
  exists s3,
    state (Client_dtor c s) =
      set_mBusy (mCameraId o) 0
        (state (removeClientByRemote (mRemoteCallback o) s3)) /\
    mClient s3 = mClient s /\
    mNumberOfCameras s3 = mNumberOfCameras s /\
    (forall w, w <> c -> heap s3 !! w = heap s !! w) /\
    field_at refs c s3 = Some (refs o).
Proof.
  intros Ho.
  set (s1 := state (update_obj c (set_mDestructionStarted true) s)).
  set (s2 := state (releaseSound s1)).
  set (s3 := state (finishCameraOps c s2)).
  assert (Hfield : forall {B} (pr : BasicClient -> B),
            (forall b x, pr (set_mOpsActive b x) = pr x) ->
            (forall b x, pr (set_mOpsCallback b x) = pr x) ->
            (forall x, pr (set_mDestructionStarted true x) = pr x) ->
            field_at pr c s3 = Some (pr o)).
  { intros B pr P1 P2 P3. unfold s3, s2, s1.
    rewrite finishCameraOps_field, releaseSound_field by assumption.
    rewrite keeps_field_update_obj by assumption.
    unfold field_at. rewrite Ho. reflexivity. }
  pose proof (Hfield _ identity_of ltac:(reflexivity) ltac:(reflexivity)
                ltac:(reflexivity)) as H3.
  apply identity_lookup in H3. destruct H3 as (o3 & Ho3 & Hid).
  assert (Hr : mRemoteCallback o3 = mRemoteCallback o)
    by (unfold identity_of in Hid; congruence).
  assert (Hc : mCameraId o3 = mCameraId o)
    by (unfold identity_of in Hid; congruence).
  exists s3. split; [|split; [|split; [|split]]].
  - unfold Client_dtor. rewrite !state_bind.
    change (state (Client_disconnect c _)) with (state (Client_disconnect c s3)).
    rewrite (Client_disconnect_state _ _ _ Ho3), Hr, Hc. reflexivity.
  - assert (K1 : keeps mClient (finishCameraOps c)) by keeps_tac.
    assert (K2 : keeps mClient releaseSound) by keeps_tac.
    unfold s3, s2, s1. rewrite K1, K2. reflexivity.
  - assert (K1 : keeps mNumberOfCameras (finishCameraOps c)) by keeps_tac.
    assert (K2 : keeps mNumberOfCameras releaseSound) by keeps_tac.
    unfold s3, s2, s1. rewrite K1, K2. reflexivity.
  - intros w Hne. assert (Hne' : c <> w) by congruence.
    assert (K1 : keeps (fun s => heap s !! w) (finishCameraOps c)) by keeps_tac.
    assert (K2 : keeps (fun s => heap s !! w) releaseSound) by keeps_tac.
    assert (K3 : keeps (fun s => heap s !! w)
                   (update_obj c (set_mDestructionStarted true))) by keeps_tac.
    unfold s3, s2, s1. rewrite K1, K2, K3. reflexivity.
  - apply (Hfield _ refs); reflexivity.
Qed.

Lemma destroy_owner_run c s o i :
  mClient s i = Some c ->
  in_range s i ->
  heap s !! c = Some o ->
  is_exclusive (kind o) = true ->
  mCameraId o = i ->
  (forall j w ow, mClient s j = Some w -> w <> c -> promote s w = Some ow ->
                  getCameraClient ow <> mRemoteCallback o) ->
  let s' := state (destroy c s) in
  mClient s' i = None /\
  (forall j, mBusy s' j = if j =? i then 0 else mBusy s j) /\
  mSoundRef s' = mSoundRef s - 1 /\
  promote s' c = None /\
  hal_view s' = hal_view s /\
  (forall j w, mClient s j = Some w -> w <> c -> promote s w <> None ->
               mClient s' j = Some w).
Proof.
  intros Hm Hi Ho Hx Hcam Hother. cbv zeta.
  destruct (destroy_exclusive c s o Ho Hx) as (Db & Ds & Dv).
  pose proof (destroy_dead c s o Ho) as Dd.
  set (s1 := state (update_obj c (set_refs Dying) s)).
  assert (Ho1 : heap s1 !! c = Some (set_refs Dying o)).
  { unfold s1, update_obj, modify, state. cbn [fst snd heap set_heap].
    rewrite list_lookup_alter_eq, Ho. reflexivity. }
  assert (Hs1 : mClient s1 = mClient s /\ mNumberOfCameras s1 = mNumberOfCameras s)
    by (split; reflexivity).
  assert (Hw1 : forall w, w <> c -> heap s1 !! w = heap s !! w).
  { intros w Hne. unfold s1, update_obj, modify, state. cbn [fst snd heap set_heap].
    apply list_lookup_alter_ne. congruence. }
  destruct (Client_dtor_state c s1 _ Ho1) as (s3 & Hst & Hm3 & Hn3 & Hw3 & Hr3).
  cbn [mCameraId mRemoteCallback refs set_refs] in Hst, Hr3.
  assert (Hmc : mClient (state (destroy c s)) =
                mClient (state (removeClientByRemote (mRemoteCallback o) s3))).
  { unfold destroy. rewrite !state_bind. fold s1.
    rewrite (with_obj_at _ _ _ _ _ Ho1). cbn [kind set_refs]. rewrite Hx.
    rewrite state_bind.
    assert (K1 : keeps mClient (BasicClient_dtor c)) by keeps_tac.
    unfold update_obj at 1, modify, state at 1. cbn [fst snd mClient set_heap].
    rewrite K1, Hst. reflexivity. }
  assert (Hdead3 : promote s3 c = None).
  { unfold promote. unfold field_at in Hr3.
    destruct (heap s3 !! c) as [o3|]; [|reflexivity].
    cbn in Hr3. injection Hr3 as ->. reflexivity. }
  assert (Hlive3 : forall w, w <> c -> promote s3 w = promote s w).
  { intros w Hne. apply promote_same_object. rewrite Hw3, Hw1 by exact Hne.
    reflexivity. }
  assert (Hown3 : forall j, in_range s3 j -> ~ owner_at s3 (mRemoteCallback o) j).
  { intros j _ (w & ow & Hw & Hp & Hr). rewrite Hm3 in Hw.
    destruct (Nat.eq_dec w c) as [->|Hne]; [congruence|].
    rewrite (Hlive3 w Hne) in Hp.
    exact (Hother j w ow (eq_trans (f_equal (fun f => f j) (eq_sym (proj1 Hs1))) Hw)
             Hne Hp Hr). }
  split; [|split; [|split; [|split; [|split]]]].
  - rewrite Hmc. apply removeClientByRemote_clears_stale.
    + exact Hown3.
    + unfold in_range in *. rewrite Hn3. exact Hi.
    + intros w Hw. rewrite Hm3 in Hw. cbn in Hw.
      assert (w = c) by congruence. subst w. exact Hdead3.
  - intros j. rewrite Db, Hcam. reflexivity.
  - exact Ds.
  - unfold promote. unfold field_at in Dd.
    destruct (heap (state (destroy c s)) !! c) as [od|]; [|reflexivity].
    cbn in Dd. injection Dd as ->. reflexivity.
  - exact Dv.
  - intros j w Hw Hne Hp. rewrite Hmc.
    apply removeClientByRemote_keeps_live.
    + exact Hown3.
    + rewrite Hm3. exact Hw.
    + rewrite (Hlive3 w Hne). exact Hp.
Qed.

(** X26.  Provided no other live owner has the same remote, the
    destructor of the client registered in slot [i] gives the slot back:
    the search of [removeClientByRemote] no longer promotes the client and
    clears its slot as a stale entry, the camera is marked free, one
    reference to the sounds is given back and the object is dead, while
    every other live owner keeps its slot. *)
Theorem destroy_owner_releases_slot c s o i :
  mClient s i = Some c ->
  in_range s i ->
  heap s !! c = Some o ->
  is_exclusive (kind o) = true ->
  mCameraId o = i ->
  (forall j w ow, mClient s j = Some w -> w <> c -> promote s w = Some ow ->
                  getCameraClient ow <> mRemoteCallback o) ->
  let s' := state (destroy c s) in
  mClient s' i = None /\
  (forall j, mBusy s' j = if j =? i then 0 else mBusy s j) /\
  mSoundRef s' = mSoundRef s - 1 /\
  promote s' c = None /\
  hal_view s' = hal_view s /\
  (forall j w, mClient s j = Some w -> w <> c -> promote s w <> None ->
               mClient s' j = Some w).
Proof. exact (destroy_owner_run c s o i). Qed.

Lemma promote_old_object s s' c o w :
  heap s' = alter (set_refs Dying) c (heap s ++ [o]) ->
  c = length (heap s) ->
  w <> c ->
  promote s' w = promote s w.
Proof.
  intros Hh Hc Hne. unfold promote. rewrite Hh.
  rewrite list_lookup_alter_ne by congruence.
  destruct (Nat.lt_ge_cases w (length (heap s))) as [Hlt|Hge].
  - rewrite lookup_app_l by exact Hlt. reflexivity.
  - assert (E1 : (heap s ++ [o]) !! w = None).
    { apply lookup_ge_None. rewrite length_app. cbn [length]. subst c. lia. }
    assert (E2 : heap s !! w = None) by (apply lookup_ge_None; exact Hge).
    rewrite E1, E2. reflexivity.
Qed.

(** X27.  Opening a camera and then destroying the client that was
    returned gives the camera back: the slot is empty, every busy flag and
    the sound reference count are what they were before the connect, the
    HAL data are untouched and every client that was registered and alive
    before still has its slot.  This needs that no live owner of another
    camera has the same remote as the requester. *)
Theorem connect_then_destroy_restores e s cameraClient cameraId pkg clientUid module k :
  clientUid = USE_CALLING_UID \/ getCallingPid e = getpid e ->
  mModule s = Some module ->
  0 <= cameraId < mNumberOfCameras s ->
  camera_disabled_property e <> "1"%string ->
  (forall w, mClient s cameraId = Some w -> promote s w = None) ->
  mBusy s cameraId = 0 ->
  client_class (fst (getDeviceVersion module cameraId (-1))) = Some k ->
  is_OK (initialize_result e) = true ->
  (forall j w ow, mClient s j = Some w -> promote s w = Some ow ->
                  getCameraClient ow <> cameraClient) ->
  let c := length (heap s) in
  let s1 := state (connect e cameraClient cameraId pkg clientUid s) in
  let s2 := state (run (ADropLastRef c) s1) in
  let s3 := state (run (ADestroy c) s2) in
  enabled (ADropLastRef c) s1 = true /\
  enabled (ADestroy c) s2 = true /\
  mClient s3 cameraId = None /\
  (forall j, mBusy s3 j = mBusy s j) /\
  mSoundRef s3 = mSoundRef s /\
  promote s3 c = None /\
  hal_view s3 = hal_view s /\
  (forall j w, mClient s j = Some w -> promote s w <> None ->
               mClient s3 j = Some w).
Proof.
  intros Ht Hm Hr Hp Hstale Hb Hk Hok Hother. cbv zeta.
  destruct (connect_granted_run e s cameraClient cameraId pkg clientUid module k
              Ht Hm Hr Hp Hstale Hb Hk Hok)
    as (_ & _ & Ch & Cm & Cb & Cs & _ & Cv).
  set (c := length (heap s)) in *.
  set (s1 := state (connect e cameraClient cameraId pkg clientUid s)) in *.
  set (o := BasicClient_ctor k cameraClient pkg cameraId
              (snd (getDeviceVersion module cameraId (-1)))
              (getCallingPid e) (resolved_uid e clientUid) (getpid e)) in *.
  assert (Ho1 : heap s1 !! c = Some o)
    by (rewrite Ch; apply list_lookup_middle; reflexivity).
  unfold run. set (s2 := state (update_obj c (set_refs Dying) s1)).
  assert (Hh2 : heap s2 = alter (set_refs Dying) c (heap s ++ [o]))
    by (unfold s2, update_obj, modify, state; cbn [fst snd heap set_heap];
        rewrite Ch; reflexivity).
  assert (Ho2 : heap s2 !! c = Some (set_refs Dying o)).
  { rewrite Hh2, list_lookup_alter_eq, <- Ch, Ho1. reflexivity. }
  assert (Hold : forall w, w <> c -> promote s2 w = promote s w)
    by (intros w Hne; apply (promote_old_object s s2 c o w Hh2 eq_refl Hne)).
  assert (Hlt : forall w, promote s w <> None -> w <> c).
  { intros w Hw ->. apply Hw. unfold promote.
    rewrite (proj2 (lookup_ge_None (heap s) c)); [reflexivity|]. unfold c. lia. }
  assert (Hx : is_exclusive (kind (set_refs Dying o)) = true).
  { cbn [kind set_refs o BasicClient_ctor].
    destruct (client_class_switch _ _ Hk) as [[_ ->]|[_ ->]]; reflexivity. }
  assert (Hin2 : in_range s2 cameraId).
  { unfold in_range. change (mNumberOfCameras s2) with (mNumberOfCameras s1).
    unfold hal_view in Cv. injection Cv as _ ->. exact Hr. }
  assert (Hm2 : forall j, mClient s2 j =
                          if j =? cameraId then Some c else mClient s j)
    by (intros j; apply Cm).
  assert (Hc2 : mClient s2 cameraId = Some c)
    by (rewrite Hm2, Z.eqb_refl; reflexivity).
  assert (Hoth2 : forall j w ow, mClient s2 j = Some w -> w <> c ->
                    promote s2 w = Some ow ->
                    getCameraClient ow <> mRemoteCallback (set_refs Dying o)).
  { intros j w ow Hw Hne Hpw. rewrite Hm2 in Hw. rewrite (Hold w Hne) in Hpw.
    destruct (j =? cameraId); [congruence|].
    exact (Hother j w ow Hw Hpw). }
  destruct (destroy_owner_run c s2 (set_refs Dying o) cameraId
              Hc2 Hin2 Ho2 Hx eq_refl Hoth2)
    as (D1 & D2 & D3 & D4 & D5 & D6).
  split; [|split; [|split; [|split; [|split; [|split; [|split]]]]]].
  - cbn [enabled]. unfold promote. rewrite Ho1. reflexivity.
  - cbn [enabled]. unfold is_Dying. rewrite Ho2. reflexivity.
  - exact D1.
  - intros j. rewrite D2. change (mBusy s2 j) with (mBusy s1 j). rewrite Cb.
    destruct (Z.eqb_spec j cameraId) as [->|_]; [symmetry; exact Hb | reflexivity].
  - rewrite D3. change (mSoundRef s2) with (mSoundRef s1). rewrite Cs. lia.
  - exact D4.
  - rewrite D5. change (hal_view s2) with (hal_view s1). exact Cv.
  - intros j w Hw Hpw. apply D6.
    + rewrite Hm2. destruct (Z.eqb_spec j cameraId) as [->|_]; [|exact Hw].
      exfalso. apply Hpw. apply Hstale. exact Hw.
    + apply Hlt. exact Hpw.
    + rewrite (Hold w (Hlt w Hpw)). exact Hpw.
Qed.

(** ** The destructor of an observer *)

Lemma prune_until_match_all_live s who l p :
  (forall q oq, In q l -> promote s q = Some oq -> mRemoteCallback oq <> who) ->
  In p (prune_until_match s who l) ->
  promote s p <> None.
Proof.
  induction l as [|cl rest IH]; intros Hno; [intros []|].
  cbn [prune_until_match]. destruct (promote s cl) as [o|] eqn:Hp.
  - destruct (Nat.eqb_spec (mRemoteCallback o) who) as [He|_].
    + exfalso. exact (Hno cl o (or_introl eq_refl) Hp He).
    + intros [<-|H]; [congruence|].
      apply IH; [|exact H]. intros q oq Hq. apply Hno. right. exact Hq.
  - intros H. apply IH; [|exact H]. intros q oq Hq. apply Hno. right. exact Hq.
Qed.

Lemma ProClient_dtor_state p s o :
  heap s !! p = Some o ->
  exists s2,
    state (ProClient_dtor p s) = state (removeClientByRemote (mRemoteCallback o) s2) /\
    mClient s2 = mClient s /\
    mProClientList s2 = mProClientList s /\
    outside_registry s2 =
      outside_registry (set_heap (alter (set_mDestructionStarted true) p (heap s)) s).
Proof.
  intros Ho.
  set (s2 := state (update_obj p (set_mDestructionStarted true) s)).
  assert (Ho2 : heap s2 !! p = Some (set_mDestructionStarted true o)).
  { unfold s2, update_obj, modify, state. cbn [fst snd heap set_heap].
    rewrite list_lookup_alter_eq, Ho. reflexivity. }
  exists s2. split; [|repeat split].
  unfold ProClient_dtor. rewrite !state_bind.
  change (state (ProClient_disconnect p _)) with (state (ProClient_disconnect p s2)).
  unfold ProClient_disconnect. rewrite state_bind.
  change (state (emit (EvProClientDisconnect p) s2)) with s2.
  unfold BasicClient_disconnect. rewrite (with_obj_at _ _ _ _ _ Ho2). reflexivity.
Qed.

(** X28.  Provided no other live client has the same remote, the
    destructor of an observer unregisters it: the search of
    [removeClientByRemote] no longer promotes the observer and takes it
    off the list of every camera as a dead entry, while every other live
    observer stays on its list and every live owner keeps its slot.  The
    busy flags and the sound reference count are not touched. *)
Theorem destroy_observer_pruned p s o :
  heap s !! p = Some o ->
  is_exclusive (kind o) = false ->
  (forall w ow, w <> p -> promote s w = Some ow ->
                mRemoteCallback ow <> mRemoteCallback o) ->
  let s' := state (destroy p s) in
  (forall j, in_range s j -> ~ In p (mProClientList s' j)) /\
  (forall j q, In q (mProClientList s j) -> promote s q <> None -> q <> p ->
               In q (mProClientList s' j)) /\
  (forall j w, mClient s j = Some w -> promote s w <> None -> w <> p ->
               mClient s' j = Some w) /\
  mBusy s' = mBusy s /\
  mSoundRef s' = mSoundRef s /\
  promote s' p = None.
Proof.
  intros Ho Hx Hother. cbv zeta.
  pose proof (destroy_dead p s o Ho) as Dd.
  set (s1 := state (update_obj p (set_refs Dying) s)).
  assert (Ho1 : heap s1 !! p = Some (set_refs Dying o)).
  { unfold s1, update_obj, modify, state. cbn [fst snd heap set_heap].
    rewrite list_lookup_alter_eq, Ho. reflexivity. }
  destruct (ProClient_dtor_state p s1 _ Ho1) as (s2 & Hst & Hm2 & Hl2 & Hout2).
  cbn [mRemoteCallback set_refs] in Hst.
  set (r := mRemoteCallback o) in *.
  assert (Hh2 : heap s2 =
                alter (set_mDestructionStarted true) p
                  (alter (set_refs Dying) p (heap s))).
  { unfold outside_registry in Hout2. injection Hout2 as _ _ _ _ _ ->.
    reflexivity. }
  assert (Hn2 : mNumberOfCameras s2 = mNumberOfCameras s).
  { unfold outside_registry in Hout2. injection Hout2 as _ -> _ _ _ _.
    reflexivity. }
  assert (Hb2 : mBusy s2 = mBusy s /\ mSoundRef s2 = mSoundRef s).
  { unfold outside_registry in Hout2. injection Hout2 as _ _ -> -> _ _.
    split; reflexivity. }
  assert (Hdead2 : promote s2 p = None).
  { unfold promote. rewrite Hh2, !list_lookup_alter_eq, Ho. reflexivity. }
  assert (Hlive2 : forall w, w <> p -> promote s2 w = promote s w).
  { intros w Hne. unfold promote.
    rewrite Hh2, !list_lookup_alter_ne by congruence. reflexivity. }
  assert (Hnone2 : forall w ow, promote s2 w = Some ow -> mRemoteCallback ow <> r).
  { intros w ow Hp. destruct (Nat.eq_dec w p) as [->|Hne]; [congruence|].
    rewrite (Hlive2 w Hne) in Hp. exact (Hother w ow Hne Hp). }
  assert (Hown2 : forall j, in_range s2 j -> ~ owner_at s2 r j).
  { intros j _ (w & ow & _ & Hp & Hr). exact (Hnone2 w ow Hp Hr). }
  pose proof (findClientUnsafe_no_owner r s2 Hown2) as Hnone.
  set (s3 := state (findClientUnsafe r s2)).
  assert (Hrest : outside_registry s3 = outside_registry s2 /\
                  mProClientList s3 = mProClientList s2).
  { pose proof (findClientUnsafe_rest r s2) as H. cbv beta in H.
    fold s3 in H. split; congruence. }
  destruct Hrest as [Hout3 Hl3].
  assert (Hh3 : heap s3 = heap s2) by (unfold outside_registry in Hout3; congruence).
  assert (Hn3 : mNumberOfCameras s3 = mNumberOfCameras s2)
    by (unfold outside_registry in Hout3; congruence).
  destruct (findProClientUnsafe_outcome r s3) as (_ & _ & P3 & P4).
  assert (Hfinal : state (removeClientByRemote r s2) = state (findProClientUnsafe r s3))
    by (rewrite removeClientByRemote_state, Hnone; reflexivity).
  assert (Hreg : mClient (state (destroy p s)) =
                   mClient (state (removeClientByRemote r s2)) /\
                 mProClientList (state (destroy p s)) =
                   mProClientList (state (removeClientByRemote r s2)) /\
                 mBusy (state (destroy p s)) =
                   mBusy (state (removeClientByRemote r s2)) /\
                 mSoundRef (state (destroy p s)) =
                   mSoundRef (state (removeClientByRemote r s2))).
  { unfold destroy. rewrite !state_bind. fold s1.
    rewrite (with_obj_at _ _ _ _ _ Ho1). cbn [kind set_refs]. rewrite Hx.
    rewrite state_bind, <- Hst. repeat split. }
  destruct Hreg as (R1 & R2 & R3 & R4).
  assert (Hout : outside_registry (state (removeClientByRemote r s2))
                 = outside_registry s2) by apply removeClientByRemote_frame.
  split; [|split; [|split; [|split; [|split]]]].
  - intros j Hj Hin. rewrite R2, Hfinal in Hin.
    rewrite P3 in Hin by (unfold in_range in *; rewrite Hn3, Hn2; exact Hj).
    apply prune_until_match_all_live in Hin.
    + apply Hin. rewrite (promote_heap s2) by exact Hh3. exact Hdead2.
    + intros q oq _ Hq. rewrite (promote_heap s2) in Hq by exact Hh3.
      exact (Hnone2 q oq Hq).
  - intros j q Hin Hp Hne. rewrite R2, Hfinal.
    apply (proj2 (P4 j q)).
    + rewrite Hl3, Hl2. exact Hin.
    + rewrite (promote_heap s2) by exact Hh3. rewrite (Hlive2 q Hne). exact Hp.
  - intros j w Hw Hp Hne. rewrite R1.
    apply removeClientByRemote_keeps_live.
    + exact Hown2.
    + rewrite Hm2. exact Hw.
    + rewrite (Hlive2 w Hne). exact Hp.
  - rewrite R3. unfold outside_registry in Hout. injection Hout as _ _ -> _ _ _.
    apply Hb2.
  - rewrite R4. unfold outside_registry in Hout. injection Hout as _ _ _ -> _ _.
    apply Hb2.
  - unfold promote. unfold field_at in Dd.
    destruct (heap (state (destroy p s)) !! p) as [od|]; [|reflexivity].
    cbn in Dd. injection Dd as ->. reflexivity.
Qed.

(** ** The destructor of an exclusive client, in full *)










End Properties.

(** * The model on concrete inputs *)

Import Example.

Lemma boot_reachable hw : reachable (K := constants) (boot hw).
Proof. exists hw, 7, (fun _ => 1). apply reachable_refl. Qed.

Lemma owned_reachable : reachable (K := constants) owned.
Proof.
  exists (Some (hal 1 256)), 7, (fun _ => 1).
  apply (reachable_step _ _ connect_5); [apply reachable_refl | reflexivity].
Qed.


Lemma observed_reachable : reachable (K := constants) observed.
Proof.
  exists (Some (hal 1 512)), 7, (fun _ => 1).
  apply (reachable_step _ _ (AConnectPro (env 41 1000 "0" MODE_ALLOWED) 9%nat 0));
    [apply reachable_refl | reflexivity].
Qed.

(** C1 fails as stated.  Remote 5 owns camera 0 and is alive; it asks again
    while the policy property reads "1", and gets null instead of its
    handle. *)
Lemma connect_owner_while_disabled :
  reachable (K := constants) owned /\
  mClient owned 0 = Some 0%nat /\
  getCameraClient <$> promote owned 0%nat = Some 5%nat /\
  result (connect (K := constants) (env 41 1000 "1" MODE_ALLOWED)
            5%nat 0 "pkg.a" (-1) owned) = None.
Proof.
  split; [apply owned_reachable|]. repeat split.
Qed.

(** The owner of camera 0 asks again while the policy property reads "0". *)
Lemma connect_owned_slot_witness :
  result (connect (K := constants) (env 41 1000 "0" MODE_ALLOWED)
            5%nat 0 "pkg.a" (-1) owned) = Some 0%nat.
Proof.
  refine (proj2 (proj2 (proj2
            (connect_owned_slot (K := constants) (env 41 1000 "0" MODE_ALLOWED)
               owned 5%nat 0 "pkg.a" (-1) 0%nat owner _ _))) _ _ _ _ _).
  - reflexivity.
  - reflexivity.
  - reflexivity.
  - left. reflexivity.
  - vm_compute. discriminate.
  - vm_compute. split; [discriminate | reflexivity].
  - vm_compute. discriminate.
Defined.

(** C4 fails as stated.  The HAL module did not load, so no id is in
    range; [getCameraInfo 0] answers [NO_INIT], not [BAD_VALUE]. *)
Lemma getCameraInfo_without_module :
  reachable (K := constants) (boot None) /\
  mNumberOfCameras (boot None) <= 0 /\
  result (getCameraInfo 0 (boot None)) = (NO_INIT, None) /\
  NO_INIT <> BAD_VALUE.
Proof.
  split; [apply boot_reachable|]. split; [vm_compute; discriminate|].
  split; [reflexivity | discriminate].
Qed.

(** Camera 3 does not exist on a module with one camera. *)
Lemma out_of_range_rejected_witness :
  connect (K := constants) (env 41 1000 "0" MODE_ALLOWED) 6%nat 3 "pkg.b" (-1) owned
    = (None, owned, []) /\
  getCameraInfo 3 owned = ((BAD_VALUE, None), owned, []).
Proof.
  apply (out_of_range_rejected (K := constants)
           (env 41 1000 "0" MODE_ALLOWED) owned 6%nat 3 "pkg.b" (-1)).
  right. vm_compute. discriminate.
Defined.

(** C10 fails as stated.  A HAL that reports -1 cameras is taken at its
    word: the count is not clamped from below. *)
Lemma getNumberOfCameras_negative :
  reachable (K := constants) (boot (Some (hal (-1) 256))) /\
  result (getNumberOfCameras (boot (Some (hal (-1) 256)))) = -1 /\
  ~ (0 <= -1 <= MAX_CAMERAS (Constants := constants)).
Proof.
  split; [apply boot_reachable|]. split; [reflexivity|]. lia.
Qed.

(** One camera reported, one camera counted, also after a connect. *)
Lemma getNumberOfCameras_range_witness :
  getNumberOfCameras owned = (1, owned, []) /\
  result (getNumberOfCameras owned) <= 2 /\
  (0 <= 1 -> 0 <= result (getNumberOfCameras owned)).
Proof.
  apply (getNumberOfCameras_range (K := constants) (Some (hal 1 256)) 7 (fun _ => 1) owned).
  - vm_compute. discriminate.
  - apply (reachable_step _ _ connect_5); [apply reachable_refl | reflexivity].
Defined.



(** C3, evaluated where the code falls short of it.  An observer with
    remote 9 is registered on camera 0 and alive.  When its binder dies,
    [binderDied] finds nobody and does nothing, while
    [removeClientByRemote], which also searches the observers, finds it. *)
Lemma binderDied_ignores_observer :
  reachable (K := constants) observed /\
  mProClientList observed 0 = [0%nat] /\
  (fun o => (kind o, mRemoteCallback o)) <$> promote observed 0%nat
    = Some (ProCamera2Client, 9%nat) /\
  binderDied 9%nat observed = (tt, observed, []) /\
  trace (removeClientByRemote 9%nat observed)
    = [EvRemoveClientByRemote 9%nat; EvUnlinkToDeath (RemoteBinder 9%nat)].
Proof.
  split; [apply observed_reachable|]. repeat split.
Qed.

(** A camera of device version 1.0 gets a [CameraClient]. *)
Lemma connect_dispatch_witness :
  result (connect (K := constants) (env 41 1000 "0" MODE_ALLOWED)
            5%nat 0 "pkg.a" (-1) (boot (Some (hal 1 256)))) = Some 0%nat /\
  List.filter is_EvNew
    (trace (connect (K := constants) (env 41 1000 "0" MODE_ALLOWED)
              5%nat 0 "pkg.a" (-1) (boot (Some (hal 1 256)))))
    = [EvNew CameraClient 0%nat] /\
  field_at kind 0%nat
    (state (connect (K := constants) (env 41 1000 "0" MODE_ALLOWED)
              5%nat 0 "pkg.a" (-1) (boot (Some (hal 1 256)))))
    = Some CameraClient.
Proof.
  refine (proj1 (connect_dispatch (K := constants)
                   (env 41 1000 "0" MODE_ALLOWED) (boot (Some (hal 1 256)))
                   5%nat 0 "pkg.a" (-1) (hal 1 256) _ _ _ _ _ _ _) _).
  - vm_compute. repeat split; discriminate.
  - left. reflexivity.
  - reflexivity.
  - vm_compute. split; [discriminate | reflexivity].
  - vm_compute. discriminate.
  - intros w H. vm_compute in H. discriminate.
  - reflexivity.
  - reflexivity.
Defined.

(** One client alive, one reference to the sounds. *)
Lemma sound_refcount_invariant_witness :
  mSoundRef owned = Z.of_nat (live_exclusive_clients owned) /\
  0 <= mSoundRef owned.
Proof.
  refine (let H := sound_refcount_invariant (K := constants) owned _ in
          conj (proj1 H) (proj1 (proj2 H))).
  exists (Some (hal 1 256)), 7, (fun _ => 1).
  apply (reachable_step _ _ connect_5); [apply reachable_refl | reflexivity].
Defined.

(** The camera op of the owner of camera 0 is revoked; the callback runs in
    a call from process 77. *)
Lemma opChanged_revocation_witness :
  exists teardown,
    trace (OpsCallback_opChanged (K := constants) (env 77 1000 "0" MODE_IGNORED)
             0%nat 26 "pkg.a" owned) =
      EvSetClientPid 0%nat 77 :: EvNotifyError 5%nat :: EvClientDisconnect 0%nat 0
        :: teardown /\
    forallb (fun ev => negb (is_revocation_notice ev)) teardown = true /\
    last teardown = Some (EvSetCameraFree 0) /\
    field_at mClientPid 0%nat
      (state (OpsCallback_opChanged (K := constants) (env 77 1000 "0" MODE_IGNORED)
                0%nat 26 "pkg.a" owned)) = Some 77.
Proof.
  refine (opChanged_revocation (K := constants) (env 77 1000 "0" MODE_IGNORED)
            0%nat 26 "pkg.a" owned owner _ _ _ _).
  - reflexivity.
  - reflexivity.
  - reflexivity.
  - vm_compute. discriminate.
Defined.

(** Remote 6 asks for camera 0 while the previous owner is being torn
    down. *)
Lemma connect_busy_race_witness :
  mBusy dying 0 = 1 /\
  mClient dying 0 = Some 0%nat /\
  promote dying 0%nat = None /\
  result (connect (K := constants) (env 42 1001 "0" MODE_ALLOWED)
            6%nat 0 "pkg.b" (-1) dying) = None.
Proof.
  split; [reflexivity|]. split; [reflexivity|]. split; [reflexivity|].
  refine (proj1 (connect_busy_race (K := constants)
                   (env 42 1001 "0" MODE_ALLOWED) dying 6%nat 0 "pkg.b" (-1) _ _)).
  - vm_compute. discriminate.
  - intros w H. vm_compute in H. injection H as <-. reflexivity.
Defined.

(** * Further runs of the model *)

Import Scenario.

Lemma owned_in_range j : in_range owned j -> j = 0.
Proof. unfold in_range. change (mNumberOfCameras owned) with 1. lia. Qed.

Lemma owned_owner_remote r j : in_range owned j -> owner_at owned r j -> r = 5%nat.
Proof.
  intros Hj (c & o & Hm & Hp & Hr). apply owned_in_range in Hj. subst j.
  vm_compute in Hm. injection Hm as <-.
  vm_compute in Hp. injection Hp as <-.
  vm_compute in Hr. congruence.
Qed.

Lemma owned_no_observer r j : ~ observer_at owned r j.
Proof. intros (p & o & Hin & _). vm_compute in Hin. exact Hin. Qed.

Lemma observed_no_owner r j : ~ owner_at observed r j.
Proof. intros (c & o & Hm & _). vm_compute in Hm. discriminate. Qed.

Lemma owned_wf : registry_wf owned.
Proof.
  apply (reachable_wf (K := constants) owned);
    [vm_compute; discriminate | apply owned_reachable].
Qed.

(** Remote 6 is unregistered while remote 5 owns camera 0. *)
Lemma removeClientByRemote_spares_other_remotes_witness :
  mClient (state (removeClientByRemote 6%nat owned)) 0 = Some 0%nat /\
  promote (state (removeClientByRemote 6%nat owned)) 0%nat = Some owner.
Proof.
  apply (removeClientByRemote_spares_other_remotes 6%nat owned 0 0%nat owner).
  - reflexivity.
  - reflexivity.
  - vm_compute. discriminate.
Defined.

(** Nobody is registered with remote 6. *)
Lemma removeClientByRemote_unknown_remote_witness :
  trace (removeClientByRemote 6%nat owned) = [EvRemoveClientByRemote 6%nat] /\
  outside_registry (state (removeClientByRemote 6%nat owned))
    = outside_registry owned.
Proof.
  refine (let H := removeClientByRemote_unknown_remote 6%nat owned _ _ in
          conj (proj1 H) (proj1 (proj2 H))).
  - intros j Hj Ho. apply (owned_owner_remote _ _ Hj) in Ho. discriminate.
  - intros j _. apply owned_no_observer.
Defined.

(** Remote 5, the owner of camera 0, is unregistered. *)
Lemma removeClientByRemote_owner_witness :
  trace (removeClientByRemote 5%nat owned) =
    [EvRemoveClientByRemote 5%nat; EvUnlinkToDeath (ClientBinder 0%nat)] /\
  mClient (state (removeClientByRemote 5%nat owned)) 0 = None.
Proof.
  refine (let H := removeClientByRemote_owner 5%nat owned 0 0%nat owner
                     _ _ _ _ _ in
          conj (proj1 H) (proj1 (proj2 H))).
  - vm_compute. split; [discriminate | reflexivity].
  - reflexivity.
  - reflexivity.
  - reflexivity.
  - intros j Hj. lia.
Defined.

(** Remote 5 opens camera 0 of a module with one camera of version 1.0. *)
Lemma connect_granted_witness :
  result (connect (K := constants) (env 41 1000 "0" MODE_ALLOWED)
            5%nat 0 "pkg.a" (-1) (boot (Some (hal 1 256)))) = Some 0%nat /\
  trace (connect (K := constants) (env 41 1000 "0" MODE_ALLOWED)
           5%nat 0 "pkg.a" (-1) (boot (Some (hal 1 256)))) =
    [EvNew CameraClient 0%nat; EvSetCameraBusy 0; EvLoadSound;
     EvInitialize 0%nat; EvLinkToDeath 5%nat].
Proof.
  refine (let H := connect_granted (K := constants)
                     (env 41 1000 "0" MODE_ALLOWED) (boot (Some (hal 1 256)))
                     5%nat 0 "pkg.a" (-1) (hal 1 256) CameraClient
                     _ _ _ _ _ _ _ _ in
          conj (proj1 H) (proj1 (proj2 H))).
  - left. reflexivity.
  - reflexivity.
  - vm_compute. split; [discriminate | reflexivity].
  - vm_compute. discriminate.
  - intros w Hw. vm_compute in Hw. discriminate.
  - reflexivity.
  - reflexivity.
  - reflexivity.
Defined.

(** The handle of that request. *)
Lemma connect_handle_is_registered_witness :
  mClient owned 0 = Some 0%nat /\
  exists o, promote owned 0%nat = Some o /\ getCameraClient o = 5%nat.
Proof.
  refine (let H := connect_handle_is_registered (K := constants)
                     (env 41 1000 "0" MODE_ALLOWED) 5%nat 0 "pkg.a" (-1)
                     (boot (Some (hal 1 256))) 0%nat _ in
          conj (proj1 (proj2 (proj2 H))) (proj2 (proj2 (proj2 H)))).
  reflexivity.
Defined.

(** The policy property reads "1". *)
Lemma connect_refused_untouched_witness :
  connect (K := constants) (env 41 1000 "1" MODE_ALLOWED) 5%nat 0 "pkg.a" (-1)
    (boot (Some (hal 1 256))) = (None, boot (Some (hal 1 256)), []) /\
  connectPro (K := constants) (env 41 1000 "1" MODE_ALLOWED) 5%nat 0
    (boot (Some (hal 1 256))) = (None, boot (Some (hal 1 256)), []).
Proof.
  apply (connect_refused_untouched (K := constants)).
  left. reflexivity.
Defined.

(** A camera that claims version 2.0 behind a module of API version 1.0. *)
Lemma connectPro_legacy_module_witness :
  connectPro (K := constants) (env 41 1000 "0" MODE_ALLOWED) 9%nat 0
    (boot (Some legacy_hal)) = (None, boot (Some legacy_hal), []).
Proof.
  apply (connectPro_legacy_module (K := constants) _ _ _ _ legacy_hal).
  - vm_compute. repeat split; discriminate.
  - reflexivity.
  - reflexivity.
Defined.

(** Remote 9 observes camera 0, of device version 2.0. *)
Lemma connectPro_granted_witness :
  result (connectPro (K := constants) (env 41 1000 "0" MODE_ALLOWED) 9%nat 0
            (boot (Some (hal 1 512)))) = Some 0%nat /\
  trace (connectPro (K := constants) (env 41 1000 "0" MODE_ALLOWED) 9%nat 0
           (boot (Some (hal 1 512)))) =
    [EvNew ProCamera2Client 0%nat; EvInitialize 0%nat; EvLinkToDeath 9%nat].
Proof.
  refine (let H := connectPro_granted (K := constants)
                     (env 41 1000 "0" MODE_ALLOWED) (boot (Some (hal 1 512)))
                     9%nat 0 (hal 1 512) _ _ _ _ _ _ in
          conj (proj1 H) (proj1 (proj2 H))).
  - vm_compute. repeat split; discriminate.
  - reflexivity.
  - vm_compute. split; [discriminate | reflexivity].
  - vm_compute. discriminate.
  - left. reflexivity.
  - reflexivity.
Defined.

(** Remote 6 asks for camera 0 while remote 5 owns it. *)
Lemma connect_refused_leaves_no_client_witness :
  mSoundRef (state (connect (K := constants) env_6 6%nat 0 "pkg.b" (-1) owned))
    = mSoundRef owned /\
  forall j, mBusy (state (connect (K := constants) env_6 6%nat 0 "pkg.b" (-1) owned)) j
            = mBusy owned j.
Proof.
  refine (let H := connect_refused_leaves_no_client (K := constants)
                     env_6 6%nat 0 "pkg.b" (-1) owned _ in
          conj (proj1 H) (proj1 (proj2 H))).
  reflexivity.
Defined.

(** The registry after remote 5 has opened camera 0. *)
Lemma reachable_registry_wf_witness :
  registry_wf owned /\ mNumberOfCameras owned <= 2.
Proof.
  apply (reachable_registry_wf (K := constants) owned).
  - vm_compute. discriminate.
  - apply owned_reachable.
Defined.

(** The service right after a start-up without module. *)
Lemma without_module_nothing_connects_witness :
  mModule (boot None) = None /\ mNumberOfCameras (boot None) = 0.
Proof.
  refine (let H := without_module_nothing_connects (K := constants)
                     7 (fun _ => 1) (boot None) _ in
          conj (proj1 H) (proj1 (proj2 H))).
  apply reachable_refl.
Defined.

(** No sound is loaded right after start-up. *)
Lemma loadSound_releaseSound_idle_witness :
  mSoundRef (state (releaseSound
                      (state (loadSound (env 41 1000 "0" MODE_ALLOWED)
                                (boot (Some (hal 1 256))))))) = 0.
Proof.
  refine (proj1 (loadSound_releaseSound_idle
                   (env 41 1000 "0" MODE_ALLOWED) (boot (Some (hal 1 256))) _)).
  reflexivity.
Defined.

(** The owner of camera 0 starts and finishes its ops, app-ops allowing. *)
Lemma finishCameraOps_pairs_startOp_witness :
  result (startCameraOps (env 41 1000 "0" MODE_ALLOWED) 0%nat owned) = OK /\
  trace (finishCameraOps 0%nat
           (state (startCameraOps (env 41 1000 "0" MODE_ALLOWED) 0%nat owned))) =
    [EvFinishCameraOps 0%nat; EvFinishOp 0%nat; EvStopWatchingMode 0%nat].
Proof.
  refine (let H := finishCameraOps_pairs_startOp
                     (env 41 1000 "0" MODE_ALLOWED) 0%nat owned owner _ _ in
          conj (proj1 H) (proj1 (proj2 (proj2 H)))).
  - reflexivity.
  - reflexivity.
Defined.

(** A notification about op 27 reaches the owner of camera 0. *)
Lemma opChanged_ignored_witness :
  OpsCallback_opChanged (K := constants) (env 41 1000 "0" MODE_IGNORED)
    0%nat 27 "pkg.a" owned = (tt, owned, []).
Proof.
  apply (opChanged_ignored (K := constants)).
  left. vm_compute. discriminate.
Defined.

(** The report while remote 5 owns camera 0. *)
Lemma dump_reports_live_clients_witness :
  In (DClientDump 0%nat)
     (snd (fst (dump (K := constants) (F := facing_constants) dump_env
                  (env 41 1000 "0" MODE_ALLOWED) [] 0 owned))).
Proof.
  refine (proj2 (proj1 (dump_reports_live_clients (K := constants)
                          (F := facing_constants) dump_env
                          (env 41 1000 "0" MODE_ALLOWED) [] 0 owned (hal 1 256)
                          _ _) 0%nat) _).
  - reflexivity.
  - reflexivity.
  - exists 0. vm_compute. repeat split; discriminate.
Defined.

(** The binder of remote 5 dies, then remote 6 asks for camera 0. *)
Lemma binderDied_frees_camera_witness :
  trace (binderDied 5%nat owned) =
    [EvClientDisconnect 0%nat 0; EvRemoveClientByRemote 5%nat;
     EvUnlinkToDeath (ClientBinder 0%nat); EvSetCameraFree 0] /\
  result (connect (K := constants) env_6 6%nat 0 "pkg.b" (-1)
            (state (binderDied 5%nat owned))) = Some 1%nat.
Proof.
  refine (let H := binderDied_frees_camera (K := constants) 5%nat owned 0 0%nat
                     owner env_6 6%nat "pkg.b" (-1) (hal 1 256) CameraClient
                     _ _ _ _ _ _ _ _ _ _ in
          conj (proj1 H) (proj1 (proj2 (proj2 (proj2 H))))).
  - apply owned_wf.
  - reflexivity.
  - reflexivity.
  - reflexivity.
  - intros j Hj. lia.
  - left. reflexivity.
  - reflexivity.
  - vm_compute. discriminate.
  - reflexivity.
  - reflexivity.
Defined.

(** The remote of the observer of camera 0 is unregistered. *)
Lemma removeClientByRemote_observer_stays_witness :
  trace (removeClientByRemote 9%nat observed) =
    [EvRemoveClientByRemote 9%nat; EvUnlinkToDeath (RemoteBinder 9%nat)] /\
  In 0%nat (mProClientList (state (removeClientByRemote 9%nat observed)) 0).
Proof.
  refine (let H := removeClientByRemote_observer_stays 9%nat observed 0 0%nat
                     observer _ _ _ _ _ in
          conj (proj1 H) (proj1 (proj2 H))).
  - intros i _. apply observed_no_owner.
  - vm_compute. split; [discriminate | reflexivity].
  - left. reflexivity.
  - reflexivity.
  - reflexivity.
Defined.

(** The destructor of the owner of camera 0 runs. *)
Lemma destroy_owner_releases_slot_witness :
  mClient (state (destroy 0%nat dying)) 0 = None /\
  mSoundRef (state (destroy 0%nat dying)) = mSoundRef dying - 1.
Proof.
  refine (let H := destroy_owner_releases_slot 0%nat dying
                     (set_refs Dying owner) 0 _ _ _ _ _ _ in
          conj (proj1 H) (proj1 (proj2 (proj2 H)))).
  - reflexivity.
  - vm_compute. split; [discriminate | reflexivity].
  - reflexivity.
  - reflexivity.
  - reflexivity.
  - intros j w ow Hw Hne.
    change (mClient dying j) with (if j =? 0 then Some 0%nat else None) in Hw.
    destruct (j =? 0); congruence.
Defined.

(** Remote 5 opens camera 0, and the client it got is destroyed. *)
Lemma connect_then_destroy_restores_witness :
  mClient (state (run (K := constants) (ADestroy 0%nat) dying)) 0 = None /\
  forall j, mBusy (state (run (K := constants) (ADestroy 0%nat) dying)) j
            = mBusy (boot (Some (hal 1 256))) j.
Proof.
  refine (let H := connect_then_destroy_restores (K := constants)
                     (env 41 1000 "0" MODE_ALLOWED) (boot (Some (hal 1 256)))
                     5%nat 0 "pkg.a" (-1) (hal 1 256) CameraClient
                     _ _ _ _ _ _ _ _ _ in
          conj (proj1 (proj2 (proj2 H))) (proj1 (proj2 (proj2 (proj2 H))))).
  - left. reflexivity.
  - reflexivity.
  - vm_compute. split; [discriminate | reflexivity].
  - vm_compute. discriminate.
  - intros w Hw. vm_compute in Hw. discriminate.
  - reflexivity.
  - reflexivity.
  - reflexivity.
  - intros j w ow Hw. vm_compute in Hw. discriminate.
Defined.

(** The observer of camera 0 is destroyed. *)
Lemma destroy_observer_pruned_witness :
  ~ In 0%nat (mProClientList (state (destroy 0%nat observed)) 0) /\
  mBusy (state (destroy 0%nat observed)) = mBusy observed.
Proof.
  assert (Hr : in_range observed 0)
    by (vm_compute; split; [discriminate | reflexivity]).
  refine (let H := destroy_observer_pruned 0%nat observed observer _ _ _ in
          conj (proj1 H 0 Hr) (proj1 (proj2 (proj2 (proj2 H))))).
  - reflexivity.
  - reflexivity.
  - intros [|w] ow Hne Hp; [congruence|]. vm_compute in Hp. discriminate.
Defined.



